(** * Marker positioning: a shallow embedding of [advanced-marker-system.js]

    The development follows the JavaScript class [AdvancedMarkerSystem]
    and the older stand-alone script [addDynamicMarkers].

    - JavaScript numbers that carry pixel geometry are exact rationals
      ([Q]); [Math.round] produces an integer ([Z]).  The resolver is
      given a second time in module [Binary64], where every arithmetic
      operation rounds its exact result to a binary64 number.
    - [null]/[undefined] is [None]; a member access on [null] raises a
      [TypeError], which is the only exception of the model (selectors are
      taken to be syntactically valid CSS).
    - The document is split in two: what selectors and geometry queries
      observe ([Document], the same for every query of a pass) and the
      overlay that the pass mutates ([Page]: the [.number-marker] badges
      and the console).  Module [Live] gives the pass over a document
      whose queries see the markers that are in it at the time of the
      call. *)

From Stdlib Require Import ZArith QArith Qround Lia String Ascii List.
From stdpp Require Import gmap strings pretty.
Import ListNotations.

Local Open Scope string_scope.
Local Open Scope Z_scope.

(** ** JavaScript numbers *)

Module JsMath.

(** [Math.min(a, b)] and [Math.max(a, b)] on two arguments. *)
Definition min (a b : Q) : Q := if Qle_bool a b then a else b.
Definition max (a b : Q) : Q := if Qle_bool a b then b else a.

(** [Math.round(x)]: the integer nearest to [x], ties towards +infinity. *)
Definition round (x : Q) : Z := Qfloor (x + (1 # 2))%Q.

End JsMath.

(** ** Geometry read from the DOM *)

(** [DOMRect] as returned by [getBoundingClientRect()] (the fields the
    code reads). *)
Record Rect := mkRect {
  rect_top : Q;
  rect_left : Q;
  rect_width : Q;
  rect_height : Q
}.

(** An element, as far as the marker code observes it. [offsetWidth] and
    [offsetHeight] are integers in the DOM. *)
Record Element := mkElement {
  el_id : nat;
  getBoundingClientRect : Rect;
  offsetWidth : Z;
  offsetHeight : Z;
  scrollTop : Q;
  scrollLeft : Q
}.

(** The object returned by [calculateOptimalPosition]. *)
Record Position := mkPosition {
  pos_top : Z;
  pos_left : Z
}.

(** [this.options] *)
Record Options := mkOptions {
  markerSize : Q;
  markerOffset : Q;
  debugMode : bool;
  autoPosition : bool
}.

(** [selector] of a registry entry: a query string, an array of fallback
    query strings, or missing ([undefined]). *)
Inductive Selector :=
| SelString (s : string)
| SelArray (l : list string)
| SelMissing.

(** A registry entry. Missing properties are [None]. *)
Record MarkerSpec := mkSpec {
  selector : Selector;
  description : option string;
  preferredPosition : option string;
  number : option Z
}.

(** ** The position resolver *)

(** [config.preferredPosition || 'top-left']: a missing or empty value is
    falsy. *)
Definition preferredOrDefault (p : option string) : string :=
  match p with
  | None => "top-left"
  | Some EmptyString => "top-left"
  | Some s => s
  end.

(** Lines 187-223: relative position and the [switch] on the placement.
    The result is (relativeTop, relativeLeft) before the bounds check. *)
Definition adjustedPosition (this : Options) (element leftPanel : Element)
    (config : MarkerSpec) : Q * Q :=
  let elementRect := getBoundingClientRect element in
  let panelRect := getBoundingClientRect leftPanel in
  let relativeTop := (rect_top elementRect - rect_top panelRect)%Q in
  let relativeLeft := (rect_left elementRect - rect_left panelRect)%Q in
  let preferredPosition := preferredOrDefault (preferredPosition config) in
  let offset := markerOffset this in
  let markerSize := markerSize this in
  if String.eqb preferredPosition "top-left" then
    (relativeTop - offset, relativeLeft - offset)%Q
  else if String.eqb preferredPosition "top-right" then
    (relativeTop - offset,
     relativeLeft + (rect_width elementRect - markerSize + offset))%Q
  else if String.eqb preferredPosition "bottom-left" then
    (relativeTop + (rect_height elementRect - markerSize + offset),
     relativeLeft - offset)%Q
  else if String.eqb preferredPosition "bottom-right" then
    (relativeTop + (rect_height elementRect - markerSize + offset),
     relativeLeft + (rect_width elementRect - markerSize + offset))%Q
  else if String.eqb preferredPosition "center" then
    (relativeTop + (rect_height elementRect - markerSize) / 2,
     relativeLeft + (rect_width elementRect - markerSize) / 2)%Q
  else
    (relativeTop - offset, relativeLeft - offset)%Q.

(** Lines 225-230: the bounds check against the panel. *)
Definition clampedPosition (this : Options) (element leftPanel : Element)
    (config : MarkerSpec) : Q * Q :=
  let '(relativeTop, relativeLeft) :=
    adjustedPosition this element leftPanel config in
  let markerSize := markerSize this in
  let panelWidth := inject_Z (offsetWidth leftPanel) in
  let panelHeight := inject_Z (offsetHeight leftPanel) in
  (JsMath.max 0 (JsMath.min relativeTop (panelHeight - markerSize)),
   JsMath.max 0 (JsMath.min relativeLeft (panelWidth - markerSize)))%Q.

(** Lines 232-239: scroll correction and rounding. *)
Definition calculateOptimalPosition (this : Options)
    (element leftPanel : Element) (config : MarkerSpec) : Position :=
  let '(relativeTop, relativeLeft) :=
    clampedPosition this element leftPanel config in
  let relativeTop := (relativeTop + scrollTop leftPanel)%Q in
  let relativeLeft := (relativeLeft + scrollLeft leftPanel)%Q in
  {| pos_top := JsMath.round relativeTop;
     pos_left := JsMath.round relativeLeft |}.

(** ** Strings *)

Module JsString.

(** [s.split(c)] for a one-character separator: never an empty array. *)
Fixpoint split (c : ascii) (s : string) : list string :=
  match s with
  | EmptyString => [EmptyString]
  | String a rest =>
      if Ascii.eqb a c then EmptyString :: split c rest
      else match split c rest with
           | hd :: tl => String a hd :: tl
           | [] => [String a EmptyString]
           end
  end.

(** [arr.pop()] as used on the result of [split]: the last entry. *)
Definition pop (l : list string) : string := List.last l EmptyString.

(** [strip_prefix pat s] is what follows [pat] when [s] starts with it. *)
Fixpoint strip_prefix (pat s : string) : option string :=
  match pat, s with
  | EmptyString, _ => Some s
  | String a pat', String b s' =>
      if Ascii.eqb a b then strip_prefix pat' s' else None
  | String _ _, EmptyString => None
  end.

(** [s.replace(pat, rep)] with a string pattern: only the first
    occurrence, wherever it is. *)
Fixpoint replace (pat rep s : string) : string :=
  match strip_prefix pat s with
  | Some rest => rep +:+ rest
  | None =>
      match s with
      | EmptyString => EmptyString
      | String a s' => String a (replace pat rep s')
      end
  end.

(** [s.replace(/c/g, d)] for a one-character pattern [c]. *)
Fixpoint replaceAll (c d : ascii) (s : string) : string :=
  match s with
  | EmptyString => EmptyString
  | String a s' =>
      String (if Ascii.eqb a c then d else a) (replaceAll c d s')
  end.

(** The character [c] does not occur in [s]. *)
Fixpoint lacks (c : ascii) (s : string) : bool :=
  match s with
  | EmptyString => true
  | String a s' => negb (Ascii.eqb a c) && lacks c s'
  end.

(** [s.endsWith(suf)]: some tail of [s] is [suf]. *)
Fixpoint endsWith (suf s : string) : bool :=
  String.eqb s suf ||
  match s with
  | EmptyString => false
  | String _ s' => endsWith suf s'
  end.

End JsString.

(** ** Document, registry and page state *)

(** What the code reads from [window] and [document]. *)
Record Document := mkDocument {
  pathname : string;
  querySelector : string -> option Element;
  body : option Element
}.

(** A rendered [div.number-marker]. *)
Record Marker := mkMarker {
  mk_container : Element;
  mk_textContent : option Z;
  mk_title : string;
  mk_top : Z;
  mk_left : Z;
  mk_size : Q
}.

(** The part of the page a pass changes. [console] grows at its end. *)
Record Page := mkPage {
  markers : list Marker;
  console : list string
}.

(** An instance of [AdvancedMarkerSystem]. *)
Record System := mkSystem {
  options : Options;
  pageConfigs : gmap string (list MarkerSpec)
}.

(** [getCurrentPageName()] *)
Definition getCurrentPageName (document : Document) : string :=
  let path := pathname document in
  let filename := JsString.pop (JsString.split "/" path) in
  let pageName :=
    JsString.replace ".html" EmptyString
      (JsString.replace "_N.html" EmptyString filename) in
  let pageName := JsString.replaceAll "-" " " pageName in
  pageName.

(** The lookup key of the stand-alone script [addDynamicMarkers]. *)
Module Legacy.

Definition currentPage (document : Document) : string :=
  JsString.replace "_N.html" EmptyString
    (JsString.pop (JsString.split "/" (pathname document))).

End Legacy.

(** [for (const sel of selectors) { ... if (element) return element; }] *)
Fixpoint firstMatch (document : Document) (selectors : list string)
    : option Element :=
  match selectors with
  | [] => None
  | sel :: rest =>
      match querySelector document sel with
      | Some element => Some element
      | None => firstMatch document rest
      end
  end.

(** [findElement(selector)] *)
Definition findElement (document : Document) (selector : Selector)
    : option Element :=
  match selector with
  | SelString s => querySelector document s
  | SelArray l => firstMatch document l
  | SelMissing => None
  end.

Definition leftPanelSelectors : list string :=
  [ ".left-panel";
    ".original-content";
    ".container .left-panel";
    ".container > div:first-child";
    ".main-content" ].

(** [getLeftPanel()] *)
Definition getLeftPanel (document : Document) : option Element :=
  match firstMatch document leftPanelSelectors with
  | Some element => Some element
  | None => body document
  end.

(** ** Effects: a state and exception monad over [Page] *)

Inductive Exn := TypeError.

Inductive completion (A : Type) :=
| Normal (a : A)
| Throw (e : Exn).
Arguments Normal {A} a.
Arguments Throw {A} e.

Definition M (A : Type) : Type := Page -> completion A * Page.

Definition ret {A} (a : A) : M A := fun page => (Normal a, page).

Definition throw {A} (e : Exn) : M A := fun page => (Throw e, page).

Definition bind {A B} (m : M A) (k : A -> M B) : M B :=
  fun page =>
    match m page with
    | (Normal a, page') => k a page'
    | (Throw e, page') => (Throw e, page')
    end.

(** stdpp's monad notations: [x ← m; k] and [m;; k]. *)
#[export] Instance M_ret : MRet M := @ret.
#[export] Instance M_bind : MBind M := fun A B k m => bind m k.

(** [arr.forEach(f)]: an exception from [f] ends the loop. *)
Fixpoint forEach {A} (arr : list A) (f : A -> M unit) : M unit :=
  match arr with
  | [] => ret tt
  | item :: rest => f item;; forEach rest f
  end.

(** String conversion in template literals. *)
Definition showNumber (n : option Z) : string :=
  match n with
  | Some z => pretty z
  | None => "undefined"
  end.

Definition showText (s : option string) : string :=
  match s with
  | Some t => t
  | None => "undefined"
  end.

Fixpoint join (sep : string) (l : list string) : string :=
  match l with
  | [] => EmptyString
  | [s] => s
  | s :: rest => s +:+ sep +:+ join sep rest
  end.

Definition showSelector (sel : Selector) : string :=
  match sel with
  | SelString s => s
  | SelArray l => join "," l
  | SelMissing => "undefined"
  end.

(** [log(message)] *)
Definition log (this : System) (message : string) : M unit :=
  fun page =>
    if debugMode (options this) then
      (Normal tt,
       {| markers := markers page;
          console := console page ++ ["[AdvancedMarkerSystem] " +:+ message] |})
    else (Normal tt, page).

(** [clearExistingMarkers()]: every [.number-marker] of the document is
    removed. *)
Definition clearExistingMarkers : M unit :=
  fun page => (Normal tt, {| markers := []; console := console page |}).

(** The call [this.calculateOptimalPosition(element, leftPanel, config)]
    on values that may be [null]: [getBoundingClientRect] is read from
    both. *)
Definition invokeCalculateOptimalPosition (this : System)
    (element leftPanel : option Element) (config : MarkerSpec) : M Position :=
  match element, leftPanel with
  | Some e, Some p => ret (calculateOptimalPosition (options this) e p config)
  | _, _ => throw TypeError
  end.

(** [description || `마커 ${number}`] *)
Definition markerTitle (number : option Z) (description : option string)
    : string :=
  match description with
  | None | Some EmptyString => "마커 " +:+ showNumber number
  | Some d => d
  end.

(** [container.appendChild(marker)] for a freshly built marker; the
    receiver may be [null]. *)
Definition appendChild (container : option Element)
    (marker : Element -> Marker) : M unit :=
  match container with
  | None => throw TypeError
  | Some c =>
      fun page =>
        (Normal tt,
         {| markers := markers page ++ [marker c];
            console := console page |})
  end.

(** [createMarker(container, position, number, description)] *)
Definition createMarker (this : System) (container : option Element)
    (position : Position) (number : option Z) (description : option string)
    : M unit :=
  let marker (c : Element) :=
    {| mk_container := c;
       mk_textContent := number;
       mk_title := markerTitle number description;
       mk_top := pos_top position;
       mk_left := pos_left position;
       mk_size := markerSize (options this) |} in
  appendChild container marker;;
  log this ("Created marker " +:+ showNumber number +:+ " at (" +:+
            pretty (pos_top position) +:+ ", " +:+
            pretty (pos_left position) +:+ ") for: " +:+
            showText description).

(** JavaScript truthiness of an element reference. *)
Definition truthy (e : option Element) : bool :=
  match e with
  | Some _ => true
  | None => false
  end.

(** The callback of [config.forEach] in [updateAllMarkers]. *)
Definition updateItem (this : System) (document : Document)
    (leftPanel : option Element) (item : MarkerSpec) : M unit :=
  let element := findElement document (selector item) in
  if truthy element then
    position ← invokeCalculateOptimalPosition this element leftPanel item;
    createMarker this leftPanel position (number item) (description item)
  else
    log this ("Element not found: " +:+ showSelector (selector item)).

(** [updateAllMarkers()] *)
Definition updateAllMarkers (this : System) (document : Document) : M unit :=
  let pageName := getCurrentPageName document in
  match pageConfigs this !! pageName with
  | None => log this ("No configuration found for page: " +:+ pageName)
  | Some config =>
      let leftPanel := getLeftPanel document in
      if negb (truthy leftPanel) then log this "Left panel not found"
      else
        clearExistingMarkers;;
        forEach config (updateItem this document leftPanel)
  end.

(** [config] with its [preferredPosition] replaced. *)
Definition withPlacement (config : MarkerSpec) (p : option string)
    : MarkerSpec :=
  {| selector := selector config;
     description := description config;
     preferredPosition := p;
     number := number config |}.

(** ** Timers, [debounce] and the event handlers of [init] *)

Module EventLoop.

(** The functions handed to [debounce]; both call sites pass
    [() => this.updateAllMarkers()]. *)
Inductive Callback := CallUpdateAllMarkers.

(** The closure [executedFunction] that [debounce(func, wait)] returns.
    [db_timeout] is the address of its captured variable [timeout]. *)
Record Debounced := mkDebounced {
  db_func : Callback;
  db_wait : nat;
  db_timeout : nat
}.

(** The closure [later] handed to [setTimeout]. *)
Record Later := mkLater {
  lt_timeout : nat;
  lt_func : Callback
}.

(** A pending timer: its id, the time it is due, its callback. *)
Record Timer := mkTimer {
  tm_id : nat;
  tm_due : nat;
  tm_later : Later
}.

(** The state of the event loop. [vars] holds the [timeout] variables of
    the closures made by [debounce] ([None] is [undefined]); [passes]
    counts the calls of [updateAllMarkers]. Time is in milliseconds. *)
Record Loop := mkLoop {
  now : nat;
  timers : list Timer;
  nextTimer : nat;
  vars : gmap nat (option nat);
  nextVar : nat;
  passes : nat
}.

Definition setTimeout (later : Later) (wait : nat) (st : Loop)
    : nat * Loop :=
  (nextTimer st,
   {| now := now st;
      timers := timers st ++
        [ {| tm_id := nextTimer st;
             tm_due := (now st + wait)%nat;
             tm_later := later |} ];
      nextTimer := S (nextTimer st);
      vars := vars st;
      nextVar := nextVar st;
      passes := passes st |}).

(** [clearTimeout(id)]; [clearTimeout(undefined)] does nothing. *)
Definition clearTimeout (id : option nat) (st : Loop) : Loop :=
  match id with
  | None => st
  | Some i =>
      {| now := now st;
         timers := List.filter (fun t => negb (Nat.eqb (tm_id t) i))
                     (timers st);
         nextTimer := nextTimer st;
         vars := vars st;
         nextVar := nextVar st;
         passes := passes st |}
  end.

(** Reading and writing a captured [timeout] variable. *)
Definition readVar (a : nat) (st : Loop) : option nat :=
  match vars st !! a with
  | Some v => v
  | None => None
  end.

Definition writeVar (a : nat) (v : option nat) (st : Loop) : Loop :=
  {| now := now st;
     timers := timers st;
     nextTimer := nextTimer st;
     vars := <[a := v]> (vars st);
     nextVar := nextVar st;
     passes := passes st |}.

(** [debounce(func, wait)]: declares [timeout] and returns the closure.
    Nothing is scheduled. *)
Definition debounce (func : Callback) (wait : nat) (st : Loop)
    : Debounced * Loop :=
  ({| db_func := func; db_wait := wait; db_timeout := nextVar st |},
   {| now := now st;
      timers := timers st;
      nextTimer := nextTimer st;
      vars := <[nextVar st := None]> (vars st);
      nextVar := S (nextVar st);
      passes := passes st |}).

(** A call of the closure [executedFunction]. *)
Definition executedFunction (d : Debounced) (st : Loop) : Loop :=
  let later := {| lt_timeout := db_timeout d; lt_func := db_func d |} in
  let st := clearTimeout (readVar (db_timeout d) st) st in
  let '(id, st) := setTimeout later (db_wait d) st in
  writeVar (db_timeout d) (Some id) st.

(** A call of [func]. *)
Definition call (f : Callback) (st : Loop) : Loop :=
  match f with
  | CallUpdateAllMarkers =>
      {| now := now st;
         timers := timers st;
         nextTimer := nextTimer st;
         vars := vars st;
         nextVar := nextVar st;
         passes := S (passes st) |}
  end.

(** A call of the closure [later]. *)
Definition runLater (l : Later) (st : Loop) : Loop :=
  let st := clearTimeout (readVar (lt_timeout l) st) st in
  call (lt_func l) st.

(** The [resize] listener of [init]:
    [() => this.debounce(() => this.updateAllMarkers(), 250)]. *)
Definition onResize (st : Loop) : Loop :=
  let '(_, st) := debounce CallUpdateAllMarkers 250 st in
  st.

(** The [MutationObserver] callback of [setupMutationObserver]:
    [() => { this.debounce(() => this.updateAllMarkers(), 500); }]. *)
Definition onMutation (st : Loop) : Loop :=
  let '(_, st) := debounce CallUpdateAllMarkers 500 st in
  st.

(** The [resize] listener of the stand-alone script:
    [window.addEventListener('resize', addDynamicMarkers)]. *)
Definition onResizeLegacy (st : Loop) : Loop :=
  call CallUpdateAllMarkers st.

Definition isDue (t : nat) (tm : Timer) : bool := Nat.leb (tm_due tm) t.

Definition dropTimer (i : nat) (st : Loop) : Loop :=
  clearTimeout (Some i) st.

(** Runs the timers that are due, oldest first; a timer leaves the
    pending list before its callback runs. *)
Fixpoint fire (fuel : nat) (st : Loop) : Loop :=
  match fuel with
  | O => st
  | S fuel' =>
      match List.find (isDue (now st)) (timers st) with
      | None => st
      | Some tm => fire fuel' (runLater (tm_later tm) (dropTimer (tm_id tm) st))
      end
  end.

(** One millisecond passes. *)
Definition tick (st : Loop) : Loop :=
  let st :=
    {| now := S (now st);
       timers := timers st;
       nextTimer := nextTimer st;
       vars := vars st;
       nextVar := nextVar st;
       passes := passes st |} in
  fire (List.length (timers st)) st.

Fixpoint elapse (ms : nat) (st : Loop) : Loop :=
  match ms with
  | O => st
  | S ms' => elapse ms' (tick st)
  end.

Inductive Event :=
| Resize
| Mutation
| Elapse (ms : nat).

Definition handle (st : Loop) (ev : Event) : Loop :=
  match ev with
  | Resize => onResize st
  | Mutation => onMutation st
  | Elapse ms => elapse ms st
  end.

Definition run (evs : list Event) (st : Loop) : Loop :=
  List.fold_left handle evs st.

(** The loop once [init] and [setupPage] have returned: the listeners
    are installed, no timer is pending. *)
Definition afterInit : Loop :=
  {| now := 0%nat;
     timers := [];
     nextTimer := 1%nat;
     vars := ∅;
     nextVar := 0%nat;
     passes := 0%nat |}.

End EventLoop.

(** ** The specification's wording, for comparison with the code *)

Module Spec.

Inductive Placement :=
| TopLeft
| TopRight
| BottomLeft
| BottomRight
| Center.

Definition placementName (p : Placement) : string :=
  match p with
  | TopLeft => "top-left"
  | TopRight => "top-right"
  | BottomLeft => "bottom-left"
  | BottomRight => "bottom-right"
  | Center => "center"
  end.

(** Step 1: the base relative position (relTop, relLeft). *)
Definition relative (elementRect containerRect : Rect) : Q * Q :=
  (rect_top elementRect - rect_top containerRect,
   rect_left elementRect - rect_left containerRect)%Q.



(** The name is one of the five enumerated placements. *)
Definition recognized (p : option string) : Prop :=
  exists q : Placement, p = Some (placementName q).

(** [s] without its last [n] characters. *)
Definition dropLast (n : nat) (s : string) : string :=
  String.substring 0 (String.length s - n) s.

(** Page identifier: last path segment, known suffix stripped,
    separators normalized to spaces. *)
Definition pageIdentifier (path : string) : string :=
  let segment := JsString.pop (JsString.split "/" path) in
  let stem :=
    if JsString.endsWith "_N.html" segment then dropLast 7 segment
    else if JsString.endsWith ".html" segment then dropLast 5 segment
    else segment in
  JsString.replaceAll "-" " " stem.

End Spec.

(** ** Auxiliary definitions used in the statements *)

(** [leftPanel] with other scroll offsets. *)
Definition withScroll (leftPanel : Element) (top left : Q) : Element :=
  {| el_id := el_id leftPanel;
     getBoundingClientRect := getBoundingClientRect leftPanel;
     offsetWidth := offsetWidth leftPanel;
     offsetHeight := offsetHeight leftPanel;
     scrollTop := top;
     scrollLeft := left |}.

(** The page a pass leaves behind. *)
Definition pageAfter (m : M unit) (page : Page) : Page := snd (m page).

(** What [log] writes on the console. *)
Definition logLine (this : System) (message : string) : list string :=
  if debugMode (options this) then ["[AdvancedMarkerSystem] " +:+ message]
  else [].

Definition emptyPage : Page := {| markers := []; console := [] |}.

(** The marker that one registry entry contributes to a pass over the
    panel [p]: none when its anchor is not found. *)
Definition itemMarkers (this : System) (document : Document) (p : Element)
    (item : MarkerSpec) : list Marker :=
  match findElement document (selector item) with
  | Some e =>
      let position := calculateOptimalPosition (options this) e p item in
      [ {| mk_container := p;
           mk_textContent := number item;
           mk_title := markerTitle (number item) (description item);
           mk_top := pos_top position;
           mk_left := pos_left position;
           mk_size := markerSize (options this) |} ]
  | None => []
  end.

(** The console lines that one registry entry contributes. *)
Definition itemLog (this : System) (document : Document) (p : Element)
    (item : MarkerSpec) : list string :=
  match findElement document (selector item) with
  | Some e =>
      let position := calculateOptimalPosition (options this) e p item in
      logLine this
        ("Created marker " +:+ showNumber (number item) +:+ " at (" +:+
         pretty (pos_top position) +:+ ", " +:+
         pretty (pos_left position) +:+ ") for: " +:+
         showText (description item))
  | None =>
      logLine this ("Element not found: " +:+ showSelector (selector item))
  end.

(** [page] with more markers and console lines at the end. *)
Definition extend (page : Page) (ms : list Marker) (ls : list string)
    : Page :=
  {| markers := markers page ++ ms; console := console page ++ ls |}.

(** Sample values for the concrete instances below: the options of the
    global instance, an element of a given box, a panel at the viewport
    origin. *)
Module Sample.

Definition debugOptions : Options :=
  {| markerSize := 24; markerOffset := 8;
     debugMode := true; autoPosition := true |}.

Definition quietOptions : Options :=
  {| markerSize := 24; markerOffset := 8;
     debugMode := false; autoPosition := true |}.

Definition box (top left width height : Q) : Element :=
  {| el_id := 1%nat;
     getBoundingClientRect :=
       {| rect_top := top; rect_left := left;
          rect_width := width; rect_height := height |};
     offsetWidth := 0; offsetHeight := 0;
     scrollTop := 0; scrollLeft := 0 |}.

Definition panel (top left : Q) (width height : Z) : Element :=
  {| el_id := 0%nat;
     getBoundingClientRect :=
       {| rect_top := top; rect_left := left;
          rect_width := inject_Z width; rect_height := inject_Z height |};
     offsetWidth := width; offsetHeight := height;
     scrollTop := 0; scrollLeft := 0 |}.

(** A button, a large panel, a panel lower than a marker, an element of
    exactly the marker's size and a panel 10px down and right of it. *)
Definition button : Element := box 20 20 100 40.
Definition leftPanel : Element := panel 0 0 400 800.
Definition shortPanel : Element := panel 0 0 300 20.
Definition badge : Element := box 0 0 24 24.
Definition insetPanel : Element := panel 10 10 400 800.

Definition spec (placement : option string) : MarkerSpec :=
  {| selector := SelString "button.p-2:last-of-type";
     description := Some "profile";
     preferredPosition := placement;
     number := Some 1 |}.

(** A document in which exactly the selectors of [found] match. *)
Definition document (path : string) (found : list (string * Element))
    (body : option Element) : Document :=
  {| pathname := path;
     querySelector := fun sel =>
       match List.find (fun kv => String.eqb (fst kv) sel) found with
       | Some kv => Some (snd kv)
       | None => None
       end;
     body := body |}.

Definition system (o : Options) (page : string) (config : list MarkerSpec)
    : System :=
  {| options := o; pageConfigs := {[ page := config ]} |}.

(** The home page: a profile button, a banner that is not in the
    document, a section. *)
Definition homePath : string := "/pages/2-1-home_N.html".

Definition banner : MarkerSpec :=
  {| selector := SelString ".swiper-container";
     description := Some "banner";
     preferredPosition := Some "center";
     number := Some 2 |}.

Definition section : MarkerSpec :=
  {| selector := SelArray [".my-clubs"; ".bg-gradient-to-br"];
     description := None;
     preferredPosition := None;
     number := Some 3 |}.

Definition homeSpecs : list MarkerSpec :=
  [spec (Some "top-right"); banner; section].

Definition homeDocument : Document :=
  document homePath
    [ (".left-panel", leftPanel);
      ("button.p-2:last-of-type", button);
      (".bg-gradient-to-br", box 200 10 380 120) ]
    (Some (panel 0 0 1200 900)).

(** The same page before anything of it is parsed: no match, no body. *)
Definition bareDocument : Document := document homePath [] None.

(** Only [body] is there to serve as the container. *)
Definition bodyOnlyDocument : Document :=
  document homePath [("button.p-2:last-of-type", button)]
    (Some (panel 0 0 1200 900)).

Definition homeSystem (o : Options) : System :=
  system o "2 1 home" homeSpecs.

End Sample.

(** ** Registration, set-up, export and tear-down *)

(** [{...el, number: el.number || (index + 1)}]: a missing number and 0
    are falsy. *)
Definition numberOrIndex (index : nat) (el : MarkerSpec) : MarkerSpec :=
  {| selector := selector el;
     description := description el;
     preferredPosition := preferredPosition el;
     number :=
       match number el with
       | None | Some 0 => Some (Z.of_nat index + 1)
       | Some n => Some n
       end |}.

(** [registerPageConfig(pageName, elements)]: the registry entry is
    replaced, then the pass runs if [pageName] is the current page. The
    result is the instance after the call and the outcome on the page. *)
Definition registerPageConfig (this : System) (document : Document)
    (pageName : string) (elements : list MarkerSpec) (page : Page)
    : System * (completion unit * Page) :=
  let this' :=
    {| options := options this;
       pageConfigs :=
         <[pageName := imap numberOrIndex elements]> (pageConfigs this) |} in
  (this',
   if String.eqb (getCurrentPageName document) pageName
   then updateAllMarkers this' document page
   else (Normal tt, page)).

(** A double quote inside a selector. *)
Definition dq : string := String "034"%char EmptyString.

(** The two registry entries of [registerDefaultConfigs]. *)
Definition sellPageName : string := "3 4 판매하기".

Definition sellPageSpecs : list MarkerSpec :=
  [ {| selector :=
         SelString ("button[onclick=" +:+ dq +:+ "history.back()" +:+ dq +:+ "]");
       description := Some "뒤로가기 버튼";
       preferredPosition := Some "top-left";
       number := None |};
    {| selector :=
         SelString ("button[onclick*=" +:+ dq +:+ "3-4-2" +:+ dq +:+ "]");
       description := Some "판매 등록 시작 버튼";
       preferredPosition := Some "top-left";
       number := None |} ].

Definition homePageName : string := "2 1 홈".

Definition homePageSpecs : list MarkerSpec :=
  [ {| selector := SelString "button.p-2:last-of-type";
       description := Some "프로필 버튼";
       preferredPosition := Some "top-right";
       number := None |};
    {| selector :=
         SelString (".swiper-container, [class*=" +:+ dq +:+ "swiper" +:+ dq +:+ "]");
       description := Some "이벤트 배너";
       preferredPosition := Some "center";
       number := None |};
    {| selector := SelString ".bg-gradient-to-br";
       description := Some "My Clubs 섹션";
       preferredPosition := Some "top-left";
       number := None |};
    {| selector :=
         SelString ("button[onclick*=" +:+ dq +:+ "2-2-1" +:+ dq +:+
                    "], button[onclick*=" +:+ dq +:+ "AI" +:+ dq +:+
                    "], button[onclick*=" +:+ dq +:+ "추천" +:+ dq +:+ "]");
       description := Some "클럽 추천받기";
       preferredPosition := Some "top-left";
       number := None |} ].

(** [registerDefaultConfigs()] *)
Definition registerDefaultConfigs (this : System) (document : Document)
    (page : Page) : System * (completion unit * Page) :=
  let '(this1, (r1, page1)) :=
    registerPageConfig this document sellPageName sellPageSpecs page in
  match r1 with
  | Throw e => (this1, (Throw e, page1))
  | Normal _ =>
      registerPageConfig this1 document homePageName homePageSpecs page1
  end.

(** The registry after the first and after both registrations of
    [registerDefaultConfigs]. *)
Definition withSellPage (this : System) : System :=
  {| options := options this;
     pageConfigs :=
       <[sellPageName := imap numberOrIndex sellPageSpecs]> (pageConfigs this) |}.

Definition withDefaults (this : System) : System :=
  {| options := options this;
     pageConfigs :=
       <[homePageName := imap numberOrIndex homePageSpecs]>
         (pageConfigs (withSellPage this)) |}.

(** An instance with its set [this.observers]; observers are named by
    numbers, in the order they were added. *)
Record MarkerSystem := mkMarkerSystem {
  ms_system : System;
  ms_observers : list nat
}.

(** The browser's side of [MutationObserver]: whether the constructor
    exists, and which observers are connected. *)
Record Browser := mkBrowser {
  mutationObserverSupported : bool;
  connected : list nat;
  nextObserver : nat
}.

(** [setupMutationObserver()]: the observer is built, then
    [observer.observe(document.body, ...)] connects it, and only then is
    it added to [this.observers]; [observe] raises a [TypeError] when
    [document.body] is [null]. *)
Definition setupMutationObserver (this : MarkerSystem) (window : Browser)
    (document : Document) : MarkerSystem * Browser * completion unit :=
  if negb (mutationObserverSupported window) then (this, window, Normal tt)
  else
    let observer := nextObserver window in
    match body document with
    | None =>
        (this,
         {| mutationObserverSupported := mutationObserverSupported window;
            connected := connected window;
            nextObserver := S observer |},
         Throw TypeError)
    | Some _ =>
        ({| ms_system := ms_system this;
            ms_observers := ms_observers this ++ [observer] |},
         {| mutationObserverSupported := mutationObserverSupported window;
            connected := connected window ++ [observer];
            nextObserver := S observer |},
         Normal tt)
    end.

(** [this.pageConfigs.has(pageName)] *)
Definition hasPageConfig (this : System) (pageName : string) : bool :=
  match pageConfigs this !! pageName with
  | Some _ => true
  | None => false
  end.

(** [setupPage()] *)
Definition setupPage (this : MarkerSystem) (window : Browser)
    (document : Document) (page : Page)
    : MarkerSystem * Browser * (completion unit * Page) :=
  let pageName := getCurrentPageName document in
  let '(sys, (r1, page1)) :=
    registerDefaultConfigs (ms_system this) document page in
  let this1 := {| ms_system := sys; ms_observers := ms_observers this |} in
  match r1 with
  | Throw e => (this1, window, (Throw e, page1))
  | Normal _ =>
      let '(r2, page2) :=
        if hasPageConfig sys pageName
        then updateAllMarkers sys document page1
        else (Normal tt, page1) in
      match r2 with
      | Throw e => (this1, window, (Throw e, page2))
      | Normal _ =>
          let '(this2, window2, r3) :=
            setupMutationObserver this1 window document in
          (this2, window2, (r3, page2))
      end
  end.

(** [destroy()] *)
Definition destroy (this : MarkerSystem) (window : Browser) (page : Page)
    : MarkerSystem * Browser * Page :=
  let page' := snd (clearExistingMarkers page) in
  let window' :=
    {| mutationObserverSupported := mutationObserverSupported window;
       connected :=
         List.filter
           (fun o => negb (existsb (Nat.eqb o) (ms_observers this)))
           (connected window);
       nextObserver := nextObserver window |} in
  ({| ms_system := {| options := options (ms_system this); pageConfigs := ∅ |};
      ms_observers := [] |},
   window', page').

(** One entry of the array returned by [exportCurrentPositions]. *)
Record ExportEntry := mkExportEntry {
  ex_selector : Selector;
  ex_description : option string;
  ex_position : Position;
  ex_pythonConfig : string
}.

(** The object returned by [exportCurrentPositions]. *)
Record Export := mkExport {
  ex_pageName : string;
  ex_positions : list ExportEntry;
  ex_pythonCode : string
}.

(** A line feed. *)
Definition nl : string := String "010"%char EmptyString.

(** The template literal of the [pythonConfig] property. *)
Definition pythonConfigOf (item : MarkerSpec) (position : Position)
    : string :=
  "{'selector': '" +:+ showSelector (selector item) +:+
  "', 'offset': {'top': " +:+ pretty (pos_top position) +:+
  ", 'left': " +:+ pretty (pos_left position) +:+
  "}, 'desc': '" +:+ showText (description item) +:+ "'}".

(** [generatePythonConfig(pageName, positions)] *)
Definition generatePythonConfig (pageName : string)
    (positions : list ExportEntry) : string :=
  let configs :=
    join ("," +:+ nl)
      (map (fun p => "        " +:+ ex_pythonConfig p) positions) in
  "    '" +:+ pageName +:+ "': [" +:+ nl +:+ configs +:+ nl +:+ "    ]".

(** The [config.forEach] of [exportCurrentPositions]; [positions] is the
    array filled so far. No guard protects [leftPanel] here. *)
Fixpoint exportLoop (this : System) (document : Document)
    (leftPanel : option Element) (config : list MarkerSpec)
    (positions : list ExportEntry) : M (list ExportEntry) :=
  match config with
  | [] => ret positions
  | item :: rest =>
      let element := findElement document (selector item) in
      if truthy element then
        position ← invokeCalculateOptimalPosition this element leftPanel item;
        exportLoop this document leftPanel rest
          (positions ++
             [ {| ex_selector := selector item;
                  ex_description := description item;
                  ex_position := position;
                  ex_pythonConfig := pythonConfigOf item position |} ])
      else exportLoop this document leftPanel rest positions
  end.

(** [exportCurrentPositions()]; [None] is [null]. *)
Definition exportCurrentPositions (this : System) (document : Document)
    : M (option Export) :=
  let pageName := getCurrentPageName document in
  match pageConfigs this !! pageName with
  | None => ret None
  | Some config =>
      let leftPanel := getLeftPanel document in
      positions ← exportLoop this document leftPanel config [];
      ret (Some {| ex_pageName := pageName;
                   ex_positions := positions;
                   ex_pythonCode := generatePythonConfig pageName positions |})
  end.

(** The entry that one registry entry contributes to an export over the
    panel [p]: none when its anchor is not found. *)
Definition itemExport (this : System) (document : Document) (p : Element)
    (item : MarkerSpec) : list ExportEntry :=
  match findElement document (selector item) with
  | Some e =>
      let position := calculateOptimalPosition (options this) e p item in
      [ {| ex_selector := selector item;
           ex_description := description item;
           ex_position := position;
           ex_pythonConfig := pythonConfigOf item position |} ]
  | None => []
  end.

(** [markerDebugTools.getPythonConfig()] without its console output. *)
Definition getPythonConfig (this : System) (document : Document)
    : M (option string) :=
  data ← exportCurrentPositions this document;
  ret (match data with
       | Some d => Some (ex_pythonCode d)
       | None => None
       end).

(** The marker that the stand-alone script [addDynamicMarkers] places for
    an anchor: 8px up and left of it, neither clamped nor rounded. *)
Module LegacyScript.

Definition markerOffset (element leftPanel : Element) : Q * Q :=
  let elementRect := getBoundingClientRect element in
  let panelRect := getBoundingClientRect leftPanel in
  let relativeTop := (rect_top elementRect - rect_top panelRect - 8)%Q in
  let relativeLeft := (rect_left elementRect - rect_left panelRect - 8)%Q in
  (relativeTop, relativeLeft).

End LegacyScript.

(** Invariants of the timer queue: pending timers have distinct ids, none
    is overdue, and the [timeout] variable that a pending timer's [later]
    reads holds that timer's id or the id of no pending timer. *)
Fixpoint distinctIds (l : list EventLoop.Timer) : Prop :=
  match l with
  | [] => True
  | tm :: l' =>
      (forall tm', In tm' l' -> EventLoop.tm_id tm' <> EventLoop.tm_id tm) /\
      distinctIds l'
  end.

Definition cellsOwn (st : EventLoop.Loop) : Prop :=
  forall tm i,
    In tm (EventLoop.timers st) ->
    EventLoop.readVar (EventLoop.lt_timeout (EventLoop.tm_later tm)) st = Some i ->
    i = EventLoop.tm_id tm \/
    forall tm', In tm' (EventLoop.timers st) -> EventLoop.tm_id tm' <> i.

Definition orderly (st : EventLoop.Loop) : Prop :=
  distinctIds (EventLoop.timers st) /\
  (forall tm, In tm (EventLoop.timers st) ->
     (EventLoop.now st < EventLoop.tm_due tm)%nat) /\
  cellsOwn st.

(** A burst of calls of one debounced closure: before each call, [g]
    milliseconds pass, for each [g] of [gaps] in turn. *)
Fixpoint burst (d : EventLoop.Debounced) (gaps : list nat)
    (st : EventLoop.Loop) : EventLoop.Loop :=
  match gaps with
  | [] => st
  | g :: rest =>
      burst d rest (EventLoop.executedFunction d (EventLoop.elapse g st))
  end.

(** An element moved by [(dx, dy)] in the viewport. *)
Definition moved (e : Element) (dy dx : Q) : Element :=
  {| el_id := el_id e;
     getBoundingClientRect :=
       {| rect_top := (rect_top (getBoundingClientRect e) + dy)%Q;
          rect_left := (rect_left (getBoundingClientRect e) + dx)%Q;
          rect_width := rect_width (getBoundingClientRect e);
          rect_height := rect_height (getBoundingClientRect e) |};
     offsetWidth := offsetWidth e;
     offsetHeight := offsetHeight e;
     scrollTop := scrollTop e;
     scrollLeft := scrollLeft e |}.

(** The anchor of a registry entry is in the document. *)
Definition anchored (document : Document) (item : MarkerSpec) : bool :=
  truthy (findElement document (selector item)).

(** More sample values. *)
Module Fixture.

Definition window : Browser :=
  {| mutationObserverSupported := true; connected := []; nextObserver := 0%nat |}.

Definition fresh (o : Options) : MarkerSystem :=
  {| ms_system := {| options := o; pageConfigs := ∅ |}; ms_observers := [] |}.

(** A document whose [head] is parsed ([title] is there) and whose body
    is not. *)
Definition headOnlyDocument : Document :=
  Sample.document Sample.homePath [("title", Sample.box 0 0 0 0)] None.

Definition titleSpec : MarkerSpec :=
  {| selector := SelString "title";
     description := None;
     preferredPosition := None;
     number := None |}.

End Fixture.

(** ** The resolver in binary64 arithmetic *)

(** JavaScript numbers are binary64. [fl] rounds a real to the nearest
    binary64 number, ties to even; each arithmetic operation of the code
    returns the rounded exact result. Overflow, subnormal numbers,
    infinities and NaN are outside the pixel range and are not
    modelled. *)
Module Binary64.

(** [floor (log2 x)] for a positive [x]. *)
Definition log2floor (x : Q) : Z :=
  let d := (Z.log2 (Qnum x) - Z.log2 (Zpos (Qden x)))%Z in
  if Qle_bool (2 ^ d) x then d else (d - 1)%Z.

(** The integer nearest to [y], ties to the even one. *)
Definition nearestEven (y : Q) : Z :=
  let f := Qfloor y in
  match Qcompare (y - inject_Z f) (1 # 2) with
  | Lt => f
  | Gt => (f + 1)%Z
  | Eq => if Z.even f then f else (f + 1)%Z
  end.

(** A positive [x] rounded to 53 significant bits. *)
Definition roundPositive (x : Q) : Q :=
  let s := (log2floor x - 52)%Z in
  (inject_Z (nearestEven (x / 2 ^ s)) * 2 ^ s)%Q.

Definition fl (x : Q) : Q :=
  match Qcompare x 0 with
  | Eq => 0%Q
  | Gt => roundPositive x
  | Lt => (- roundPositive (- x))%Q
  end.

Definition add (x y : Q) : Q := fl (x + y).
Definition sub (x y : Q) : Q := fl (x - y).
Definition div (x y : Q) : Q := fl (x / y).

(** Lines 187-223 *)
Definition adjustedPosition (this : Options) (element leftPanel : Element)
    (config : MarkerSpec) : Q * Q :=
  let elementRect := getBoundingClientRect element in
  let panelRect := getBoundingClientRect leftPanel in
  let relativeTop := sub (rect_top elementRect) (rect_top panelRect) in
  let relativeLeft := sub (rect_left elementRect) (rect_left panelRect) in
  let preferredPosition := preferredOrDefault (preferredPosition config) in
  let offset := markerOffset this in
  let markerSize := markerSize this in
  if String.eqb preferredPosition "top-left" then
    (sub relativeTop offset, sub relativeLeft offset)
  else if String.eqb preferredPosition "top-right" then
    (sub relativeTop offset,
     add relativeLeft (add (sub (rect_width elementRect) markerSize) offset))
  else if String.eqb preferredPosition "bottom-left" then
    (add relativeTop (add (sub (rect_height elementRect) markerSize) offset),
     sub relativeLeft offset)
  else if String.eqb preferredPosition "bottom-right" then
    (add relativeTop (add (sub (rect_height elementRect) markerSize) offset),
     add relativeLeft (add (sub (rect_width elementRect) markerSize) offset))
  else if String.eqb preferredPosition "center" then
    (add relativeTop (div (sub (rect_height elementRect) markerSize) 2),
     add relativeLeft (div (sub (rect_width elementRect) markerSize) 2))
  else
    (sub relativeTop offset, sub relativeLeft offset).

(** Lines 225-230 *)
Definition clampedPosition (this : Options) (element leftPanel : Element)
    (config : MarkerSpec) : Q * Q :=
  let '(relativeTop, relativeLeft) :=
    adjustedPosition this element leftPanel config in
  let markerSize := markerSize this in
  let panelWidth := inject_Z (offsetWidth leftPanel) in
  let panelHeight := inject_Z (offsetHeight leftPanel) in
  (JsMath.max 0 (JsMath.min relativeTop (sub panelHeight markerSize)),
   JsMath.max 0 (JsMath.min relativeLeft (sub panelWidth markerSize))).

(** Lines 232-239 *)
Definition calculateOptimalPosition (this : Options)
    (element leftPanel : Element) (config : MarkerSpec) : Position :=
  let '(relativeTop, relativeLeft) :=
    clampedPosition this element leftPanel config in
  let relativeTop := add relativeTop (scrollTop leftPanel) in
  let relativeLeft := add relativeLeft (scrollLeft leftPanel) in
  {| pos_top := JsMath.round relativeTop;
     pos_left := JsMath.round relativeLeft |}.

(** The binary64 numbers written 16.4 and 0.9. *)
Definition d16_4 : Q := 2308094809027379 # 140737488355328.
Definition d0_9 : Q := 8106479329266893 # 9007199254740992.

(** An anchor whose top is 16.4 in a panel whose top is 0.9. *)
Definition anchor : Element := Sample.box d16_4 20 100 40.
Definition panel : Element :=
  {| el_id := 0%nat;
     getBoundingClientRect :=
       {| rect_top := d0_9; rect_left := 0;
          rect_width := 400; rect_height := 800 |};
     offsetWidth := 400; offsetHeight := 800;
     scrollTop := 0; scrollLeft := 0 |}.

End Binary64.

(** ** The document as the passes change it *)

(** [Document] above answers every query of a pass in the same way. In
    the browser [document.querySelector] searches the tree as it is at
    the time of the call, and that tree holds the markers appended so
    far. Here a query is given the markers that are in the document. *)
Module Live.

(** A node of the page as it was loaded, named by its [el_id], or a
    marker made by [createMarker], named by the order of creation. *)
Inductive NodeRef :=
| StaticNode (id : nat)
| MarkerNode (id : nat).

(** A node and what the code reads from it. *)
Record Node := mkNode {
  node_ref : NodeRef;
  node_element : Element
}.

(** A [div.number-marker] and the node it was appended to. *)
Record LiveMarker := mkLiveMarker {
  lm_id : nat;
  lm_parent : NodeRef;
  lm_marker : Marker
}.

(** What the code reads from [window] and [document];
    [live_querySelector] is given the markers that are in the document,
    in the order they were appended. *)
Record LiveDocument := mkLiveDocument {
  live_pathname : string;
  live_querySelector : list LiveMarker -> string -> option Node;
  live_body : option Element
}.

(** The part of the page the code changes. [attached] are the markers in
    the document; [detached] are markers that were removed from it or
    appended to a node outside it; [created] counts the calls of
    [document.createElement]. [passes] counts the calls of
    [updateAllMarkers]; it is bookkeeping, the code has no such
    counter. *)
Record LivePage := mkLivePage {
  attached : list LiveMarker;
  detached : list LiveMarker;
  created : nat;
  live_console : list string;
  passes : nat
}.

Definition emptyPage : LivePage :=
  {| attached := []; detached := []; created := 0%nat;
     live_console := []; passes := 0%nat |}.

(** The document as the static queries of the code see it while the
    markers [ms] are in it. *)
Definition snapshotAt (document : LiveDocument) (ms : list LiveMarker)
    : Document :=
  {| pathname := live_pathname document;
     querySelector := fun sel =>
       match live_querySelector document ms sel with
       | Some n => Some (node_element n)
       | None => None
       end;
     body := live_body document |}.

(** The markers in the document and the console. *)
Definition project (page : LivePage) : Page :=
  {| markers := map lm_marker (attached page);
     console := live_console page |}.

Definition LM (A : Type) : Type := LivePage -> completion A * LivePage.

Definition ret {A} (a : A) : LM A := fun page => (Normal a, page).

Definition throw {A} (e : Exn) : LM A := fun page => (Throw e, page).

Definition bind {A B} (m : LM A) (k : A -> LM B) : LM B :=
  fun page =>
    match m page with
    | (Normal a, page') => k a page'
    | (Throw e, page') => (Throw e, page')
    end.

#[global] Instance LM_ret : MRet LM := @ret.
#[global] Instance LM_bind : MBind LM := fun A B k m => bind m k.

Fixpoint forEach {A} (arr : list A) (f : A -> LM unit) : LM unit :=
  match arr with
  | [] => ret tt
  | item :: rest => f item;; forEach rest f
  end.

(** [getCurrentPageName()] reads [window.location.pathname] only. *)
Definition currentPageName (document : LiveDocument) : string :=
  getCurrentPageName (snapshotAt document []).

(** [log(message)] *)
Definition log (this : System) (message : string) : LM unit :=
  fun page =>
    if debugMode (options this) then
      (Normal tt,
       {| attached := attached page;
          detached := detached page;
          created := created page;
          live_console :=
            live_console page ++ ["[AdvancedMarkerSystem] " +:+ message];
          passes := passes page |})
    else (Normal tt, page).

(** [clearExistingMarkers()]: [querySelectorAll('.number-marker')] finds
    the markers that are in the document, and each is removed from its
    parent. *)
Definition clearExistingMarkers : LM unit :=
  fun page =>
    (Normal tt,
     {| attached := [];
        detached := detached page ++ attached page;
        created := created page;
        live_console := live_console page;
        passes := passes page |}).

(** [document.querySelector(sel)] *)
Definition querySelector (document : LiveDocument) (sel : string)
    : LM (option Node) :=
  fun page => (Normal (live_querySelector document (attached page) sel), page).

(** [for (const sel of selectors) { ... if (element) return element; }] *)
Fixpoint firstMatch (document : LiveDocument) (selectors : list string)
    : LM (option Node) :=
  match selectors with
  | [] => ret None
  | sel :: rest =>
      element ← querySelector document sel;
      match element with
      | Some e => ret (Some e)
      | None => firstMatch document rest
      end
  end.

(** [findElement(selector)] *)
Definition findElement (document : LiveDocument) (selector : Selector)
    : LM (option Node) :=
  match selector with
  | SelString s => querySelector document s
  | SelArray l => firstMatch document l
  | SelMissing => ret None
  end.

(** [document.body], a node of the loaded page. *)
Definition bodyNode (document : LiveDocument) : option Node :=
  match live_body document with
  | Some b => Some {| node_ref := StaticNode (el_id b); node_element := b |}
  | None => None
  end.

(** [getLeftPanel()] *)
Definition getLeftPanel (document : LiveDocument) : LM (option Node) :=
  element ← firstMatch document leftPanelSelectors;
  match element with
  | Some e => ret (Some e)
  | None => ret (bodyNode document)
  end.

(** The call [this.calculateOptimalPosition(element, leftPanel, config)]
    on nodes that may be [null]. *)
Definition invokeCalculateOptimalPosition (this : System)
    (element leftPanel : option Node) (config : MarkerSpec) : LM Position :=
  match element, leftPanel with
  | Some e, Some p =>
      ret (calculateOptimalPosition (options this)
             (node_element e) (node_element p) config)
  | _, _ => throw TypeError
  end.

(** [document.createElement('div')]: a node outside the document. *)
Definition createElement : LM nat :=
  fun page =>
    (Normal (created page),
     {| attached := attached page;
        detached := detached page;
        created := S (created page);
        live_console := live_console page;
        passes := passes page |}).

(** Whether a node is in the document. *)
Definition inDocument (page : LivePage) (r : NodeRef) : bool :=
  match r with
  | StaticNode _ => true
  | MarkerNode i => existsb (fun m => Nat.eqb (lm_id m) i) (attached page)
  end.

(** [container.appendChild(marker)] for the marker made last: it is in
    the document exactly when [container] is. *)
Definition appendChild (container : option Node) (id : nat)
    (marker : Element -> Marker) : LM unit :=
  match container with
  | None => throw TypeError
  | Some c =>
      fun page =>
        let m := {| lm_id := id;
                    lm_parent := node_ref c;
                    lm_marker := marker (node_element c) |} in
        if inDocument page (node_ref c) then
          (Normal tt,
           {| attached := attached page ++ [m];
              detached := detached page;
              created := created page;
              live_console := live_console page;
              passes := passes page |})
        else
          (Normal tt,
           {| attached := attached page;
              detached := detached page ++ [m];
              created := created page;
              live_console := live_console page;
              passes := passes page |})
  end.

(** [createMarker(container, position, number, description)] *)
Definition createMarker (this : System) (container : option Node)
    (position : Position) (number : option Z) (description : option string)
    : LM unit :=
  let marker (c : Element) :=
    {| mk_container := c;
       mk_textContent := number;
       mk_title := markerTitle number description;
       mk_top := pos_top position;
       mk_left := pos_left position;
       mk_size := markerSize (options this) |} in
  id ← createElement;
  appendChild container id marker;;
  log this ("Created marker " +:+ showNumber number +:+ " at (" +:+
            pretty (pos_top position) +:+ ", " +:+
            pretty (pos_left position) +:+ ") for: " +:+
            showText description).

(** The callback of [config.forEach] in [updateAllMarkers]. *)
Definition updateItem (this : System) (document : LiveDocument)
    (leftPanel : option Node) (item : MarkerSpec) : LM unit :=
  element ← findElement document (selector item);
  match element with
  | Some _ =>
      position ← invokeCalculateOptimalPosition this element leftPanel item;
      createMarker this leftPanel position (number item) (description item)
  | None =>
      log this ("Element not found: " +:+ showSelector (selector item))
  end.

Definition countPass : LM unit :=
  fun page =>
    (Normal tt,
     {| attached := attached page;
        detached := detached page;
        created := created page;
        live_console := live_console page;
        passes := S (passes page) |}).

(** [updateAllMarkers()]: the container is looked up in the document
    that still holds the markers of the pass before, and those are
    removed afterwards. *)
Definition updateAllMarkers (this : System) (document : LiveDocument)
    : LM unit :=
  countPass;;
  let pageName := currentPageName document in
  match pageConfigs this !! pageName with
  | None => log this ("No configuration found for page: " +:+ pageName)
  | Some config =>
      leftPanel ← getLeftPanel document;
      match leftPanel with
      | None => log this "Left panel not found"
      | Some _ =>
          clearExistingMarkers;;
          forEach config (updateItem this document leftPanel)
      end
  end.

(** [registerPageConfig(pageName, elements)] *)
Definition registerPageConfig (this : System) (document : LiveDocument)
    (pageName : string) (elements : list MarkerSpec) (page : LivePage)
    : System * (completion unit * LivePage) :=
  let this' :=
    {| options := options this;
       pageConfigs :=
         <[pageName := imap numberOrIndex elements]> (pageConfigs this) |} in
  (this',
   if String.eqb (currentPageName document) pageName
   then updateAllMarkers this' document page
   else (Normal tt, page)).

(** [registerDefaultConfigs()] *)
Definition registerDefaultConfigs (this : System) (document : LiveDocument)
    (page : LivePage) : System * (completion unit * LivePage) :=
  let '(this1, (r1, page1)) :=
    registerPageConfig this document sellPageName sellPageSpecs page in
  match r1 with
  | Throw e => (this1, (Throw e, page1))
  | Normal _ =>
      registerPageConfig this1 document homePageName homePageSpecs page1
  end.

(** [setupPage()] *)
Definition setupPage (this : MarkerSystem) (window : Browser)
    (document : LiveDocument) (page : LivePage)
    : MarkerSystem * Browser * (completion unit * LivePage) :=
  let pageName := currentPageName document in
  let '(sys, (r1, page1)) :=
    registerDefaultConfigs (ms_system this) document page in
  let this1 := {| ms_system := sys; ms_observers := ms_observers this |} in
  match r1 with
  | Throw e => (this1, window, (Throw e, page1))
  | Normal _ =>
      let '(r2, page2) :=
        if hasPageConfig sys pageName
        then updateAllMarkers sys document page1
        else (Normal tt, page1) in
      match r2 with
      | Throw e => (this1, window, (Throw e, page2))
      | Normal _ =>
          let '(this2, window2, r3) :=
            setupMutationObserver this1 window (snapshotAt document []) in
          (this2, window2, (r3, page2))
      end
  end.

(** The [config.forEach] of [exportCurrentPositions]. *)
Fixpoint exportLoop (this : System) (document : LiveDocument)
    (leftPanel : option Node) (config : list MarkerSpec)
    (positions : list ExportEntry) : LM (list ExportEntry) :=
  match config with
  | [] => ret positions
  | item :: rest =>
      element ← findElement document (selector item);
      match element with
      | Some _ =>
          position ← invokeCalculateOptimalPosition this element leftPanel item;
          exportLoop this document leftPanel rest
            (positions ++
               [ {| ex_selector := selector item;
                    ex_description := description item;
                    ex_position := position;
                    ex_pythonConfig := pythonConfigOf item position |} ])
      | None => exportLoop this document leftPanel rest positions
      end
  end.

(** [exportCurrentPositions()] *)
Definition exportCurrentPositions (this : System) (document : LiveDocument)
    : LM (option Export) :=
  let pageName := currentPageName document in
  match pageConfigs this !! pageName with
  | None => ret None
  | Some config =>
      leftPanel ← getLeftPanel document;
      positions ← exportLoop this document leftPanel config [];
      ret (Some {| ex_pageName := pageName;
                   ex_positions := positions;
                   ex_pythonCode := generatePythonConfig pageName positions |})
  end.

(** The page a call leaves behind. *)
Definition pageAfter (m : LM unit) (page : LivePage) : LivePage :=
  snd (m page).

(** An outcome with the markers in the document and the console. *)
Definition observe {A} (x : completion A * LivePage) : completion A * Page :=
  (fst x, project (snd x)).

(** The selector strings that a registry entry hands to
    [document.querySelector]. *)
Definition selectorStrings (sel : Selector) : list string :=
  match sel with
  | SelString s => [s]
  | SelArray l => l
  | SelMissing => []
  end.

(** The selectors a pass over [config] queries. *)
Definition queried (config : list MarkerSpec) : list string :=
  (leftPanelSelectors ++
   flat_map (fun item => selectorStrings (selector item)) config)%list.

(** No marker is in the way of the selectors [sels]: each of them
    matches the same node of the loaded page whatever markers are in the
    document. *)
Definition unaffected (document : LiveDocument) (sels : list string)
    : Prop :=
  forall sel, In sel sels ->
    (forall ms, live_querySelector document ms sel =
                live_querySelector document [] sel) /\
    (forall n, live_querySelector document [] sel = Some n ->
               exists id, node_ref n = StaticNode id).

End Live.

(** A page on which the container lookup finds a marker. At
    [/3-4-판매하기_N.html]:
    [<body>
       <button onclick="history.back()">back</button>
       <div class="container main-content">text</div>
     </body>]
    The [div] has no element child, so before the first pass
    [.container > div:first-child] matches nothing and [.main-content]
    is the container; a marker appended to the [div] is its first
    element child, and a [div]. [view] is the geometry of a marker as
    the browser lays it out. *)
Module LiveFixture.

Definition path : string := "/3-4-판매하기_N.html".

Definition backButton : Live.Node :=
  {| Live.node_ref := Live.StaticNode 1;
     Live.node_element := Sample.button |}.

Definition contentElement : Element :=
  {| el_id := 2%nat;
     getBoundingClientRect :=
       {| rect_top := 0; rect_left := 0;
          rect_width := 400; rect_height := 800 |};
     offsetWidth := 400; offsetHeight := 800;
     scrollTop := 0; scrollLeft := 0 |}.

Definition content : Live.Node :=
  {| Live.node_ref := Live.StaticNode 2;
     Live.node_element := contentElement |}.

Definition isChildOfContent (m : Live.LiveMarker) : bool :=
  match Live.lm_parent m with
  | Live.StaticNode 2 => true
  | _ => false
  end.

(** The answers to the selectors that a pass over this page queries. *)
Definition answers (view : Live.LiveMarker -> Element)
    (ms : list Live.LiveMarker) (sel : string) : option Live.Node :=
  if String.eqb sel ".main-content" then Some content
  else if String.eqb sel ".container > div:first-child" then
    match List.find isChildOfContent ms with
    | Some m =>
        Some {| Live.node_ref := Live.MarkerNode (Live.lm_id m);
                Live.node_element := view m |}
    | None => None
    end
  else if String.eqb sel
            ("button[onclick=" +:+ dq +:+ "history.back()" +:+ dq +:+ "]")
  then Some backButton
  else None.

Definition document (view : Live.LiveMarker -> Element)
    : Live.LiveDocument :=
  {| Live.live_pathname := path;
     Live.live_querySelector := answers view;
     Live.live_body := Some (Sample.panel 0 0 1200 900) |}.

(** The instance after [registerDefaultConfigs]. *)
Definition this : System :=
  withDefaults {| options := Sample.debugOptions; pageConfigs := ∅ |}.

(** A node of the loaded page and a marker as a node. *)
Definition staticNode (e : Element) : Live.Node :=
  {| Live.node_ref := Live.StaticNode (el_id e); Live.node_element := e |}.

Definition markerNode (view : Live.LiveMarker -> Element)
    (m : Live.LiveMarker) : Live.Node :=
  {| Live.node_ref := Live.MarkerNode (Live.lm_id m);
     Live.node_element := view m |}.

(** The home page of [Sample.homeDocument] as a live document: the
    selector [.number-marker] finds the first marker in the document,
    the markers are in the way of no other selector. *)
Definition home (view : Live.LiveMarker -> Element) : Live.LiveDocument :=
  {| Live.live_pathname := Sample.homePath;
     Live.live_querySelector := fun ms sel =>
       if String.eqb sel ".number-marker"
       then option_map (markerNode view) (head ms)
       else option_map staticNode (querySelector Sample.homeDocument sel);
     Live.live_body := body Sample.homeDocument |}.


(** The marker of the back button, as the first pass renders it. *)
Definition backMarker : Marker :=
  {| mk_container := contentElement;
     mk_textContent := Some 1;
     mk_title := "뒤로가기 버튼";
     mk_top := 12;
     mk_left := 12;
     mk_size := 24 |}.

(** Every marker laid out as a 24px box at the viewport origin. *)
Definition flatView (m : Live.LiveMarker) : Element := Sample.badge.

(** A page that already shows a marker from an earlier pass. *)
Definition stalePage : Live.LivePage :=
  {| Live.attached :=
       [ {| Live.lm_id := 0%nat;
            Live.lm_parent := Live.StaticNode 0;
            Live.lm_marker := backMarker |} ];
     Live.detached := [];
     Live.created := 1%nat;
     Live.live_console := [];
     Live.passes := 0%nat |}.

End LiveFixture.

(** * Properties *)

(** ** [Math.min], [Math.max], [Math.round] *)

Section JsMathFacts.

Local Open Scope Q_scope.

Lemma max_lower (a b : Q) : a <= JsMath.max a b.
Proof.
  unfold JsMath.max. destruct (Qle_bool a b) eqn:E.
  - now apply Qle_bool_iff.
  - apply Qle_refl.
Qed.

Lemma max_lower_r (a b : Q) : b <= JsMath.max a b.
Proof.
  unfold JsMath.max. destruct (Qle_bool a b) eqn:E.
  - apply Qle_refl.
  - apply Qlt_le_weak, Qnot_le_lt. intros H.
    apply Qle_bool_iff in H. congruence.
Qed.

Lemma max_upper (a b c : Q) : a <= c -> b <= c -> JsMath.max a b <= c.
Proof. unfold JsMath.max. now destruct (Qle_bool a b). Qed.

Lemma min_upper (a b : Q) : JsMath.min a b <= b.
Proof.
  unfold JsMath.min. destruct (Qle_bool a b) eqn:E.
  - now apply Qle_bool_iff.
  - apply Qle_refl.
Qed.

(** The clamp idiom of the bounds check. *)
Lemma clamp_bounds (x hi : Q) :
  0 <= JsMath.max 0 (JsMath.min x hi) /\
  (0 <= hi -> JsMath.max 0 (JsMath.min x hi) <= hi).
Proof.
  split.
  - apply max_lower.
  - intros H. apply max_upper; [exact H | apply min_upper].
Qed.

Lemma clamp_inside (x hi : Q) :
  0 <= x -> x <= hi -> JsMath.max 0 (JsMath.min x hi) = x.
Proof.
  intros H0 H1. unfold JsMath.max, JsMath.min.
  apply Qle_bool_iff in H1. rewrite H1.
  apply Qle_bool_iff in H0. now rewrite H0.
Qed.

Lemma Qle_bool_proper (a a' b b' : Q) :
  a == a' -> b == b' -> Qle_bool a b = Qle_bool a' b'.
Proof.
  intros Ha Hb.
  destruct (Qle_bool a b) eqn:E, (Qle_bool a' b') eqn:E'; try reflexivity.
  - apply Qle_bool_iff in E. rewrite Ha, Hb in E.
    apply Qle_bool_iff in E. congruence.
  - apply Qle_bool_iff in E'. rewrite <- Ha, <- Hb in E'.
    apply Qle_bool_iff in E'. congruence.
Qed.

Lemma min_proper (a a' b b' : Q) :
  a == a' -> b == b' -> JsMath.min a b == JsMath.min a' b'.
Proof.
  intros Ha Hb. unfold JsMath.min.
  rewrite (Qle_bool_proper a a' b b' Ha Hb).
  now destruct (Qle_bool a' b').
Qed.

Lemma max_proper (a a' b b' : Q) :
  a == a' -> b == b' -> JsMath.max a b == JsMath.max a' b'.
Proof.
  intros Ha Hb. unfold JsMath.max.
  rewrite (Qle_bool_proper a a' b b' Ha Hb).
  now destruct (Qle_bool a' b').
Qed.

Lemma round_proper (x y : Q) : x == y -> JsMath.round x = JsMath.round y.
Proof. intros H. unfold JsMath.round. now rewrite H. Qed.

(** Adding an integer commutes with rounding. *)
Lemma round_shift (x : Q) (n : Z) :
  JsMath.round (x + inject_Z n) = (JsMath.round x + n)%Z.
Proof.
  unfold JsMath.round.
  assert (E : x + inject_Z n + (1 # 2) == (x + (1 # 2)) + inject_Z n) by ring.
  rewrite E. clear E.
  destruct (x + (1 # 2)) as [a b].
  unfold Qplus, inject_Z, Qfloor. simpl Qnum. simpl Qden.
  rewrite Z.mul_1_r, Pos.mul_1_r.
  apply Z.div_add. lia.
Qed.

Lemma round_integer (z : Z) : JsMath.round (inject_Z z) = z.
Proof.
  rewrite (round_proper (inject_Z z) (0 + inject_Z z)) by ring.
  rewrite round_shift. reflexivity.
Qed.


End JsMathFacts.

(** ** The position resolver *)

Section Resolver.

Local Open Scope Q_scope.

Variable this : Options.

Lemma clampedPosition_unfold (element leftPanel : Element)
    (config : MarkerSpec) :
  clampedPosition this element leftPanel config =
  (JsMath.max 0
     (JsMath.min (fst (adjustedPosition this element leftPanel config))
        (inject_Z (offsetHeight leftPanel) - markerSize this)),
   JsMath.max 0
     (JsMath.min (snd (adjustedPosition this element leftPanel config))
        (inject_Z (offsetWidth leftPanel) - markerSize this))).
Proof.
  unfold clampedPosition.
  now destruct (adjustedPosition this element leftPanel config).
Qed.

Lemma calculateOptimalPosition_unfold (element leftPanel : Element)
    (config : MarkerSpec) :
  calculateOptimalPosition this element leftPanel config =
  {| pos_top :=
       JsMath.round (fst (clampedPosition this element leftPanel config)
                     + scrollTop leftPanel);
     pos_left :=
       JsMath.round (snd (clampedPosition this element leftPanel config)
                     + scrollLeft leftPanel) |}.
Proof.
  unfold calculateOptimalPosition.
  now destruct (clampedPosition this element leftPanel config).
Qed.

(** The bounds check never reads the scroll offsets. *)
Lemma clampedPosition_withScroll (element leftPanel : Element)
    (config : MarkerSpec) (t l : Q) :
  clampedPosition this element (withScroll leftPanel t l) config =
  clampedPosition this element leftPanel config.
Proof. reflexivity. Qed.

(** The resolver reads [config] only through the placement it
    selects. *)
Lemma calculateOptimalPosition_adjusted (element leftPanel : Element)
    (config config' : MarkerSpec) :
  adjustedPosition this element leftPanel config =
  adjustedPosition this element leftPanel config' ->
  calculateOptimalPosition this element leftPanel config =
  calculateOptimalPosition this element leftPanel config'.
Proof.
  intros H. unfold calculateOptimalPosition, clampedPosition.
  now rewrite H.
Qed.

(** Lower bound 0 always holds; the upper bound is
    [max 0 (size - markerSize)]. *)
Lemma clamped_general_bounds (element leftPanel : Element)
    (config : MarkerSpec) :
  let m := markerSize this in
  let '(t, l) := clampedPosition this element leftPanel config in
  (0 <= t /\
   t <= JsMath.max 0 (inject_Z (offsetHeight leftPanel) - m)) /\
  (0 <= l /\
   l <= JsMath.max 0 (inject_Z (offsetWidth leftPanel) - m)).
Proof.
  rewrite clampedPosition_unfold. cbv zeta.
  repeat split; try apply max_lower.
  - apply max_upper; [apply max_lower |].
    eapply Qle_trans; [apply min_upper | apply max_lower_r].
  - apply max_upper; [apply max_lower |].
    eapply Qle_trans; [apply min_upper | apply max_lower_r].
Qed.

(** C1 (as amended): when the marker fits into the panel
    ([markerSize <= offsetHeight] and [markerSize <= offsetWidth]), the
    position before the scroll correction satisfies
    [0 <= top <= offsetHeight - markerSize] and
    [0 <= left <= offsetWidth - markerSize], for every element,
    panel, placement and offset. *)
Theorem clamped_within_panel (element leftPanel : Element)
    (config : MarkerSpec) :
  markerSize this <= inject_Z (offsetHeight leftPanel) ->
  markerSize this <= inject_Z (offsetWidth leftPanel) ->
  let '(t, l) := clampedPosition this element leftPanel config in
  (0 <= t /\ t <= inject_Z (offsetHeight leftPanel) - markerSize this) /\
  (0 <= l /\ l <= inject_Z (offsetWidth leftPanel) - markerSize this).
Proof.
  intros Hh Hw. rewrite clampedPosition_unfold.
  assert (Bh : 0 <= inject_Z (offsetHeight leftPanel) - markerSize this).
  { apply (Qplus_le_l _ _ (markerSize this)). ring_simplify. exact Hh. }
  assert (Bw : 0 <= inject_Z (offsetWidth leftPanel) - markerSize this).
  { apply (Qplus_le_l _ _ (markerSize this)). ring_simplify. exact Hw. }
  split; split; try apply max_lower.
  - now apply clamp_bounds.
  - now apply clamp_bounds.
Qed.


(** The worked example of the specification: [top-right] on an element
    of width 100 at relative left 0 with marker size 24 and offset 8
    gives left 84 before the bounds check. *)
Lemma top_right_example (element leftPanel : Element)
    (config : MarkerSpec) :
  preferredPosition config = Some "top-right" ->
  rect_width (getBoundingClientRect element) == 100 ->
  rect_left (getBoundingClientRect element)
    - rect_left (getBoundingClientRect leftPanel) == 0 ->
  markerSize this == 24 -> markerOffset this == 8 ->
  snd (adjustedPosition this element leftPanel config) == 84.
Proof.
  intros Hp Hw Hl Hm Ho. unfold adjustedPosition. rewrite Hp.
  cbn [preferredOrDefault String.eqb Ascii.eqb Bool.eqb snd].
  cbn. rewrite Hw, Hl, Hm, Ho. reflexivity.
Qed.

(** Any integer scroll offset is added after rounding, unclamped. *)
Lemma integer_scroll_shift (element leftPanel : Element)
    (config : MarkerSpec) (dt dl : Z) :
  let unscrolled :=
    calculateOptimalPosition this element (withScroll leftPanel 0 0) config in
  calculateOptimalPosition this element
    (withScroll leftPanel (inject_Z dt) (inject_Z dl)) config =
  {| pos_top := (pos_top unscrolled + dt)%Z;
     pos_left := (pos_left unscrolled + dl)%Z |}.
Proof.
  cbv zeta. rewrite !calculateOptimalPosition_unfold.
  rewrite !clampedPosition_withScroll. cbn [scrollTop scrollLeft withScroll pos_top pos_left].
  rewrite !round_shift.
  f_equal; f_equal; apply round_proper; ring.
Qed.

(** The scroll shift in exact rational arithmetic, where the sum of the
    clamped position and the scroll is not rounded to a binary64 number:
    with container scroll [{top: 50, left: 0}] the result is exactly
    (50, 0) more than with zero scroll, and the shifted value is the
    rounded sum, with no further bounds check. The binary64 resolver is
    treated in section [Binary64Resolver]. *)
Theorem scroll_shifts_result (element leftPanel : Element)
    (config : MarkerSpec) :
  let unscrolled :=
    calculateOptimalPosition this element (withScroll leftPanel 0 0) config in
  let scrolled :=
    calculateOptimalPosition this element (withScroll leftPanel 50 0) config in
  scrolled =
    {| pos_top := (pos_top unscrolled + 50)%Z;
       pos_left := pos_left unscrolled |} /\
  pos_top scrolled =
    JsMath.round (fst (clampedPosition this element leftPanel config) + 50).
Proof.
  cbv zeta. split.
  - change 50 with (inject_Z 50). change 0 with (inject_Z 0) at 1.
    rewrite (integer_scroll_shift element leftPanel config 50 0). cbv zeta.
    now rewrite Z.add_0_r.
  - rewrite calculateOptimalPosition_unfold.
    now rewrite clampedPosition_withScroll.
Qed.

End Resolver.

Section Placements.

Local Open Scope Q_scope.

Variable this : Options.

Lemma preferredOrDefault_other (p : option string) (s : string) :
  preferredOrDefault p = s -> s <> "top-left"%string -> p = Some s.
Proof.
  intros E N. destruct p as [[| a r] |]; simpl in E; congruence.
Qed.

Local Ltac recognized_by q E Es U :=
  apply String.eqb_eq in E; rewrite E in Es; exfalso; apply U;
  exists q; apply preferredOrDefault_other; [exact Es | discriminate].

Lemma adjusted_unrecognized (element leftPanel : Element)
    (config : MarkerSpec) :
  ~ Spec.recognized (preferredPosition config) ->
  adjustedPosition this element leftPanel config =
  adjustedPosition this element leftPanel
    (withPlacement config (Some "top-left"%string)).
Proof.
  intros U. unfold adjustedPosition.
  cbn [withPlacement preferredPosition preferredOrDefault].
  change (String.eqb "top-left" "top-left") with true. cbv iota.
  remember (preferredOrDefault (preferredPosition config)) as s eqn:Es.
  symmetry in Es.
  destruct (String.eqb s "top-left") eqn:E1; [reflexivity |].
  destruct (String.eqb s "top-right") eqn:E2.
  { recognized_by Spec.TopRight E2 Es U. }
  destruct (String.eqb s "bottom-left") eqn:E3.
  { recognized_by Spec.BottomLeft E3 Es U. }
  destruct (String.eqb s "bottom-right") eqn:E4.
  { recognized_by Spec.BottomRight E4 Es U. }
  destruct (String.eqb s "center") eqn:E5.
  { recognized_by Spec.Center E5 Es U. }
  reflexivity.
Qed.

(** C4: for a placement that is none of the five enumerated values, a
    missing one included, the resolver returns the same result as for
    the same input with placement [top-left]. *)
Theorem unrecognized_placement_is_top_left (element leftPanel : Element)
    (config : MarkerSpec) :
  ~ Spec.recognized (preferredPosition config) ->
  calculateOptimalPosition this element leftPanel config =
  calculateOptimalPosition this element leftPanel
    (withPlacement config (Some "top-left"%string)).
Proof.
  intros U. apply calculateOptimalPosition_adjusted.
  now apply adjusted_unrecognized.
Qed.

Lemma adjusted_center (element leftPanel : Element) (config : MarkerSpec) :
  preferredPosition config = Some "center"%string ->
  adjustedPosition this element leftPanel config =
  (rect_top (getBoundingClientRect element)
     - rect_top (getBoundingClientRect leftPanel)
     + (rect_height (getBoundingClientRect element) - markerSize this) / 2,
   rect_left (getBoundingClientRect element)
     - rect_left (getBoundingClientRect leftPanel)
     + (rect_width (getBoundingClientRect element) - markerSize this) / 2).
Proof. intros H. unfold adjustedPosition. rewrite H. reflexivity. Qed.

(** On a marker-sized element the centering terms vanish. *)
Lemma center_zero_adjustment (element leftPanel : Element)
    (config : MarkerSpec) :
  preferredPosition config = Some "center"%string ->
  rect_width (getBoundingClientRect element) == markerSize this ->
  rect_height (getBoundingClientRect element) == markerSize this ->
  let rel := Spec.relative (getBoundingClientRect element)
               (getBoundingClientRect leftPanel) in
  let adjusted := adjustedPosition this element leftPanel config in
  fst adjusted == fst rel /\ snd adjusted == snd rel.
Proof.
  intros Hc Hw Hh. cbv zeta.
  rewrite (adjusted_center _ _ _ Hc). cbn [fst snd Spec.relative].
  rewrite Hw, Hh. split; field.
Qed.

Lemma clamp_proper (x y hi : Q) :
  x == y ->
  JsMath.max 0 (JsMath.min x hi) == JsMath.max 0 (JsMath.min y hi).
Proof.
  intros H. apply max_proper; [reflexivity |].
  apply min_proper; [exact H | reflexivity].
Qed.


(** Inside the bounds, at integer coordinates and without scroll, the
    result is the relative position itself. *)
Lemma center_inside_bounds_is_relative (element leftPanel : Element)
    (config : MarkerSpec) (zt zl : Z) :
  preferredPosition config = Some "center"%string ->
  rect_width (getBoundingClientRect element) == markerSize this ->
  rect_height (getBoundingClientRect element) == markerSize this ->
  let rel := Spec.relative (getBoundingClientRect element)
               (getBoundingClientRect leftPanel) in
  fst rel == inject_Z zt -> snd rel == inject_Z zl ->
  0 <= fst rel <= inject_Z (offsetHeight leftPanel) - markerSize this ->
  0 <= snd rel <= inject_Z (offsetWidth leftPanel) - markerSize this ->
  scrollTop leftPanel == 0 -> scrollLeft leftPanel == 0 ->
  calculateOptimalPosition this element leftPanel config =
  {| pos_top := zt; pos_left := zl |}.
Proof.
  intros Hc Hw Hh rel Et El [T0 T1] [L0 L1] St Sl.
  destruct (center_zero_adjustment element leftPanel config Hc Hw Hh)
    as [At Al].
  fold rel in At, Al.
  rewrite calculateOptimalPosition_unfold, clampedPosition_unfold.
  cbn [fst snd]. f_equal.
  - rewrite <- (round_integer zt). apply round_proper.
    rewrite (clamp_proper _ _ _ At), (clamp_inside _ _ T0 T1), St, Et.
    ring.
  - rewrite <- (round_integer zl). apply round_proper.
    rewrite (clamp_proper _ _ _ Al), (clamp_inside _ _ L0 L1), Sl, El.
    ring.
Qed.

End Placements.

(** ** Concrete instances for the resolver *)

Section ResolverInstances.

Local Open Scope Q_scope.

Lemma clamped_within_panel_witness :
  markerSize Sample.debugOptions <= inject_Z (offsetHeight Sample.leftPanel) /\
  markerSize Sample.debugOptions <= inject_Z (offsetWidth Sample.leftPanel) /\
  let '(t, l) :=
    clampedPosition Sample.debugOptions Sample.button Sample.leftPanel
      (Sample.spec (Some "bottom-right"%string)) in
  (0 <= t /\
   t <= inject_Z (offsetHeight Sample.leftPanel)
        - markerSize Sample.debugOptions) /\
  (0 <= l /\
   l <= inject_Z (offsetWidth Sample.leftPanel)
        - markerSize Sample.debugOptions).
Proof.
  split; [apply Qle_bool_iff; reflexivity |].
  split; [apply Qle_bool_iff; reflexivity |].
  apply (clamped_within_panel Sample.debugOptions Sample.button
           Sample.leftPanel (Sample.spec (Some "bottom-right"%string)));
    apply Qle_bool_iff; reflexivity.
Defined.

(** A panel 20px high with a 24px marker: the clamped top is 0, above
    the claimed upper bound [20 - 24]. *)
Lemma clamped_short_panel_counterexample :
  0 < markerSize Sample.debugOptions /\
  ~ (let '(t, l) :=
       clampedPosition Sample.debugOptions Sample.button Sample.shortPanel
         (Sample.spec (Some "top-left"%string)) in
     (0 <= t /\
      t <= inject_Z (offsetHeight Sample.shortPanel)
           - markerSize Sample.debugOptions) /\
     (0 <= l /\
      l <= inject_Z (offsetWidth Sample.shortPanel)
           - markerSize Sample.debugOptions)).
Proof.
  split; [reflexivity |].
  vm_compute. intros [[_ H] _]. apply H. reflexivity.
Qed.

Lemma top_left_example :
  calculateOptimalPosition Sample.debugOptions Sample.button
    Sample.leftPanel (Sample.spec (Some "top-left"%string)) =
  {| pos_top := 12; pos_left := 12 |}.
Proof. reflexivity. Qed.

(** At the bottom of a scrolled panel the result exceeds
    [offsetHeight - markerSize]: the scroll is added after the bounds
    check. *)
Lemma scroll_not_reclamped_example :
  pos_top
    (calculateOptimalPosition Sample.debugOptions
       (Sample.box 790 20 100 40) (withScroll Sample.leftPanel 50 0)
       (Sample.spec (Some "top-left"%string))) = (800 - 24 + 50)%Z.
Proof. reflexivity. Qed.

Lemma unrecognized_placement_is_top_left_witness :
  ~ Spec.recognized (preferredPosition (Sample.spec (Some "middle"%string))) /\
  calculateOptimalPosition Sample.debugOptions Sample.button
    Sample.leftPanel (Sample.spec (Some "middle"%string)) =
  calculateOptimalPosition Sample.debugOptions Sample.button
    Sample.leftPanel
    (withPlacement (Sample.spec (Some "middle"%string))
       (Some "top-left"%string)).
Proof.
  assert (U : ~ Spec.recognized
                (preferredPosition (Sample.spec (Some "middle"%string)))).
  { intros [q Hq]. destruct q; simpl in Hq; discriminate. }
  split; [exact U |].
  exact (unrecognized_placement_is_top_left Sample.debugOptions
           Sample.button Sample.leftPanel
           (Sample.spec (Some "middle"%string)) U).
Defined.

(** A missing placement is unrecognized as well. *)
Lemma missing_placement_example :
  calculateOptimalPosition Sample.debugOptions Sample.button
    Sample.leftPanel (Sample.spec None) =
  calculateOptimalPosition Sample.debugOptions Sample.button
    Sample.leftPanel (Sample.spec (Some "top-left"%string)).
Proof. reflexivity. Qed.



End ResolverInstances.

(** ** Page names *)

Section PageName.

Import JsString.

Lemma split_nonempty (c : ascii) (s : string) : split c s <> [].
Proof.
  destruct s as [| a r]; simpl; [discriminate |].
  destruct (Ascii.eqb a c); [discriminate |].
  destruct (split c r); discriminate.
Qed.

Lemma split_lacks (c : ascii) (s : string) :
  lacks c s = true -> split c s = [s].
Proof.
  induction s as [| a r IH]; simpl; [reflexivity |].
  intros H. apply andb_prop in H as [Ha Hr].
  apply negb_true_iff in Ha. rewrite Ha, (IH Hr). reflexivity.
Qed.

Lemma last_cons_cons (x y : string) (l : list string) (d : string) :
  List.last (x :: y :: l) d = List.last (y :: l) d.
Proof. reflexivity. Qed.

(** After a separator, [split] starts over. *)
Lemma split_after_separator (c : ascii) (dir rest : string) :
  exists hd tl,
    split c (dir +:+ String c rest) = hd :: tl /\
    tl <> [] /\
    List.last tl EmptyString = List.last (split c rest) EmptyString.
Proof.
  induction dir as [| a d IH]; simpl.
  - rewrite Ascii.eqb_refl. exists EmptyString, (split c rest).
    split; [reflexivity |]. split; [apply split_nonempty | reflexivity].
  - destruct IH as (hd & tl & E & N & L).
    change (append d (String c rest)) with (d +:+ String c rest). 
    rewrite E.
    destruct (Ascii.eqb a c).
    + exists EmptyString, (hd :: tl). split; [reflexivity |].
      split; [discriminate |].
      destruct tl as [| y l]; [congruence |].
      rewrite last_cons_cons. exact L.
    + exists (String a hd), tl. auto.
Qed.

(** [path.split('/').pop()] is what follows the last slash. *)
Lemma pop_split (dir base : string) :
  lacks "/" base = true ->
  pop (split "/" (dir +:+ String "/" base)) = base.
Proof.
  intros H. unfold pop.
  destruct (split_after_separator "/" dir base) as (hd & tl & E & N & L).
  rewrite E. destruct tl as [| y l]; [congruence |].
  rewrite last_cons_cons, L, (split_lacks _ _ H). reflexivity.
Qed.

Lemma append_nil (s : string) : EmptyString +:+ s = s.
Proof. reflexivity. Qed.

Lemma append_cons (a : ascii) (r s : string) :
  String a r +:+ s = String a (r +:+ s).
Proof. reflexivity. Qed.

Lemma replace_cons (pat rep : string) (a : ascii) (s : string) :
  replace pat rep (String a s) =
  match strip_prefix pat (String a s) with
  | Some rest => rep +:+ rest
  | None => String a (replace pat rep s)
  end.
Proof. reflexivity. Qed.

Lemma lacks_cons (c a : ascii) (s : string) :
  lacks c (String a s) = true -> Ascii.eqb c a = false /\ lacks c s = true.
Proof.
  simpl. intros H. apply andb_prop in H as [Ha Hs].
  apply negb_true_iff in Ha. rewrite Ascii.eqb_sym. auto.
Qed.

(** Without a dot there is no [.html] to remove. *)
Lemma replace_html_absent (s : string) :
  lacks "." s = true -> replace ".html" EmptyString s = s.
Proof.
  induction s as [| a r IH]; [reflexivity |].
  intros H. apply lacks_cons in H as [Ha Hr].
  rewrite replace_cons. cbn [strip_prefix]. rewrite Ha, (IH Hr).
  reflexivity.
Qed.

Lemma replace_html_suffix (base : string) :
  lacks "." base = true ->
  replace ".html" EmptyString (base +:+ ".html") = base.
Proof.
  induction base as [| a r IH]; [reflexivity |].
  intros H. apply lacks_cons in H as [Ha Hr].
  change (String a r +:+ ".html") with (String a (r +:+ ".html")).
  rewrite replace_cons. cbn [strip_prefix]. rewrite Ha, (IH Hr).
  reflexivity.
Qed.

(** In [base ++ tail] with [base] free of dots, [_N.html] can only start
    in the last two characters of [base] or later. *)
Lemma strip_N_html_long (a b c : ascii) (r tail : string) :
  lacks "." (String a (String b (String c r))) = true ->
  strip_prefix "_N.html" (String a (String b (String c r)) +:+ tail) = None.
Proof.
  intros H. apply lacks_cons in H as [_ H].
  apply lacks_cons in H as [_ H]. apply lacks_cons in H as [Hc _].
  change (String a (String b (String c r)) +:+ tail)
    with (String a (String b (String c (r +:+ tail)))).
  cbn [strip_prefix].
  destruct (Ascii.eqb "_" a); [| reflexivity].
  destruct (Ascii.eqb "N" b); [| reflexivity].
  now rewrite Hc.
Qed.

Lemma replace_N_html_suffix (base : string) :
  lacks "." base = true ->
  replace "_N.html" EmptyString (base +:+ "_N.html") = base.
Proof.
  induction base as [| a r IH]; [reflexivity |].
  intros H. pose proof (lacks_cons _ _ _ H) as [Ha Hr].
  change (String a r +:+ "_N.html") with (String a (r +:+ "_N.html")).
  rewrite replace_cons, (IH Hr).
  assert (E : strip_prefix "_N.html" (String a (r +:+ "_N.html")) = None).
  { destruct r as [| b [| c r']].
    - rewrite ?append_cons, ?append_nil. cbn [strip_prefix].
      destruct (Ascii.eqb "_" a); reflexivity.
    - rewrite ?append_cons, ?append_nil. cbn [strip_prefix].
      destruct (Ascii.eqb "_" a); [| reflexivity].
      destruct (Ascii.eqb "N" b); reflexivity.
    - apply (strip_N_html_long a b c r' "_N.html" H). }
  rewrite E. reflexivity.
Qed.

Lemma replace_N_html_absent (base : string) :
  lacks "." base = true ->
  endsWith "_N" base = false ->
  replace "_N.html" EmptyString (base +:+ ".html") = base +:+ ".html".
Proof.
  induction base as [| a r IH]; [reflexivity |].
  intros H He. pose proof (lacks_cons _ _ _ H) as [Ha Hr].
  cbn [endsWith] in He. apply orb_false_iff in He as [Heq He].
  change (String a r +:+ ".html") with (String a (r +:+ ".html")).
  rewrite replace_cons, (IH Hr He).
  assert (E : strip_prefix "_N.html" (String a (r +:+ ".html")) = None).
  { destruct r as [| b [| c r']].
    - rewrite ?append_cons, ?append_nil. cbn [strip_prefix].
      destruct (Ascii.eqb "_" a); reflexivity.
    - rewrite ?append_cons, ?append_nil. cbn [strip_prefix].
      destruct (Ascii.eqb "_" a) eqn:E1; [| reflexivity].
      destruct (Ascii.eqb "N" b) eqn:E2; [| reflexivity].
      apply Ascii.eqb_eq in E1, E2. subst a b. discriminate Heq.
    - apply (strip_N_html_long a b c r' ".html" H). }
  rewrite E. reflexivity.
Qed.

Lemma lacks_append (c : ascii) (a b : string) :
  lacks c a = true -> lacks c b = true -> lacks c (a +:+ b) = true.
Proof.
  intros Ha Hb. induction a as [| x r IH]; [exact Hb |].
  simpl in *. apply andb_prop in Ha as [H1 H2].
  now rewrite H1, (IH H2).
Qed.

(** The specification's suffix test and suffix removal on [base ++ suf]. *)
Lemma endsWith_append (suf base : string) :
  endsWith suf (base +:+ suf) = true.
Proof.
  induction base as [| a r IH].
  - rewrite append_nil. destruct suf; cbn [endsWith];
      now rewrite String.eqb_refl.
  - rewrite append_cons. cbn [endsWith]. rewrite IH. apply orb_true_r.
Qed.

Lemma length_append (a b : string) :
  String.length (a +:+ b) = (String.length a + String.length b)%nat.
Proof. induction a as [| x r IH]; simpl; [reflexivity | now rewrite IH]. Qed.

Lemma substring_prefix (a b : string) :
  String.substring 0 (String.length a) (a +:+ b) = a.
Proof.
  induction a as [| x r IH].
  - destruct b; reflexivity.
  - rewrite append_cons. cbn [String.length String.substring].
    now rewrite IH.
Qed.

Lemma dropLast_append (base suf : string) :
  Spec.dropLast (String.length suf) (base +:+ suf) = base.
Proof.
  unfold Spec.dropLast. rewrite length_append.
  replace (String.length base + String.length suf - String.length suf)%nat
    with (String.length base) by lia.
  apply substring_prefix.
Qed.

Lemma endsWith_N_html_absent (base : string) :
  lacks "." base = true ->
  endsWith "_N" base = false ->
  endsWith "_N.html" (base +:+ ".html") = false.
Proof.
  induction base as [| a r IH]; [reflexivity |].
  intros H He. pose proof (lacks_cons _ _ _ H) as [Ha Hr].
  cbn [endsWith] in He. apply orb_false_iff in He as [Heq He].
  rewrite append_cons. cbn [endsWith]. rewrite (IH Hr He), orb_false_r.
  destruct r as [| b [| c r']].
  - rewrite append_nil. cbn [String.eqb].
    destruct (Ascii.eqb a "_"); reflexivity.
  - rewrite ?append_cons, ?append_nil. cbn [String.eqb].
    destruct (Ascii.eqb a "_") eqn:E1; [| reflexivity].
    destruct (Ascii.eqb b "N") eqn:E2; [| reflexivity].
    apply Ascii.eqb_eq in E1, E2. subst a b. discriminate Heq.
  - rewrite ?append_cons. cbn [String.eqb].
    apply lacks_cons in Hr as [_ Hr]. apply lacks_cons in Hr as [Hc _].
    rewrite Ascii.eqb_sym in Hc.
    destruct (Ascii.eqb a "_"); [| reflexivity].
    destruct (Ascii.eqb b "N"); [| reflexivity].
    now rewrite Hc.
Qed.

(** On such a path the specification's wording gives the same name. *)
Lemma pageIdentifier_of_plain_file_name (dir base suffix : string) :
  lacks "." base = true ->
  lacks "/" base = true ->
  suffix = "_N.html" \/ (suffix = ".html" /\ endsWith "_N" base = false) ->
  Spec.pageIdentifier (dir +:+ "/" +:+ base +:+ suffix) =
  replaceAll "-" " " base.
Proof.
  intros Hdot Hslash Hsuf. unfold Spec.pageIdentifier.
  change (dir +:+ "/" +:+ base +:+ suffix)
    with (dir +:+ String "/" (base +:+ suffix)).
  rewrite pop_split
    by (apply lacks_append; [exact Hslash |];
        destruct Hsuf as [-> | [-> _]]; reflexivity).
  destruct Hsuf as [-> | [-> He]].
  - rewrite endsWith_append.
    change 7%nat with (String.length "_N.html").
    now rewrite dropLast_append.
  - rewrite (endsWith_N_html_absent base Hdot He), endsWith_append.
    change 5%nat with (String.length ".html").
    now rewrite dropLast_append.
Qed.

(** C8 (as amended): the page name is the last '/'-separated segment of
    the path from which the first occurrence of [_N.html] and then the
    first occurrence of [.html] are removed, with every '-' replaced by
    a space. For a file name [base_N.html], or [base.html] with [base]
    not ending in [_N], where [base] contains no dot, that is [base]
    with every '-' replaced by a space, which is also what stripping the
    known suffix gives. *)
Theorem page_name_of_plain_file_name (document : Document)
    (dir base suffix : string) :
  lacks "." base = true ->
  lacks "/" base = true ->
  suffix = "_N.html" \/ (suffix = ".html" /\ endsWith "_N" base = false) ->
  pathname document = dir +:+ "/" +:+ base +:+ suffix ->
  getCurrentPageName document = replaceAll "-" " " base /\
  getCurrentPageName document = Spec.pageIdentifier (pathname document).
Proof.
  intros Hdot Hslash Hsuf Hpath.
  assert (E : getCurrentPageName document = replaceAll "-" " " base).
  { unfold getCurrentPageName. rewrite Hpath.
    change (dir +:+ "/" +:+ base +:+ suffix)
      with (dir +:+ String "/" (base +:+ suffix)).
    rewrite pop_split
      by (apply lacks_append; [exact Hslash |];
          destruct Hsuf as [-> | [-> _]]; reflexivity).
    destruct Hsuf as [-> | [-> He]].
    - rewrite (replace_N_html_suffix base Hdot).
      now rewrite (replace_html_absent base Hdot).
    - rewrite (replace_N_html_absent base Hdot He).
      now rewrite (replace_html_suffix base Hdot). }
  split; [exact E |].
  rewrite E, Hpath. symmetry.
  now apply pageIdentifier_of_plain_file_name.
Qed.

Lemma page_name_of_plain_file_name_witness :
  lacks "." "2-1-home" = true /\
  lacks "/" "2-1-home" = true /\
  pathname (Sample.document "/pages/2-1-home_N.html" [] None)
    = "/pages" +:+ "/" +:+ "2-1-home" +:+ "_N.html" /\
  getCurrentPageName (Sample.document "/pages/2-1-home_N.html" [] None)
    = "2 1 home" /\
  getCurrentPageName (Sample.document "/pages/2-1-home_N.html" [] None)
    = Spec.pageIdentifier
        (pathname (Sample.document "/pages/2-1-home_N.html" [] None)).
Proof.
  split; [reflexivity |]. split; [reflexivity |]. split; [reflexivity |].
  exact (page_name_of_plain_file_name
           (Sample.document "/pages/2-1-home_N.html" [] None)
           "/pages" "2-1-home" "_N.html"
           eq_refl eq_refl (or_introl eq_refl) eq_refl).
Defined.

(** The removal is not anchored at the end of the name: a [.html]
    inside the segment is removed, although the segment has no known
    suffix. *)
Lemma page_name_inner_html_counterexample :
  getCurrentPageName (Sample.document "/docs/guide.html.bak" [] None)
    = "guide.bak" /\
  Spec.pageIdentifier "/docs/guide.html.bak" = "guide.html.bak" /\
  getCurrentPageName (Sample.document "/docs/guide.html.bak" [] None)
    <> Spec.pageIdentifier
         (pathname (Sample.document "/docs/guide.html.bak" [] None)).
Proof. repeat split. discriminate. Qed.

(** The stand-alone script removes only [_N.html] and keeps the
    dashes. *)
Lemma legacy_page_key (document : Document) (dir base : string) :
  lacks "." base = true ->
  lacks "/" base = true ->
  pathname document = dir +:+ "/" +:+ base +:+ "_N.html" ->
  Legacy.currentPage document = base.
Proof.
  intros Hdot Hslash Hpath. unfold Legacy.currentPage. rewrite Hpath.
  change (dir +:+ "/" +:+ base +:+ "_N.html")
    with (dir +:+ String "/" (base +:+ "_N.html")).
  rewrite pop_split by (apply lacks_append; [exact Hslash | reflexivity]).
  apply (replace_N_html_suffix base Hdot).
Qed.

Lemma legacy_page_key_example :
  Legacy.currentPage (Sample.document "/pages/2-1-home_N.html" [] None)
    = "2-1-home" /\
  Spec.pageIdentifier "/pages/2-1-home_N.html" = "2 1 home".
Proof. split; reflexivity. Qed.

End PageName.

(** ** The update pass *)

Section UpdatePass.

Variable this : System.
Variable document : Document.

Lemma bind_run {A B} (m : M A) (k : A -> M B) (page : Page) :
  (m ≫= k) page =
  match m page with
  | (Normal a, page') => k a page'
  | (Throw e, page') => (Throw e, page')
  end.
Proof. reflexivity. Qed.

Lemma extend_nil (page : Page) : extend page [] [] = page.
Proof. destruct page. unfold extend. simpl. now rewrite !app_nil_r. Qed.

Lemma extend_extend (page : Page) (ms ms' : list Marker)
    (ls ls' : list string) :
  extend (extend page ms ls) ms' ls' = extend page (ms ++ ms') (ls ++ ls').
Proof. unfold extend. simpl. now rewrite !app_assoc. Qed.

Lemma log_run (message : string) (page : Page) :
  log this message page = (Normal tt, extend page [] (logLine this message)).
Proof.
  unfold log, logLine, extend.
  destruct (debugMode (options this)).
  - now rewrite app_nil_r.
  - destruct page. simpl. now rewrite !app_nil_r.
Qed.

(** One entry of the registry, with a panel at hand: no exception, one
    marker or none. *)
Lemma updateItem_run (p : Element) (item : MarkerSpec) (page : Page) :
  updateItem this document (Some p) item page =
  (Normal tt,
   extend page (itemMarkers this document p item)
     (itemLog this document p item)).
Proof.
  unfold updateItem, itemMarkers, itemLog.
  destruct (findElement document (selector item)) as [e |]; cbn [truthy].
  - cbn [invokeCalculateOptimalPosition]. rewrite bind_run.
    cbn [ret]. unfold createMarker. rewrite bind_run.
    cbn [appendChild]. rewrite log_run.
    unfold extend. cbn [markers console].
    now rewrite app_nil_r.
  - apply log_run.
Qed.

Lemma forEach_run (p : Element) (config : list MarkerSpec) (page : Page) :
  forEach config (updateItem this document (Some p)) page =
  (Normal tt,
   extend page (flat_map (itemMarkers this document p) config)
     (flat_map (itemLog this document p) config)).
Proof.
  revert page. induction config as [| item rest IH]; intros page.
  - cbn [forEach flat_map]. now rewrite extend_nil.
  - cbn [forEach flat_map]. rewrite bind_run, updateItem_run, IH.
    now rewrite extend_extend.
Qed.

(** The three ways a pass can end. *)
Lemma updateAllMarkers_unregistered (page : Page) :
  pageConfigs this !! getCurrentPageName document = None ->
  updateAllMarkers this document page =
  (Normal tt,
   extend page []
     (logLine this ("No configuration found for page: " +:+
                    getCurrentPageName document))).
Proof. intros H. unfold updateAllMarkers. rewrite H. apply log_run. Qed.

Lemma updateAllMarkers_no_panel (config : list MarkerSpec) (page : Page) :
  pageConfigs this !! getCurrentPageName document = Some config ->
  getLeftPanel document = None ->
  updateAllMarkers this document page =
  (Normal tt, extend page [] (logLine this "Left panel not found")).
Proof.
  intros H Hp. unfold updateAllMarkers. rewrite H, Hp. apply log_run.
Qed.

Lemma updateAllMarkers_run (config : list MarkerSpec) (p : Element)
    (page : Page) :
  pageConfigs this !! getCurrentPageName document = Some config ->
  getLeftPanel document = Some p ->
  updateAllMarkers this document page =
  (Normal tt,
   {| markers := flat_map (itemMarkers this document p) config;
      console := console page ++ flat_map (itemLog this document p) config |}).
Proof.
  intros H Hp. unfold updateAllMarkers. rewrite H, Hp. cbn [truthy negb].
  rewrite bind_run. cbn [clearExistingMarkers]. now rewrite forEach_run.
Qed.

Lemma updateAllMarkers_normal (page : Page) :
  fst (updateAllMarkers this document page) = Normal tt.
Proof.
  destruct (pageConfigs this !! getCurrentPageName document)
    as [config |] eqn:H.
  - destruct (getLeftPanel document) as [p |] eqn:Hp.
    + now rewrite (updateAllMarkers_run config p page H Hp).
    + now rewrite (updateAllMarkers_no_panel config page H Hp).
  - now rewrite (updateAllMarkers_unregistered page H).
Qed.

(** A missing anchor is skipped and the loop goes on with the next
    entry. *)
Lemma forEach_skips_missing (leftPanel : option Element) (item : MarkerSpec)
    (rest : list MarkerSpec) (page : Page) :
  findElement document (selector item) = None ->
  forEach (item :: rest) (updateItem this document leftPanel) page =
  forEach rest (updateItem this document leftPanel)
    (extend page []
       (logLine this
          ("Element not found: " +:+ showSelector (selector item)))).
Proof.
  intros H. cbn [forEach]. rewrite bind_run.
  unfold updateItem at 1. rewrite H. cbn [truthy].
  now rewrite log_run.
Qed.

(** What a pass leaves depends on the earlier page only where it does
    nothing. *)
Lemma pass_markers (page : Page) :
  markers (pageAfter (updateAllMarkers this document) page) =
  match pageConfigs this !! getCurrentPageName document,
        getLeftPanel document with
  | Some config, Some p => flat_map (itemMarkers this document p) config
  | _, _ => markers page
  end.
Proof.
  unfold pageAfter.
  destruct (pageConfigs this !! getCurrentPageName document)
    as [config |] eqn:H.
  - destruct (getLeftPanel document) as [p |] eqn:Hp.
    + now rewrite (updateAllMarkers_run config p page H Hp).
    + rewrite (updateAllMarkers_no_panel config page H Hp).
      cbn [snd extend markers]. apply app_nil_r.
  - rewrite (updateAllMarkers_unregistered page H).
    cbn [snd extend markers]. apply app_nil_r.
Qed.

End UpdatePass.

Section UpdatePassClaims.

Variable this : System.
Variable document : Document.

(** C6 (as amended): an unregistered page identifier, a missing
    container and a missing anchor element each make the update pass
    skip without an exception: the pass always completes normally; on an
    unregistered page and without a container it leaves the markers as
    they are (it renders none), and an entry whose anchor is missing is
    passed over while the loop goes on with the remaining entries. The
    skip is written to the console when [debugMode] is on and is silent
    otherwise. *)
Theorem update_pass_skips_without_exception (page : Page) :
  fst (updateAllMarkers this document page) = Normal tt /\
  (pageConfigs this !! getCurrentPageName document = None ->
   pageAfter (updateAllMarkers this document) page =
   extend page []
     (logLine this ("No configuration found for page: " +:+
                    getCurrentPageName document))) /\
  (forall config,
     pageConfigs this !! getCurrentPageName document = Some config ->
     getLeftPanel document = None ->
     pageAfter (updateAllMarkers this document) page =
     extend page [] (logLine this "Left panel not found")) /\
  (forall leftPanel item rest,
     findElement document (selector item) = None ->
     forEach (item :: rest) (updateItem this document leftPanel) page =
     forEach rest (updateItem this document leftPanel)
       (extend page []
          (logLine this
             ("Element not found: " +:+ showSelector (selector item))))).
Proof.
  split; [apply updateAllMarkers_normal |].
  split; [| split].
  - intros H. unfold pageAfter.
    now rewrite (updateAllMarkers_unregistered this document page H).
  - intros config H Hp. unfold pageAfter.
    now rewrite (updateAllMarkers_no_panel this document config page H Hp).
  - intros leftPanel item rest H. now apply forEach_skips_missing.
Qed.

(** With [debugMode] on, [log] writes its line. *)
Lemma logLine_debug (message : string) :
  debugMode (options this) = true ->
  logLine this message = ["[AdvancedMarkerSystem] " +:+ message].
Proof. intros H. unfold logLine. now rewrite H. Qed.


(** The markers of a completed pass do not depend on the page it
    started from. *)
Lemma update_pass_recreates (config : list MarkerSpec) (p : Element)
    (page : Page) :
  pageConfigs this !! getCurrentPageName document = Some config ->
  getLeftPanel document = Some p ->
  markers (pageAfter (updateAllMarkers this document) page) =
  flat_map (itemMarkers this document p) config.
Proof. intros H Hp. rewrite pass_markers. now rewrite H, Hp. Qed.

Lemma getLeftPanel_none :
  getLeftPanel document = None <->
  firstMatch document leftPanelSelectors = None /\ body document = None.
Proof.
  unfold getLeftPanel.
  destruct (firstMatch document leftPanelSelectors); split;
    try intros [? ?]; try split; congruence.
Qed.

End UpdatePassClaims.

(** ** Concrete passes *)

Section UpdatePassInstances.

(** A registered page with a panel: two markers, the missing banner is
    passed over. *)
Lemma home_page_pass :
  updateAllMarkers (Sample.homeSystem Sample.debugOptions)
    Sample.homeDocument emptyPage =
  (Normal tt,
   {| markers :=
        [ {| mk_container := Sample.leftPanel;
             mk_textContent := Some 1; mk_title := "profile";
             mk_top := 12; mk_left := 104; mk_size := 24 |};
          {| mk_container := Sample.leftPanel;
             mk_textContent := Some 3; mk_title := "마커 3";
             mk_top := 192; mk_left := 2; mk_size := 24 |} ];
      console :=
        [ "[AdvancedMarkerSystem] Created marker 1 at (12, 104) for: profile";
          "[AdvancedMarkerSystem] Element not found: .swiper-container";
          "[AdvancedMarkerSystem] Created marker 3 at (192, 2) for: undefined" ] |}).
Proof. vm_compute. reflexivity. Qed.

Lemma update_pass_skips_without_exception_witness :
  (* unregistered page *)
  (pageConfigs (Sample.system Sample.debugOptions "3 4 sell" [])
     !! getCurrentPageName Sample.homeDocument = None /\
   pageAfter
     (updateAllMarkers (Sample.system Sample.debugOptions "3 4 sell" [])
        Sample.homeDocument) emptyPage =
   {| markers := [];
      console :=
        ["[AdvancedMarkerSystem] No configuration found for page: 2 1 home"] |}) /\
  (* missing container *)
  (pageConfigs (Sample.homeSystem Sample.debugOptions)
     !! getCurrentPageName Sample.bareDocument = Some Sample.homeSpecs /\
   getLeftPanel Sample.bareDocument = None /\
   pageAfter
     (updateAllMarkers (Sample.homeSystem Sample.debugOptions)
        Sample.bareDocument) emptyPage =
   {| markers := [];
      console := ["[AdvancedMarkerSystem] Left panel not found"] |}) /\
  (* missing anchor *)
  (findElement Sample.homeDocument (selector Sample.banner) = None /\
   forEach [Sample.banner; Sample.section]
     (updateItem (Sample.homeSystem Sample.debugOptions)
        Sample.homeDocument (Some Sample.leftPanel)) emptyPage =
   forEach [Sample.section]
     (updateItem (Sample.homeSystem Sample.debugOptions)
        Sample.homeDocument (Some Sample.leftPanel))
     {| markers := [];
        console :=
          ["[AdvancedMarkerSystem] Element not found: .swiper-container"] |}).
Proof.
  split; [| split].
  - split; [vm_compute; reflexivity |].
    destruct (update_pass_skips_without_exception
                (Sample.system Sample.debugOptions "3 4 sell" [])
                Sample.homeDocument emptyPage) as (_ & H & _ & _).
    rewrite H; [reflexivity | vm_compute; reflexivity].
  - split; [vm_compute; reflexivity |]. split; [reflexivity |].
    destruct (update_pass_skips_without_exception
                (Sample.homeSystem Sample.debugOptions)
                Sample.bareDocument emptyPage) as (_ & _ & H & _).
    rewrite (H Sample.homeSpecs); [reflexivity | vm_compute; reflexivity | reflexivity].
  - split; [reflexivity |].
    destruct (update_pass_skips_without_exception
                (Sample.homeSystem Sample.debugOptions)
                Sample.homeDocument emptyPage) as (_ & _ & _ & H).
    rewrite (H (Some Sample.leftPanel) Sample.banner [Sample.section]);
      reflexivity.
Defined.

(** With [debugMode] off (the default of the constructor) the skip
    leaves no trace on the console. *)
Lemma silent_skip_counterexample :
  debugMode Sample.quietOptions = false /\
  pageConfigs (Sample.system Sample.quietOptions "3 4 sell" [])
    !! getCurrentPageName Sample.homeDocument = None /\
  updateAllMarkers (Sample.system Sample.quietOptions "3 4 sell" [])
    Sample.homeDocument emptyPage = (Normal tt, emptyPage) /\
  ~ (exists line,
       In line
         (console
            (pageAfter
               (updateAllMarkers
                  (Sample.system Sample.quietOptions "3 4 sell" [])
                  Sample.homeDocument) emptyPage))).
Proof.
  split; [reflexivity |]. split; [vm_compute; reflexivity |].
  split; [vm_compute; reflexivity |].
  intros [line H]. vm_compute in H. exact H.
Qed.

(** A document without a body in which no candidate selector matches:
    [getLeftPanel] returns [null] and the pass takes the
    'Left panel not found' branch. *)
Lemma left_panel_missing_counterexample :
  getLeftPanel Sample.bareDocument = None /\
  updateAllMarkers (Sample.homeSystem Sample.debugOptions)
    Sample.bareDocument emptyPage =
  (Normal tt,
   {| markers := [];
      console := ["[AdvancedMarkerSystem] Left panel not found"] |}).
Proof. split; [reflexivity | vm_compute; reflexivity]. Qed.

End UpdatePassInstances.

(** ** Resize and mutation events *)

Section Events.

Import EventLoop.

(** [debounce] builds the closure and schedules nothing. *)
Lemma debounce_schedules_nothing (f : Callback) (wait : nat) (st : Loop) :
  timers (snd (debounce f wait st)) = timers st /\
  passes (snd (debounce f wait st)) = passes st.
Proof. split; reflexivity. Qed.

Lemma onResize_idle (st : Loop) :
  timers (onResize st) = timers st /\ passes (onResize st) = passes st.
Proof. split; reflexivity. Qed.

Lemma onMutation_idle (st : Loop) :
  timers (onMutation st) = timers st /\ passes (onMutation st) = passes st.
Proof. split; reflexivity. Qed.

Lemma elapse_idle (ms : nat) (st : Loop) :
  timers st = [] ->
  timers (elapse ms st) = [] /\ passes (elapse ms st) = passes st.
Proof.
  revert st. induction ms as [| ms IH]; intros st H; [now split |].
  cbn [elapse].
  assert (T : timers (tick st) = [] /\ passes (tick st) = passes st).
  { unfold tick. cbn [timers]. rewrite H. now split. }
  destruct T as [T1 T2].
  destruct (IH (tick st) T1) as [I1 I2].
  split; [exact I1 | congruence].
Qed.

Lemma handle_idle (ev : Event) (st : Loop) :
  timers st = [] ->
  timers (handle st ev) = [] /\ passes (handle st ev) = passes st.
Proof.
  intros H. destruct ev as [| | ms]; cbn [handle].
  - destruct (onResize_idle st) as [T P]. split; congruence.
  - destruct (onMutation_idle st) as [T P]. split; congruence.
  - now apply elapse_idle.
Qed.

Lemma run_idle (evs : list Event) (st : Loop) :
  timers st = [] ->
  timers (run evs st) = [] /\ passes (run evs st) = passes st.
Proof.
  revert st. induction evs as [| ev evs IH]; intros st H; [now split |].
  cbn [run fold_left].
  destruct (handle_idle ev st H) as [T P].
  destruct (IH (handle st ev) T) as [T' P'].
  split; [exact T' | unfold run in P'; congruence].
Qed.

(** C7 (the code against the claim): whatever resize events, mutation
    events and delays follow [init], no timer is ever pending and
    [updateAllMarkers] is never called by them: the listeners call
    [debounce], which only builds a closure, and drop the closure
    without calling it. *)
Theorem resize_and_mutation_never_recompute (evs : list Event) :
  timers (run evs afterInit) = [] /\ passes (run evs afterInit) = 0%nat.
Proof. apply (run_idle evs afterInit). reflexivity. Qed.

(** The failing input: one resize event and 250 ms and more of quiet. *)
Lemma resize_then_wait_example :
  passes (run [Resize; Elapse 250; Elapse 1000] afterInit) = 0%nat /\
  passes (run [Mutation; Elapse 500; Elapse 1000] afterInit) = 0%nat.
Proof. split; vm_compute; reflexivity. Qed.

(** The closure does debounce when it is called: one call runs the
    function once, 250 ms later and not before. *)
Lemma debounced_call_example :
  let '(d, st) := debounce CallUpdateAllMarkers 250 afterInit in
  let st := executedFunction d st in
  passes (elapse 249 st) = 0%nat /\
  passes (elapse 250 st) = 1%nat /\
  passes (elapse 1000 st) = 1%nat.
Proof. vm_compute. repeat split. Qed.

(** A burst of calls of one closure is coalesced: one run, 250 ms after
    the last call. *)
Lemma debounced_burst_example :
  let '(d, st) := debounce CallUpdateAllMarkers 250 afterInit in
  let st := executedFunction d st in
  let st := elapse 100 st in
  let st := executedFunction d st in
  let st := elapse 100 st in
  let st := executedFunction d st in
  passes (elapse 249 st) = 0%nat /\
  passes (elapse 250 st) = 1%nat /\
  passes (elapse 1000 st) = 1%nat.
Proof. vm_compute. repeat split. Qed.

(** The stand-alone script recomputes on every resize event. *)
Lemma legacy_resize_recomputes (st : Loop) :
  passes (onResizeLegacy st) = S (passes st).
Proof. reflexivity. Qed.

End Events.


(** * Further properties of the code *)

(** ** The resolver: bounds, saturation, monotonicity, translation *)

From Stdlib Require Import Lqa.

Section ResolverGeometry.

Local Open Scope Q_scope.

Variable this : Options.

Lemma round_monotone (x y : Q) :
  x <= y -> (JsMath.round x <= JsMath.round y)%Z.
Proof.
  intros H. unfold JsMath.round. apply Qfloor_resp_le.
  now apply Qplus_le_l.
Qed.

Lemma min_monotone (x y hi : Q) :
  x <= y -> JsMath.min x hi <= JsMath.min y hi.
Proof.
  intros H. unfold JsMath.min.
  destruct (Qle_bool x hi) eqn:Ex, (Qle_bool y hi) eqn:Ey.
  - exact H.
  - now apply Qle_bool_iff.
  - apply Qle_bool_iff in Ey.
    assert (L : x <= hi) by (eapply Qle_trans; eassumption).
    apply Qle_bool_iff in L. congruence.
  - apply Qle_refl.
Qed.

Lemma max_monotone (lo x y : Q) :
  x <= y -> JsMath.max lo x <= JsMath.max lo y.
Proof.
  intros H. apply max_upper; [apply max_lower |].
  eapply Qle_trans; [exact H | apply max_lower_r].
Qed.

Lemma clamp_monotone (x y hi : Q) :
  x <= y ->
  JsMath.max 0 (JsMath.min x hi) <= JsMath.max 0 (JsMath.min y hi).
Proof. intros H. now apply max_monotone, min_monotone. Qed.

(** Below the range the clamp gives 0, above it the upper bound. *)
Lemma clamp_low (x hi : Q) :
  x <= 0 -> JsMath.max 0 (JsMath.min x hi) == 0.
Proof.
  intros H. apply Qle_antisym; [| apply max_lower].
  apply max_upper; [apply Qle_refl |].
  unfold JsMath.min. destruct (Qle_bool x hi) eqn:E; [exact H |].
  apply Qlt_le_weak. apply Qlt_le_trans with x; [| exact H].
  apply Qnot_le_lt. intros L. apply Qle_bool_iff in L. congruence.
Qed.

Lemma clamp_high (x hi : Q) :
  0 <= hi -> hi <= x -> JsMath.max 0 (JsMath.min x hi) == hi.
Proof.
  intros H0 H. apply Qle_antisym.
  - apply max_upper; [exact H0 | apply min_upper].
  - eapply Qle_trans; [| apply max_lower_r].
    unfold JsMath.min. destruct (Qle_bool x hi); [exact H | apply Qle_refl].
Qed.

(** The rounded clamp, shifted by an integer, stays between the shift and
    the shift plus the integer bound. *)
Lemma rounded_clamp_bounds (x hi : Q) (B s : Z) :
  hi <= inject_Z B -> (0 <= B)%Z ->
  (s <= JsMath.round (JsMath.max 0 (JsMath.min x hi) + inject_Z s)
   <= s + B)%Z.
Proof.
  intros Hhi HB. rewrite round_shift. split.
  - assert (L : (JsMath.round 0 <= JsMath.round (JsMath.max 0 (JsMath.min x hi)))%Z)
      by (apply round_monotone, max_lower).
    change (JsMath.round 0) with 0%Z in L. lia.
  - assert (L : (JsMath.round (JsMath.max 0 (JsMath.min x hi))
                 <= JsMath.round (inject_Z B))%Z).
    { apply round_monotone, max_upper.
      - change 0 with (inject_Z 0). rewrite <- Zle_Qle. exact HB.
      - eapply Qle_trans; [apply min_upper | exact Hhi]. }
    rewrite round_integer in L. lia.
Qed.

(** X1: with an integer marker size and integer scroll offsets, the
    rounded result lies between the scroll offset and the scroll offset
    plus [max 0 (panel size - markerSize)], on both axes, whatever the
    element, the placement and the offset are. *)
Theorem result_within_scrolled_panel (element leftPanel : Element)
    (config : MarkerSpec) (m st sl : Z) :
  markerSize this == inject_Z m ->
  scrollTop leftPanel == inject_Z st ->
  scrollLeft leftPanel == inject_Z sl ->
  let r := calculateOptimalPosition this element leftPanel config in
  (st <= pos_top r <= st + Z.max 0 (offsetHeight leftPanel - m))%Z /\
  (sl <= pos_left r <= sl + Z.max 0 (offsetWidth leftPanel - m))%Z.
Proof.
  intros Hm Hst Hsl. cbv zeta.
  rewrite calculateOptimalPosition_unfold, clampedPosition_unfold.
  cbn [fst snd pos_top pos_left].
  rewrite (round_proper _ _ (Qplus_comp _ _ (Qeq_refl _) _ _ Hst)).
  rewrite (round_proper (_ + scrollLeft leftPanel) _
             (Qplus_comp _ _ (Qeq_refl _) _ _ Hsl)).
  split; apply rounded_clamp_bounds; try lia.
  - rewrite Hm. unfold Qminus. rewrite <- inject_Z_opp, <- inject_Z_plus.
    rewrite <- Zle_Qle. lia.
  - rewrite Hm. unfold Qminus. rewrite <- inject_Z_opp, <- inject_Z_plus.
    rewrite <- Zle_Qle. lia.
Qed.

(** X2: on each axis, an anchor whose adjusted position is at or before
    the panel's origin is pinned to the origin (the result is the rounded
    scroll offset of that axis); one at or beyond
    [panel size - markerSize] is pinned to that bound when the marker
    fits into the panel. *)
Theorem result_saturates_at_the_edges (element leftPanel : Element)
    (config : MarkerSpec) :
  let adjusted := adjustedPosition this element leftPanel config in
  let r := calculateOptimalPosition this element leftPanel config in
  let hi := inject_Z (offsetHeight leftPanel) - markerSize this in
  let wi := inject_Z (offsetWidth leftPanel) - markerSize this in
  (fst adjusted <= 0 -> pos_top r = JsMath.round (scrollTop leftPanel)) /\
  (0 <= hi -> hi <= fst adjusted ->
   pos_top r = JsMath.round (hi + scrollTop leftPanel)) /\
  (snd adjusted <= 0 -> pos_left r = JsMath.round (scrollLeft leftPanel)) /\
  (0 <= wi -> wi <= snd adjusted ->
   pos_left r = JsMath.round (wi + scrollLeft leftPanel)).
Proof.
  cbv zeta. rewrite calculateOptimalPosition_unfold, clampedPosition_unfold.
  cbn [fst snd pos_top pos_left]. split; [| split; [| split]].
  - intros H. apply round_proper. rewrite (clamp_low _ _ H). ring.
  - intros H0 H. apply round_proper. now rewrite (clamp_high _ _ H0 H).
  - intros H. apply round_proper. rewrite (clamp_low _ _ H). ring.
  - intros H0 H. apply round_proper. now rewrite (clamp_high _ _ H0 H).
Qed.

(** The adjustment depends on the two rectangles only through the
    element's size and the difference of the origins. *)
Lemma adjusted_difference (e e' p p' : Element) (config : MarkerSpec) :
  rect_width (getBoundingClientRect e') = rect_width (getBoundingClientRect e) ->
  rect_height (getBoundingClientRect e') = rect_height (getBoundingClientRect e) ->
  fst (adjustedPosition this e' p' config)
    - fst (adjustedPosition this e p config)
  == (rect_top (getBoundingClientRect e') - rect_top (getBoundingClientRect p'))
     - (rect_top (getBoundingClientRect e) - rect_top (getBoundingClientRect p)) /\
  snd (adjustedPosition this e' p' config)
    - snd (adjustedPosition this e p config)
  == (rect_left (getBoundingClientRect e') - rect_left (getBoundingClientRect p'))
     - (rect_left (getBoundingClientRect e) - rect_left (getBoundingClientRect p)).
Proof.
  intros Hw Hh. unfold adjustedPosition. rewrite Hw, Hh.
  repeat match goal with
         | |- context [if ?b then _ else _] => destruct b
         end; cbn [fst snd]; split; ring.
Qed.

(** X3: moving the anchor down or right never moves its marker up or
    left: both result components are monotone in the element's
    position. *)
Theorem result_monotone_in_position (element leftPanel : Element)
    (config : MarkerSpec) (dy dx : Q) :
  0 <= dy -> 0 <= dx ->
  let r := calculateOptimalPosition this element leftPanel config in
  let r' := calculateOptimalPosition this (moved element dy dx) leftPanel
              config in
  (pos_top r <= pos_top r')%Z /\ (pos_left r <= pos_left r')%Z.
Proof.
  intros Hy Hx. cbv zeta.
  destruct (adjusted_difference element (moved element dy dx)
              leftPanel leftPanel config eq_refl eq_refl) as [Dt Dl].
  cbn [moved getBoundingClientRect rect_top rect_left] in Dt, Dl.
  rewrite !calculateOptimalPosition_unfold, !clampedPosition_unfold.
  cbn [fst snd pos_top pos_left].
  split; apply round_monotone; apply Qplus_le_l; apply clamp_monotone; lra.
Qed.

(** X4: the result depends on the viewport position of anchor and panel
    only through their difference: moving both by the same amount, as
    scrolling the page does, leaves the marker where it is. *)
Theorem result_invariant_under_page_scroll (element leftPanel : Element)
    (config : MarkerSpec) (dy dx : Q) :
  calculateOptimalPosition this (moved element dy dx)
    (moved leftPanel dy dx) config =
  calculateOptimalPosition this element leftPanel config.
Proof.
  destruct (adjusted_difference element (moved element dy dx)
              leftPanel (moved leftPanel dy dx) config eq_refl eq_refl)
    as [Dt Dl].
  cbn [moved getBoundingClientRect rect_top rect_left] in Dt, Dl.
  rewrite !calculateOptimalPosition_unfold, !clampedPosition_unfold.
  cbn [fst snd moved offsetHeight offsetWidth scrollTop scrollLeft].
  f_equal; apply round_proper; apply Qplus_comp; try reflexivity;
    apply clamp_proper; lra.
Qed.

End ResolverGeometry.

Section ResolverGeometryInstances.

Local Open Scope Q_scope.

Lemma result_within_scrolled_panel_witness :
  markerSize Sample.debugOptions == inject_Z 24 /\
  scrollTop (withScroll Sample.shortPanel 50 0) == inject_Z 50 /\
  scrollLeft (withScroll Sample.shortPanel 50 0) == inject_Z 0 /\
  (50 <= pos_top
           (calculateOptimalPosition Sample.debugOptions Sample.button
              (withScroll Sample.shortPanel 50 0)
              (Sample.spec (Some "bottom-right"%string)))
      <= 50 + Z.max 0 (20 - 24))%Z /\
  (0 <= pos_left
          (calculateOptimalPosition Sample.debugOptions Sample.button
             (withScroll Sample.shortPanel 50 0)
             (Sample.spec (Some "bottom-right"%string)))
     <= 0 + Z.max 0 (300 - 24))%Z.
Proof.
  split; [reflexivity |]. split; [reflexivity |]. split; [reflexivity |].
  exact (result_within_scrolled_panel Sample.debugOptions Sample.button
           (withScroll Sample.shortPanel 50 0)
           (Sample.spec (Some "bottom-right"%string)) 24 50 0
           (Qeq_refl _) (Qeq_refl _) (Qeq_refl _)).
Defined.

Lemma result_saturates_at_the_edges_witness :
  (* the badge is 10px above and left of the inset panel *)
  (fst (adjustedPosition Sample.debugOptions Sample.badge Sample.insetPanel
          (Sample.spec (Some "center"%string))) <= 0 /\
   snd (adjustedPosition Sample.debugOptions Sample.badge Sample.insetPanel
          (Sample.spec (Some "center"%string))) <= 0 /\
   calculateOptimalPosition Sample.debugOptions Sample.badge
     Sample.insetPanel (Sample.spec (Some "center"%string))
   = {| pos_top := JsMath.round (scrollTop Sample.insetPanel);
        pos_left := JsMath.round (scrollLeft Sample.insetPanel) |}) /\
  (* an anchor 1000px down and 600px right in a panel of 400 x 800 *)
  (0 <= inject_Z (offsetHeight Sample.leftPanel)
        - markerSize Sample.debugOptions /\
   inject_Z (offsetHeight Sample.leftPanel) - markerSize Sample.debugOptions
   <= fst (adjustedPosition Sample.debugOptions (Sample.box 1000 600 100 40)
             Sample.leftPanel (Sample.spec None)) /\
   0 <= inject_Z (offsetWidth Sample.leftPanel)
        - markerSize Sample.debugOptions /\
   inject_Z (offsetWidth Sample.leftPanel) - markerSize Sample.debugOptions
   <= snd (adjustedPosition Sample.debugOptions (Sample.box 1000 600 100 40)
             Sample.leftPanel (Sample.spec None)) /\
   calculateOptimalPosition Sample.debugOptions
     (Sample.box 1000 600 100 40) Sample.leftPanel (Sample.spec None)
   = {| pos_top := 776; pos_left := 376 |}).
Proof.
  split.
  - assert (Ht : fst (adjustedPosition Sample.debugOptions Sample.badge
                        Sample.insetPanel (Sample.spec (Some "center"%string)))
                 <= 0) by (apply Qle_bool_iff; reflexivity).
    assert (Hl : snd (adjustedPosition Sample.debugOptions Sample.badge
                        Sample.insetPanel (Sample.spec (Some "center"%string)))
                 <= 0) by (apply Qle_bool_iff; reflexivity).
    split; [exact Ht |]. split; [exact Hl |].
    destruct (result_saturates_at_the_edges Sample.debugOptions
                Sample.badge Sample.insetPanel
                (Sample.spec (Some "center"%string))) as (T & _ & L & _).
    rewrite <- (T Ht), <- (L Hl).
    now destruct (calculateOptimalPosition _ _ _ _).
  - assert (H0 : 0 <= inject_Z (offsetHeight Sample.leftPanel)
                      - markerSize Sample.debugOptions)
      by (apply Qle_bool_iff; reflexivity).
    assert (H1 : inject_Z (offsetHeight Sample.leftPanel)
                 - markerSize Sample.debugOptions
                 <= fst (adjustedPosition Sample.debugOptions
                           (Sample.box 1000 600 100 40) Sample.leftPanel
                           (Sample.spec None)))
      by (apply Qle_bool_iff; reflexivity).
    assert (W0 : 0 <= inject_Z (offsetWidth Sample.leftPanel)
                      - markerSize Sample.debugOptions)
      by (apply Qle_bool_iff; reflexivity).
    assert (W1 : inject_Z (offsetWidth Sample.leftPanel)
                 - markerSize Sample.debugOptions
                 <= snd (adjustedPosition Sample.debugOptions
                           (Sample.box 1000 600 100 40) Sample.leftPanel
                           (Sample.spec None)))
      by (apply Qle_bool_iff; reflexivity).
    split; [exact H0 |]. split; [exact H1 |].
    split; [exact W0 |]. split; [exact W1 |].
    destruct (result_saturates_at_the_edges Sample.debugOptions
                (Sample.box 1000 600 100 40) Sample.leftPanel
                (Sample.spec None)) as (_ & T & _ & L).
    specialize (T H0 H1). specialize (L W0 W1).
    destruct (calculateOptimalPosition _ _ _ _) as [t l].
    cbn [pos_top pos_left] in T, L. rewrite T, L. reflexivity.
Defined.

Lemma result_monotone_in_position_witness :
  0 <= 7 # 2 /\ 0 <= 3 /\
  (pos_top (calculateOptimalPosition Sample.debugOptions Sample.button
              Sample.leftPanel (Sample.spec (Some "center"%string)))
   <= pos_top (calculateOptimalPosition Sample.debugOptions
                 (moved Sample.button (7 # 2) 3) Sample.leftPanel
                 (Sample.spec (Some "center"%string))))%Z /\
  (pos_left (calculateOptimalPosition Sample.debugOptions Sample.button
               Sample.leftPanel (Sample.spec (Some "center"%string)))
   <= pos_left (calculateOptimalPosition Sample.debugOptions
                  (moved Sample.button (7 # 2) 3) Sample.leftPanel
                  (Sample.spec (Some "center"%string))))%Z.
Proof.
  assert (Hy : 0 <= 7 # 2) by (apply Qle_bool_iff; reflexivity).
  assert (Hx : 0 <= 3) by (apply Qle_bool_iff; reflexivity).
  split; [exact Hy |]. split; [exact Hx |].
  exact (result_monotone_in_position Sample.debugOptions Sample.button
           Sample.leftPanel (Sample.spec (Some "center"%string))
           (7 # 2) 3 Hy Hx).
Defined.

End ResolverGeometryInstances.

(** ** Page names: characters, directories, the stand-alone key *)

Section PageNameShape.

Import JsString.

Lemma replace_unfold (pat rep s : string) :
  replace pat rep s =
  match strip_prefix pat s with
  | Some rest => rep +:+ rest
  | None =>
      match s with
      | EmptyString => EmptyString
      | String a s' => String a (replace pat rep s')
      end
  end.
Proof. destruct s; reflexivity. Qed.

Lemma strip_prefix_lacks (c : ascii) (pat s r : string) :
  strip_prefix pat s = Some r -> lacks c s = true -> lacks c r = true.
Proof.
  revert s. induction pat as [| a pat IH]; intros s H L.
  - destruct s; simpl in H; congruence.
  - destruct s as [| b s]; [discriminate |].
    simpl in H. destruct (Ascii.eqb a b); [| discriminate].
    simpl in L. apply andb_prop in L as [_ L]. now apply (IH s).
Qed.

(** Removing an occurrence brings in no new character. *)
Lemma replace_empty_lacks (c : ascii) (pat s : string) :
  lacks c s = true -> lacks c (replace pat EmptyString s) = true.
Proof.
  induction s as [| a s IH]; intros L; rewrite replace_unfold.
  - destruct (strip_prefix pat EmptyString) as [r |] eqn:E; [| reflexivity].
    rewrite append_nil. now apply (strip_prefix_lacks c pat EmptyString r).
  - destruct (strip_prefix pat (String a s)) as [r |] eqn:E.
    + rewrite append_nil. now apply (strip_prefix_lacks c pat (String a s) r).
    + simpl in *. apply andb_prop in L as [L1 L2].
      now rewrite L1, (IH L2).
Qed.

Lemma replaceAll_removes (c d : ascii) (s : string) :
  Ascii.eqb d c = false -> lacks c (replaceAll c d s) = true.
Proof.
  intros N. induction s as [| a s IH]; [reflexivity |].
  simpl. rewrite IH, andb_true_r.
  destruct (Ascii.eqb a c) eqn:E; [now rewrite N | now rewrite E].
Qed.

Lemma replaceAll_lacks (x c d : ascii) (s : string) :
  Ascii.eqb d x = false -> lacks x s = true ->
  lacks x (replaceAll c d s) = true.
Proof.
  intros N. induction s as [| a s IH]; [reflexivity |].
  simpl. intros L. apply andb_prop in L as [L1 L2].
  rewrite (IH L2), andb_true_r.
  destruct (Ascii.eqb a c); [now rewrite N | exact L1].
Qed.

(** No entry of [s.split(c)] contains [c]. *)
Lemma split_lack_separator (c : ascii) (s : string) :
  Forall (fun seg => lacks c seg = true) (split c s).
Proof.
  induction s as [| a s IH]; simpl.
  - constructor; [reflexivity | constructor].
  - destruct (Ascii.eqb a c) eqn:E.
    + constructor; [reflexivity | exact IH].
    + destruct (split c s) as [| hd tl].
      * constructor; [| constructor]. simpl. now rewrite E.
      * inversion IH as [| ? ? Hhd Htl]; subst.
        constructor; [| exact Htl]. simpl. now rewrite E, Hhd.
Qed.

Lemma pop_lacks (c : ascii) (s : string) : lacks c (pop (split c s)) = true.
Proof.
  unfold pop. pose proof (split_lack_separator c s) as F.
  induction F as [| x l Hx F IH]; [reflexivity |].
  destruct l; [exact Hx | exact IH].
Qed.

(** X5: whatever the path is, the page name contains neither '-' nor
    '/'; a registry key that contains one of them is never the current
    page. *)
Theorem page_name_has_no_dash_or_slash (document : Document) :
  lacks "-" (getCurrentPageName document) = true /\
  lacks "/" (getCurrentPageName document) = true /\
  (forall key : string,
     lacks "-" key = false \/ lacks "/" key = false ->
     getCurrentPageName document <> key).
Proof.
  assert (D : lacks "-" (getCurrentPageName document) = true)
    by (apply replaceAll_removes; reflexivity).
  assert (S : lacks "/" (getCurrentPageName document) = true).
  { unfold getCurrentPageName. apply replaceAll_lacks; [reflexivity |].
    apply replace_empty_lacks, replace_empty_lacks, pop_lacks. }
  split; [exact D |]. split; [exact S |].
  intros key [H | H] E; rewrite E in *; congruence.
Qed.

(** X6: for a path that ends in '/', a directory, both the page name and
    the stand-alone script's key are the empty string. *)
Theorem page_name_of_directory (document : Document) (dir : string) :
  pathname document = dir +:+ "/" ->
  getCurrentPageName document = EmptyString /\
  Legacy.currentPage document = EmptyString.
Proof.
  intros H. unfold getCurrentPageName, Legacy.currentPage. rewrite H.
  change (dir +:+ "/") with (dir +:+ String "/" EmptyString).
  rewrite (pop_split dir EmptyString eq_refl). split; reflexivity.
Qed.

(** X7: the stand-alone script removes only [_N.html]: for a file name
    [base.html] (no dot in [base], [base] not ending in [_N]) its key
    keeps the extension and the dashes, while the class's page name drops
    both. *)
Theorem legacy_key_keeps_plain_extension (document : Document)
    (dir base : string) :
  lacks "." base = true ->
  lacks "/" base = true ->
  endsWith "_N" base = false ->
  pathname document = dir +:+ "/" +:+ base +:+ ".html" ->
  Legacy.currentPage document = base +:+ ".html" /\
  getCurrentPageName document = replaceAll "-" " " base.
Proof.
  intros Hdot Hslash He Hpath.
  unfold Legacy.currentPage, getCurrentPageName. rewrite Hpath.
  change (dir +:+ "/" +:+ base +:+ ".html")
    with (dir +:+ String "/" (base +:+ ".html")).
  rewrite pop_split by (apply lacks_append; [exact Hslash | reflexivity]).
  rewrite (replace_N_html_absent base Hdot He).
  split; [reflexivity |].
  now rewrite (replace_html_suffix base Hdot).
Qed.

Lemma page_name_has_no_dash_or_slash_witness :
  lacks "-" "2-1-home" = false /\
  getCurrentPageName Sample.homeDocument <> "2-1-home".
Proof.
  split; [reflexivity |].
  exact (proj2 (proj2 (page_name_has_no_dash_or_slash Sample.homeDocument))
           "2-1-home" (or_introl eq_refl)).
Defined.

Lemma page_name_of_directory_witness :
  pathname (Sample.document "/pages/" [] None) = "/pages" +:+ "/" /\
  getCurrentPageName (Sample.document "/pages/" [] None) = EmptyString /\
  Legacy.currentPage (Sample.document "/pages/" [] None) = EmptyString.
Proof.
  split; [reflexivity |].
  exact (page_name_of_directory (Sample.document "/pages/" [] None)
           "/pages" eq_refl).
Defined.

Lemma legacy_key_keeps_plain_extension_witness :
  lacks "." "2-1-home" = true /\
  lacks "/" "2-1-home" = true /\
  endsWith "_N" "2-1-home" = false /\
  Legacy.currentPage (Sample.document "/pages/2-1-home.html" [] None)
    = "2-1-home.html" /\
  getCurrentPageName (Sample.document "/pages/2-1-home.html" [] None)
    = "2 1 home".
Proof.
  split; [reflexivity |]. split; [reflexivity |]. split; [reflexivity |].
  exact (legacy_key_keeps_plain_extension
           (Sample.document "/pages/2-1-home.html" [] None)
           "/pages" "2-1-home" eq_refl eq_refl eq_refl eq_refl).
Defined.

End PageNameShape.

(** ** Selector lists and what a pass renders *)

Section Rendering.

Variable this : System.
Variable document : Document.

Lemma firstMatch_app_miss (before rest : list string) :
  Forall (fun sel => querySelector document sel = None) before ->
  firstMatch document (before ++ rest) = firstMatch document rest.
Proof.
  induction 1 as [| sel l H _ IH]; [reflexivity |].
  cbn [app firstMatch]. now rewrite H.
Qed.

(** X8: for an array of selectors the first one that matches decides:
    entries after it are not consulted, and the result is [null] exactly
    when no entry matches. *)
Theorem findElement_first_match_wins (before after : list string)
    (s : string) (e : Element) (selectors : list string) :
  (Forall (fun sel => querySelector document sel = None) before ->
   querySelector document s = Some e ->
   findElement document (SelArray (before ++ s :: after)) = Some e) /\
  (findElement document (SelArray selectors) = None <->
   Forall (fun sel => querySelector document sel = None) selectors).
Proof.
  split.
  - intros Hb Hs. cbn [findElement]. rewrite (firstMatch_app_miss _ _ Hb).
    cbn [firstMatch]. now rewrite Hs.
  - cbn [findElement]. induction selectors as [| sel l IH].
    + split; [constructor | reflexivity].
    + cbn [firstMatch].
      destruct (querySelector document sel) as [x |] eqn:E.
      * split; [discriminate |]. intros F. inversion F; congruence.
      * rewrite IH. split; [now constructor |].
        intros F. now inversion F.
Qed.

Lemma itemMarkers_shape (p : Element) (item : MarkerSpec) :
  map mk_textContent (itemMarkers this document p item) =
    (if anchored document item then [number item] else []) /\
  Forall (fun m => mk_container m = p /\
                   mk_size m = markerSize (options this))
    (itemMarkers this document p item).
Proof.
  unfold itemMarkers, anchored.
  destruct (findElement document (selector item)); cbn [truthy map].
  - split; [reflexivity |]. constructor; [now split | constructor].
  - split; [reflexivity | constructor].
Qed.

Lemma rendered_shape (p : Element) (config : list MarkerSpec) :
  map mk_textContent (flat_map (itemMarkers this document p) config) =
    map number (List.filter (anchored document) config) /\
  Forall (fun m => mk_container m = p /\
                   mk_size m = markerSize (options this))
    (flat_map (itemMarkers this document p) config).
Proof.
  induction config as [| item rest [IHt IHf]]; [split; [reflexivity | constructor] |].
  destruct (itemMarkers_shape p item) as [Ht Hf].
  cbn [flat_map List.filter]. rewrite map_app, Ht, IHt. split.
  - now destruct (anchored document item).
  - apply Forall_app. now split.
Qed.

Lemma itemLog_length (p : Element) (item : MarkerSpec) :
  length (itemLog this document p item) =
  if debugMode (options this) then 1%nat else 0%nat.
Proof.
  unfold itemLog, logLine.
  destruct (findElement document (selector item));
    now destruct (debugMode (options this)).
Qed.

Lemma passLog_length (p : Element) (config : list MarkerSpec) :
  length (flat_map (itemLog this document p) config) =
  if debugMode (options this) then length config else 0%nat.
Proof.
  induction config as [| item rest IH]; [now destruct (debugMode _) |].
  cbn [flat_map]. rewrite length_app, IH, itemLog_length.
  now destruct (debugMode (options this)).
Qed.

(** X10: a pass never removes or rewrites a console line, it only appends:
    nothing when [debugMode] is off, one line when it skips the whole
    page, and one line per registry entry when it runs. *)
Theorem pass_only_appends_to_console (page : Page) :
  exists lines : list string,
    console (pageAfter (updateAllMarkers this document) page)
      = (console page ++ lines)%list /\
    (debugMode (options this) = false -> lines = []) /\
    (debugMode (options this) = true ->
     length lines =
     match pageConfigs this !! getCurrentPageName document,
           getLeftPanel document with
     | Some config, Some _ => length config
     | _, _ => 1%nat
     end).
Proof.
  unfold pageAfter.
  destruct (pageConfigs this !! getCurrentPageName document)
    as [config |] eqn:H.
  - destruct (getLeftPanel document) as [p |] eqn:Hp.
    + rewrite (updateAllMarkers_run this document config p page H Hp).
      exists (flat_map (itemLog this document p) config).
      split; [reflexivity |].
      pose proof (passLog_length p config) as L.
      split; intros D; rewrite D in L; [| exact L].
      now apply length_zero_iff_nil.
    + rewrite (updateAllMarkers_no_panel this document config page H Hp).
      exists (logLine this "Left panel not found").
      split; [reflexivity |]. unfold logLine.
      split; intros D; now rewrite D.
    - rewrite (updateAllMarkers_unregistered this document page H).
      eexists. split; [reflexivity |]. unfold logLine.
      split; intros D; now rewrite D.
Qed.

(** X11: an empty list of entries is not the same as no registration: a
    pass over a page registered with no entries removes every marker and
    writes nothing, while a pass over an unregistered page leaves the
    markers that are there. *)
Theorem empty_registration_clears_markers (p : Element) (page : Page) :
  getLeftPanel document = Some p ->
  (pageConfigs this !! getCurrentPageName document = Some [] ->
   pageAfter (updateAllMarkers this document) page =
   {| markers := []; console := console page |}) /\
  (pageConfigs this !! getCurrentPageName document = None ->
   markers (pageAfter (updateAllMarkers this document) page) = markers page).
Proof.
  intros Hp. split; intros H; unfold pageAfter.
  - rewrite (updateAllMarkers_run this document [] p page H Hp).
    cbn [snd flat_map]. now rewrite app_nil_r.
  - rewrite (updateAllMarkers_unregistered this document page H).
    cbn [snd extend markers]. apply app_nil_r.
Qed.

End Rendering.

Section RenderingInstances.

Lemma findElement_first_match_wins_witness :
  Forall (fun sel => querySelector Sample.homeDocument sel = None)
    [".my-clubs"] /\
  querySelector Sample.homeDocument ".bg-gradient-to-br"
    = Some (Sample.box 200 10 380 120) /\
  findElement Sample.homeDocument
    (SelArray ([".my-clubs"] ++ ".bg-gradient-to-br" :: [".left-panel"]))
    = Some (Sample.box 200 10 380 120).
Proof.
  assert (F : Forall (fun sel => querySelector Sample.homeDocument sel = None)
                [".my-clubs"]) by (constructor; [reflexivity | constructor]).
  split; [exact F |]. split; [reflexivity |].
  exact (proj1 (findElement_first_match_wins Sample.homeDocument
                  [".my-clubs"] [".left-panel"] ".bg-gradient-to-br"
                  (Sample.box 200 10 380 120) [])
           F eq_refl).
Defined.

Lemma empty_registration_clears_markers_witness :
  getLeftPanel Sample.homeDocument = Some Sample.leftPanel /\
  pageConfigs (Sample.system Sample.debugOptions "2 1 home" [])
    !! getCurrentPageName Sample.homeDocument = Some [] /\
  pageAfter
    (updateAllMarkers (Sample.system Sample.debugOptions "2 1 home" [])
       Sample.homeDocument)
    (pageAfter
       (updateAllMarkers (Sample.homeSystem Sample.debugOptions)
          Sample.homeDocument) emptyPage)
  = {| markers := [];
       console :=
         console
           (pageAfter
              (updateAllMarkers (Sample.homeSystem Sample.debugOptions)
                 Sample.homeDocument) emptyPage) |}.
Proof.
  split; [reflexivity |].
  assert (H : pageConfigs (Sample.system Sample.debugOptions "2 1 home" [])
                !! getCurrentPageName Sample.homeDocument = Some [])
    by (vm_compute; reflexivity).
  split; [exact H |].
  exact (proj1 (empty_registration_clears_markers
                  (Sample.system Sample.debugOptions "2 1 home" [])
                  Sample.homeDocument Sample.leftPanel _ eq_refl) H).
Defined.

End RenderingInstances.

(** ** Registration *)

Section Registration.

Lemma registerPageConfig_run (this : System) (document : Document)
    (pageName : string) (elements : list MarkerSpec) (page : Page) :
  let this' :=
    {| options := options this;
       pageConfigs :=
         <[pageName := imap numberOrIndex elements]> (pageConfigs this) |} in
  registerPageConfig this document pageName elements page =
  (this',
   (Normal tt,
    if String.eqb (getCurrentPageName document) pageName
    then pageAfter (updateAllMarkers this' document) page
    else page)).
Proof.
  cbv zeta. unfold registerPageConfig, pageAfter.
  destruct (String.eqb (getCurrentPageName document) pageName);
    [| reflexivity].
  f_equal.
  rewrite (surjective_pairing (updateAllMarkers _ document page)) at 1.
  now rewrite updateAllMarkers_normal.
Qed.

Variable this : System.
Variable document : Document.

(** X12: [registerPageConfig] stores the entries under the page name and
    nowhere else: a later lookup of that name gives the numbered
    entries, every other name and the options are as before, a second
    registration of the name replaces the first, and the page is left
    untouched unless the name is that of the current page. *)
Theorem registration_round_trip (pageName : string)
    (elements earlier : list MarkerSpec) (page : Page) :
  let this' := fst (registerPageConfig this document pageName elements page) in
  pageConfigs this' !! pageName = Some (imap numberOrIndex elements) /\
  (forall other, other <> pageName ->
     pageConfigs this' !! other = pageConfigs this !! other) /\
  options this' = options this /\
  fst (registerPageConfig
         (fst (registerPageConfig this document pageName earlier page))
         document pageName elements page) = this' /\
  (getCurrentPageName document <> pageName ->
   snd (registerPageConfig this document pageName elements page)
   = (Normal tt, page)).
Proof.
  cbv zeta. rewrite !registerPageConfig_run. cbn [fst snd pageConfigs options].
  split; [apply lookup_insert_eq |].
  split; [intros other N; now apply lookup_insert_ne |].
  split; [reflexivity |].
  split.
  - now rewrite insert_insert_eq.
  - intros N. apply String.eqb_neq in N. now rewrite N.
Qed.

Lemma numberOrIndex_number (i : nat) (el : MarkerSpec) :
  exists n, number (numberOrIndex i el) = Some n /\ n <> 0 /\
    (number el = None \/ number el = Some 0 -> n = Z.of_nat i + 1) /\
    (forall k, number el = Some k -> k <> 0 -> n = k).
Proof.
  unfold numberOrIndex. cbn [number].
  destruct (number el) as [[| k | k] |].
  - exists (Z.of_nat i + 1). repeat split; try lia. intros k H. congruence.
  - exists (Z.pos k). repeat split; try lia.
    + intros [H | H]; discriminate.
    + intros k' H _. congruence.
  - exists (Z.neg k). repeat split; try lia.
    + intros [H | H]; discriminate.
    + intros k' H _. congruence.
  - exists (Z.of_nat i + 1). repeat split; try lia. intros k H. discriminate.
Qed.

(** X13: registration numbers the entries: as many entries are stored as
    were given, each keeps its selector, description and placement, an
    entry that brings a non-zero number keeps it, and one without a
    number (or with 0) gets its position in the list, counted from 1; so
    every stored entry has a non-zero number. *)
Theorem registered_entries_are_numbered (pageName : string)
    (elements : list MarkerSpec) (page : Page) :
  exists stored,
    pageConfigs (fst (registerPageConfig this document pageName elements page))
      !! pageName = Some stored /\
    length stored = length elements /\
    forall (i : nat) (el : MarkerSpec),
      elements !! i = Some el ->
      exists el' n,
        stored !! i = Some el' /\
        selector el' = selector el /\
        description el' = description el /\
        preferredPosition el' = preferredPosition el /\
        number el' = Some n /\ n <> 0 /\
        (number el = None \/ number el = Some 0 -> n = Z.of_nat i + 1) /\
        (forall k, number el = Some k -> k <> 0 -> n = k).
Proof.
  exists (imap numberOrIndex elements).
  rewrite registerPageConfig_run. cbn [fst pageConfigs].
  split; [apply lookup_insert_eq |].
  split; [apply length_imap |].
  intros i el H.
  destruct (numberOrIndex_number i el) as (n & Hn & N0 & Hd & Hk).
  exists (numberOrIndex i el), n.
  rewrite list_lookup_imap, H. cbn [fmap option_fmap option_map].
  repeat split; assumption.
Qed.

Lemma filter_Forall {A} (P : A -> Prop) (f : A -> bool) (l : list A) :
  Forall P l -> Forall P (List.filter f l).
Proof.
  induction 1 as [| x l Hx _ IH]; [constructor |].
  cbn [List.filter]. destruct (f x); [now constructor | exact IH].
Qed.

End Registration.

(** ** Set-up and tear-down *)

Section SetupAndDestroy.

Lemma default_names_differ : sellPageName <> homePageName.
Proof. discriminate. Qed.

Lemma registerDefaultConfigs_run (this : System) (document : Document)
    (page : Page) :
  let cur := getCurrentPageName document in
  let page1 :=
    if String.eqb cur sellPageName
    then pageAfter (updateAllMarkers (withSellPage this) document) page
    else page in
  let page2 :=
    if String.eqb cur homePageName
    then pageAfter (updateAllMarkers (withDefaults this) document) page1
    else page1 in
  registerDefaultConfigs this document page =
  (withDefaults this, (Normal tt, page2)).
Proof.
  cbv zeta. unfold registerDefaultConfigs.
  rewrite registerPageConfig_run. cbv zeta.
  now rewrite registerPageConfig_run.
Qed.

Lemma setupPage_run (this : MarkerSystem) (window : Browser)
    (document : Document) (page : Page) :
  let sys := withDefaults (ms_system this) in
  let cur := getCurrentPageName document in
  let page1 :=
    if String.eqb cur sellPageName
    then pageAfter
           (updateAllMarkers (withSellPage (ms_system this)) document) page
    else page in
  let page2 :=
    if String.eqb cur homePageName
    then pageAfter (updateAllMarkers sys document) page1
    else page1 in
  let page3 :=
    if hasPageConfig sys cur
    then pageAfter (updateAllMarkers sys document) page2
    else page2 in
  let this1 := {| ms_system := sys; ms_observers := ms_observers this |} in
  setupPage this window document page =
  (fst (fst (setupMutationObserver this1 window document)),
   snd (fst (setupMutationObserver this1 window document)),
   (snd (setupMutationObserver this1 window document), page3)).
Proof.
  cbv zeta. unfold setupPage.
  rewrite registerDefaultConfigs_run. cbv zeta.
  destruct (hasPageConfig (withDefaults (ms_system this))
              (getCurrentPageName document)).
  - rewrite (surjective_pairing (updateAllMarkers _ document _)).
    rewrite updateAllMarkers_normal.
    now destruct (setupMutationObserver _ window document) as [[? ?] ?].
  - now destruct (setupMutationObserver _ window document) as [[? ?] ?].
Qed.

Lemma setupMutationObserver_system (this : MarkerSystem) (window : Browser)
    (document : Document) :
  ms_system (fst (fst (setupMutationObserver this window document)))
  = ms_system this.
Proof.
  unfold setupMutationObserver.
  destruct (mutationObserverSupported window); [| reflexivity].
  now destruct (body document).
Qed.

(** X15: [setupPage] leaves both default pages registered with their
    numbered default entries, whatever was registered under these names
    before, and keeps every other registration and the options. It ends
    with a [TypeError] exactly when the browser has [MutationObserver]
    and the document has no body ([observe] is called on [null]);
    otherwise it completes, and when the browser has [MutationObserver]
    exactly one new observer is connected and remembered. *)
Theorem setupPage_registers_defaults (this : MarkerSystem)
    (window : Browser) (document : Document) (page : Page) :
  let '(this', window', (outcome, _)) :=
    setupPage this window document page in
  let observing :=
    mutationObserverSupported window && truthy (body document) in
  outcome =
    (if mutationObserverSupported window && negb (truthy (body document))
     then Throw TypeError else Normal tt) /\
  pageConfigs (ms_system this') !! sellPageName
    = Some (imap numberOrIndex sellPageSpecs) /\
  pageConfigs (ms_system this') !! homePageName
    = Some (imap numberOrIndex homePageSpecs) /\
  (forall other, other <> sellPageName -> other <> homePageName ->
     pageConfigs (ms_system this') !! other
     = pageConfigs (ms_system this) !! other) /\
  options (ms_system this') = options (ms_system this) /\
  ms_observers this' =
    (ms_observers this ++
     if observing then [nextObserver window] else [])%list /\
  connected window' =
    (connected window ++
     if observing then [nextObserver window] else [])%list.
Proof.
  rewrite setupPage_run. cbv zeta.
  rewrite setupMutationObserver_system. cbn [ms_system].
  unfold withDefaults, withSellPage. cbn [pageConfigs options].
  split.
  { unfold setupMutationObserver.
    destruct (mutationObserverSupported window); [| reflexivity].
    now destruct (body document). }
  split.
  { rewrite lookup_insert_ne by (apply not_eq_sym, default_names_differ).
    apply lookup_insert_eq. }
  split; [apply lookup_insert_eq |].
  split.
  { intros other N1 N2. now rewrite !lookup_insert_ne by congruence. }
  split; [reflexivity |].
  unfold setupMutationObserver.
  destruct (mutationObserverSupported window), (body document);
    cbn [negb andb truthy fst snd ms_observers connected];
    rewrite ?app_nil_r; now split.
Qed.

Lemma itemMarkers_options (this this' : System) (document : Document)
    (p : Element) (item : MarkerSpec) :
  options this = options this' ->
  itemMarkers this document p item = itemMarkers this' document p item.
Proof. intros H. unfold itemMarkers. now rewrite H. Qed.

Lemma pass_markers_no_panel (this : System) (document : Document)
    (page : Page) :
  getLeftPanel document = None ->
  markers (pageAfter (updateAllMarkers this document) page) = markers page.
Proof.
  intros H. rewrite pass_markers, H.
  now destruct (pageConfigs this !! getCurrentPageName document).
Qed.

Lemma pass_markers_panel (this : System) (document : Document)
    (config : list MarkerSpec) (p : Element) (page : Page) :
  pageConfigs this !! getCurrentPageName document = Some config ->
  getLeftPanel document = Some p ->
  markers (pageAfter (updateAllMarkers this document) page) =
  flat_map (itemMarkers this document p) config.
Proof. intros H Hp. now rewrite pass_markers, H, Hp. Qed.

Lemma filter_existsb_In (observers l : list nat) (o : nat) :
  In o (List.filter (fun x => negb (existsb (Nat.eqb x) observers)) l) <->
  In o l /\ ~ In o observers.
Proof.
  rewrite List.filter_In. split; intros [H1 H2]; split; try exact H1.
  - intros I. apply negb_true_iff in H2.
    assert (E : existsb (Nat.eqb o) observers = true).
    { apply existsb_exists. exists o. split; [exact I | apply Nat.eqb_refl]. }
    congruence.
  - apply negb_true_iff. destruct (existsb (Nat.eqb o) observers) eqn:E;
      [| reflexivity].
    apply existsb_exists in E as (x & I & Ex).
    apply Nat.eqb_eq in Ex. subst x. contradiction.
Qed.

(** X17: [destroy] removes every marker, forgets every registration and
    disconnects exactly the observers of this instance: observers of
    other instances stay connected, the console is untouched, and a later
    pass of the destroyed instance renders nothing on any document. *)
Theorem destroy_leaves_nothing_behind (this : MarkerSystem)
    (window : Browser) (page : Page) :
  let '(this', window', page') := destroy this window page in
  markers page' = [] /\
  console page' = console page /\
  pageConfigs (ms_system this') = ∅ /\
  ms_observers this' = [] /\
  (forall o, In o (connected window') <->
             In o (connected window) /\ ~ In o (ms_observers this)) /\
  (forall document page0,
     markers (pageAfter (updateAllMarkers (ms_system this') document) page0)
     = markers page0).
Proof.
  unfold destroy. cbn [snd clearExistingMarkers markers console
                        ms_system ms_observers pageConfigs connected].
  split; [reflexivity |]. split; [reflexivity |].
  split; [reflexivity |]. split; [reflexivity |].
  split.
  - intros o. apply filter_existsb_In.
  - intros document page0. rewrite pass_markers. cbn [pageConfigs].
    now rewrite lookup_empty.
Qed.

(** X18: set-up followed by tear-down gives the observers back: when the
    browser hands out fresh observer names, the observers connected after
    [setupPage] and then [destroy] are those that were connected before
    and do not belong to this instance, and no marker is left. *)
Theorem setup_then_destroy_restores_observers (this : MarkerSystem)
    (window : Browser) (document : Document) (page : Page) :
  ~ In (nextObserver window) (connected window) ->
  let '(this1, window1, (_, page1)) := setupPage this window document page in
  let '(this2, window2, page2) := destroy this1 window1 page1 in
  connected window2 =
    List.filter (fun o => negb (existsb (Nat.eqb o) (ms_observers this)))
      (connected window) /\
  markers page2 = [] /\
  ms_observers this2 = [].
Proof.
  intros Fresh. rewrite setupPage_run. cbv zeta.
  unfold destroy, setupMutationObserver.
  destruct (mutationObserverSupported window), (body document);
    cbn [negb fst snd ms_observers connected markers clearExistingMarkers];
    (split; [| split; reflexivity]); try reflexivity.
  - rewrite List.filter_app. cbn [List.filter].
    rewrite existsb_app. cbn [existsb]. rewrite Nat.eqb_refl.
    rewrite orb_true_r. cbn [negb]. rewrite app_nil_r.
    apply List.filter_ext_in. intros o I.
    rewrite existsb_app. cbn [existsb].
    destruct (Nat.eqb o (nextObserver window)) eqn:E.
    + apply Nat.eqb_eq in E. subst o. contradiction.
    + now rewrite !orb_false_r.
Qed.

End SetupAndDestroy.

(** ** The debug export *)

Section ExportPositions.

Variable this : System.
Variable document : Document.

Lemma exportLoop_panel (p : Element) (config : list MarkerSpec)
    (positions : list ExportEntry) (page : Page) :
  exportLoop this document (Some p) config positions page =
  (Normal (positions ++ flat_map (itemExport this document p) config)%list,
   page).
Proof.
  revert positions. induction config as [| item rest IH]; intros positions.
  - cbn [exportLoop flat_map]. now rewrite app_nil_r.
  - cbn [exportLoop flat_map]. unfold itemExport at 1.
    destruct (findElement document (selector item)) as [e |]; cbn [truthy].
    + cbn [invokeCalculateOptimalPosition]. rewrite bind_run. cbn [ret].
      rewrite IH. now rewrite <- app_assoc.
    + now rewrite IH.
Qed.

Lemma exportLoop_no_panel (config : list MarkerSpec)
    (positions : list ExportEntry) (page : Page) :
  exportLoop this document None config positions page =
  (if existsb (anchored document) config then Throw TypeError
   else Normal positions, page).
Proof.
  induction config as [| item rest IH]; [reflexivity |].
  cbn [exportLoop existsb]. unfold anchored at 1.
  destruct (findElement document (selector item)) as [e |]; cbn [truthy orb].
  - reflexivity.
  - exact IH.
Qed.

Lemma itemExport_position (p : Element) (item : MarkerSpec) :
  map ex_position (itemExport this document p item) =
  map (fun m => {| pos_top := mk_top m; pos_left := mk_left m |})
    (itemMarkers this document p item) /\
  map ex_selector (itemExport this document p item) =
  (if anchored document item then [selector item] else []).
Proof.
  unfold itemExport, itemMarkers, anchored.
  destruct (findElement document (selector item)) as [e |];
    cbn [map truthy mk_top mk_left ex_position ex_selector]; [| now split].
  split; [| reflexivity].
  now destruct (calculateOptimalPosition (options this) e p item).
Qed.

Lemma export_positions (p : Element) (config : list MarkerSpec) :
  map ex_position (flat_map (itemExport this document p) config) =
  map (fun m => {| pos_top := mk_top m; pos_left := mk_left m |})
    (flat_map (itemMarkers this document p) config) /\
  map ex_selector (flat_map (itemExport this document p) config) =
  map selector (List.filter (anchored document) config).
Proof.
  induction config as [| item rest [IHp IHs]]; [now split |].
  destruct (itemExport_position p item) as [Hp Hs].
  cbn [flat_map List.filter]. rewrite !map_app, Hp, Hs, IHp, IHs.
  split; [reflexivity |]. now destruct (anchored document item).
Qed.

(** X20: the export has no guard for a missing container. On an
    unregistered page it returns [null]; on a registered page without a
    container it raises a [TypeError] as soon as one entry's anchor is in
    the document, and returns an empty list of positions when none is;
    the update pass completes normally in all these cases. The page is
    never changed. *)
Theorem export_without_container (page : Page) :
  (pageConfigs this !! getCurrentPageName document = None ->
   exportCurrentPositions this document page = (Normal None, page)) /\
  (forall config,
     pageConfigs this !! getCurrentPageName document = Some config ->
     getLeftPanel document = None ->
     exportCurrentPositions this document page =
     (if existsb (anchored document) config then Throw TypeError
      else Normal
             (Some {| ex_pageName := getCurrentPageName document;
                      ex_positions := [];
                      ex_pythonCode :=
                        generatePythonConfig (getCurrentPageName document) [] |}),
      page)) /\
  fst (updateAllMarkers this document page) = Normal tt.
Proof.
  split; [| split].
  - intros H. unfold exportCurrentPositions. now rewrite H.
  - intros config H Hp. unfold exportCurrentPositions. rewrite H, Hp.
    rewrite bind_run, exportLoop_no_panel.
    now destruct (existsb (anchored document) config).
  - apply updateAllMarkers_normal.
Qed.

End ExportPositions.

Section ExportInstances.

(** The head of the document is parsed, its body is not: the export
    throws where the pass logs and returns. *)
Lemma export_without_container_witness :
  pageConfigs (Sample.system Sample.debugOptions "2 1 home" [Fixture.titleSpec])
    !! getCurrentPageName Fixture.headOnlyDocument
    = Some [Fixture.titleSpec] /\
  getLeftPanel Fixture.headOnlyDocument = None /\
  exportCurrentPositions
    (Sample.system Sample.debugOptions "2 1 home" [Fixture.titleSpec])
    Fixture.headOnlyDocument emptyPage = (Throw TypeError, emptyPage) /\
  fst (updateAllMarkers
         (Sample.system Sample.debugOptions "2 1 home" [Fixture.titleSpec])
         Fixture.headOnlyDocument emptyPage) = Normal tt.
Proof.
  assert (H : pageConfigs
                (Sample.system Sample.debugOptions "2 1 home" [Fixture.titleSpec])
                !! getCurrentPageName Fixture.headOnlyDocument
              = Some [Fixture.titleSpec]) by (vm_compute; reflexivity).
  split; [exact H |]. split; [reflexivity |].
  destruct (export_without_container
              (Sample.system Sample.debugOptions "2 1 home" [Fixture.titleSpec])
              Fixture.headOnlyDocument emptyPage) as (_ & E & N).
  split; [| exact N].
  rewrite (E [Fixture.titleSpec] H eq_refl). reflexivity.
Defined.

End ExportInstances.

(** ** Timers and [debounce] *)

Section Debounce.

Import EventLoop.

Lemma filter_all {A} (f : A -> bool) (l : list A) :
  (forall x, In x l -> f x = true) -> List.filter f l = l.
Proof.
  induction l as [| x l IH]; intros H; [reflexivity |].
  cbn [List.filter]. rewrite (H x (or_introl eq_refl)).
  f_equal. apply IH. intros y I. apply H. now right.
Qed.

Lemma filter_none {A} (f : A -> bool) (l : list A) :
  List.find f l = None -> List.filter f l = [].
Proof.
  induction l as [| x l IH]; [reflexivity |].
  cbn [List.find List.filter]. destruct (f x); [discriminate | exact IH].
Qed.

Lemma distinctIds_filter (f : Timer -> bool) (l : list Timer) :
  distinctIds l -> distinctIds (List.filter f l).
Proof.
  induction l as [| tm l IH]; [trivial |].
  intros [H1 H2]. cbn [List.filter]. destruct (f tm).
  - split; [| now apply IH]. intros tm' I.
    apply List.filter_In in I as [I _]. now apply H1.
  - now apply IH.
Qed.

(** Dropping the timer with the id of [tm] removes [tm] and nothing
    else. *)
Lemma drop_one (q : Timer -> bool) (l : list Timer) (tm : Timer) :
  distinctIds l -> In tm l -> q tm = true ->
  let rest := List.filter (fun t => negb (Nat.eqb (tm_id t) (tm_id tm))) l in
  length (List.filter q l) = S (length (List.filter q rest)) /\
  List.filter (fun t => negb (q t)) rest = List.filter (fun t => negb (q t)) l /\
  (forall t, In t rest -> tm_id t <> tm_id tm).
Proof.
  cbv zeta. intros D I Q. split; [| split].
  - induction l as [| x l IH]; [contradiction |].
    destruct D as [D1 D2]. cbn [List.filter].
    destruct I as [-> | I].
    + rewrite Nat.eqb_refl, Q. cbn [negb length].
      assert (Fl : List.filter
                     (fun t => negb (Nat.eqb (tm_id t) (tm_id tm))) l = l).
      { apply filter_all. intros t It.
        apply negb_true_iff, Nat.eqb_neq. now apply D1. }
      now rewrite Fl.
    + assert (N : Nat.eqb (tm_id x) (tm_id tm) = false).
      { apply Nat.eqb_neq. intros E. apply (D1 tm I). now symmetry. }
      rewrite N. cbn [negb List.filter].
      destruct (q x); cbn [length]; now rewrite (IH D2 I).
  - induction l as [| x l IH]; [reflexivity |].
    destruct D as [D1 D2]. cbn [List.filter].
    destruct I as [-> | I].
    + rewrite Nat.eqb_refl, Q. cbn [negb].
      assert (Fl : List.filter
                     (fun t => negb (Nat.eqb (tm_id t) (tm_id tm))) l = l).
      { apply filter_all. intros t It.
        apply negb_true_iff, Nat.eqb_neq. now apply D1. }
      now rewrite Fl.
    + assert (N : Nat.eqb (tm_id x) (tm_id tm) = false).
      { apply Nat.eqb_neq. intros E. apply (D1 tm I). now symmetry. }
      rewrite N. cbn [negb List.filter].
      destruct (q x); cbn [negb]; now rewrite (IH D2 I).
  - intros t It. apply List.filter_In in It as [_ It].
    now apply negb_true_iff, Nat.eqb_neq in It.
Qed.

Lemma readVar_vars (a : nat) (st st' : Loop) :
  vars st = vars st' -> readVar a st = readVar a st'.
Proof. intros H. unfold readVar. now rewrite H. Qed.

(** [later] on a queue from which its own timer is gone: the function
    runs, nothing else changes. *)
Lemma runLater_harmless (l : Later) (st : Loop) :
  (forall i, readVar (lt_timeout l) st = Some i ->
             forall t, In t (timers st) -> tm_id t <> i) ->
  now (runLater l st) = now st /\
  vars (runLater l st) = vars st /\
  timers (runLater l st) = timers st /\
  passes (runLater l st) = S (passes st).
Proof.
  intros H. unfold runLater.
  destruct (readVar (lt_timeout l) st) as [i |] eqn:E.
  - assert (T : timers (clearTimeout (Some i) st) = timers st).
    { cbn [clearTimeout timers]. apply filter_all. intros t It.
      apply negb_true_iff, Nat.eqb_neq. now apply (H i eq_refl). }
    destruct (lt_func l). cbn [call now vars timers passes clearTimeout] in *.
    now rewrite T.
  - destruct (lt_func l). cbn [call clearTimeout]. now repeat split.
Qed.

(** [fire] runs every due timer once. *)
Lemma fire_all (n : nat) (st : Loop) :
  distinctIds (timers st) -> cellsOwn st ->
  (length (List.filter (isDue (now st)) (timers st)) <= n)%nat ->
  now (fire n st) = now st /\
  vars (fire n st) = vars st /\
  timers (fire n st) =
    List.filter (fun tm => negb (isDue (now st) tm)) (timers st) /\
  passes (fire n st) =
    (passes st + length (List.filter (isDue (now st)) (timers st)))%nat.
Proof.
  revert st. induction n as [| n IH]; intros st D C L.
  - cbn [fire].
    assert (E : List.filter (isDue (now st)) (timers st) = [])
      by (apply length_zero_iff_nil; lia).
    rewrite E. cbn [length]. rewrite Nat.add_0_r.
    repeat split. symmetry. apply filter_all. intros tm I.
    apply negb_true_iff. destruct (isDue (now st) tm) eqn:Q; [| reflexivity].
    assert (I' : In tm (List.filter (isDue (now st)) (timers st)))
      by (apply List.filter_In; now split).
    rewrite E in I'. contradiction.
  - cbn [fire]. destruct (List.find (isDue (now st)) (timers st)) as [tm |] eqn:F.
    + apply List.find_some in F as [I Q].
      destruct (drop_one (isDue (now st)) (timers st) tm D I Q)
        as (Hlen & Hrest & Hids).
      set (st1 := dropTimer (tm_id tm) st).
      assert (T1 : timers st1 =
                   List.filter (fun t => negb (Nat.eqb (tm_id t) (tm_id tm)))
                     (timers st)) by reflexivity.
      assert (Hharm : forall i, readVar (lt_timeout (tm_later tm)) st1 = Some i ->
                       forall t, In t (timers st1) -> tm_id t <> i).
      { intros i R t It. rewrite T1 in It.
        rewrite (readVar_vars _ st1 st eq_refl) in R.
        destruct (C tm i I R) as [-> | N].
        - now apply Hids.
        - apply N. now apply List.filter_In in It as [It _]. }
      destruct (runLater_harmless (tm_later tm) st1 Hharm)
        as (R1 & R2 & R3 & R4).
      set (st2 := runLater (tm_later tm) st1) in *.
      assert (N2 : now st2 = now st) by (rewrite R1; reflexivity).
      assert (D2 : distinctIds (timers st2))
        by (rewrite R3, T1; now apply distinctIds_filter).
      assert (C2 : cellsOwn st2).
      { intros t i It R. rewrite R3, T1 in It.
        apply List.filter_In in It as [It _].
        rewrite (readVar_vars _ st2 st) in R by (rewrite R2; reflexivity).
        destruct (C t i It R) as [-> | N]; [now left | right].
        intros t' It'. rewrite R3, T1 in It'.
        apply List.filter_In in It' as [It' _]. now apply N. }
      assert (L2 : (length (List.filter (isDue (now st2)) (timers st2)) <= n)%nat).
      { rewrite N2, R3, T1. lia. }
      destruct (IH st2 D2 C2 L2) as (A1 & A2 & A3 & A4).
      rewrite N2, R3, T1 in A3, A4. rewrite R4 in A4.
      split; [congruence |]. split; [rewrite A2, R2; reflexivity |].
      split; [rewrite A3; exact Hrest |].
      rewrite A4, Hlen. change (passes st1) with (passes st). lia.
    + rewrite (filter_none _ _ F). cbn [length]. rewrite Nat.add_0_r.
      repeat split. symmetry. apply filter_all. intros tm I.
      apply negb_true_iff. destruct (isDue (now st) tm) eqn:Q; [| reflexivity].
      now rewrite (List.find_none _ _ F tm I) in Q.
Qed.

Lemma tick_orderly (st : Loop) :
  orderly st ->
  now (tick st) = S (now st) /\
  vars (tick st) = vars st /\
  timers (tick st) =
    List.filter (fun tm => negb (isDue (S (now st)) tm)) (timers st) /\
  passes (tick st) =
    (passes st + length (List.filter (isDue (S (now st))) (timers st)))%nat /\
  orderly (tick st).
Proof.
  intros (D & O & C).
  set (st' := {| now := S (now st); timers := timers st;
                 nextTimer := nextTimer st; vars := vars st;
                 nextVar := nextVar st; passes := passes st |}).
  change (tick st) with (fire (length (timers st)) st').
  assert (C' : cellsOwn st') by exact C.
  destruct (fire_all (length (timers st)) st' D C')
    as (A1 & A2 & A3 & A4); [apply List.filter_length_le |].
  change (now st') with (S (now st)) in A1, A3, A4.
  change (vars st') with (vars st) in A2.
  change (timers st') with (timers st) in A3, A4.
  change (passes st') with (passes st) in A4.
  split; [exact A1 |]. split; [exact A2 |]. split; [exact A3 |].
  split; [exact A4 |].
  split; [| split].
  - rewrite A3. now apply distinctIds_filter.
  - intros tm I. rewrite A3 in I. apply List.filter_In in I as [_ Q].
    rewrite A1. apply negb_true_iff in Q. unfold isDue in Q.
    now apply Nat.leb_gt in Q.
  - intros tm i I R. rewrite A3 in I. apply List.filter_In in I as [I _].
    rewrite (readVar_vars _ _ st A2) in R.
    destruct (C tm i I R) as [-> | N]; [now left | right].
    intros t' It'. rewrite A3 in It'.
    apply List.filter_In in It' as [It' _]. now apply N.
Qed.

Lemma due_split (t t' : nat) (l : list Timer) :
  (t <= t')%nat ->
  length (List.filter (isDue t') l) =
  (length (List.filter (isDue t) l)
   + length (List.filter (isDue t')
               (List.filter (fun tm => negb (isDue t tm)) l)))%nat.
Proof.
  intros H. induction l as [| tm l IH]; [reflexivity |].
  cbn [List.filter].
  destruct (isDue t tm) eqn:E, (isDue t' tm) eqn:E';
    cbn [negb List.filter length]; rewrite ?E'; cbn [length];
    rewrite IH; try lia.
  unfold isDue in E, E'. apply Nat.leb_le in E. apply Nat.leb_gt in E'. lia.
Qed.

Lemma not_due_split (t t' : nat) (l : list Timer) :
  (t <= t')%nat ->
  List.filter (fun tm => negb (isDue t' tm))
    (List.filter (fun tm => negb (isDue t tm)) l) =
  List.filter (fun tm => negb (isDue t' tm)) l.
Proof.
  intros H. induction l as [| tm l IH]; [reflexivity |].
  cbn [List.filter].
  destruct (isDue t tm) eqn:E, (isDue t' tm) eqn:E';
    cbn [negb List.filter]; rewrite ?E'; cbn [negb];
    rewrite IH; try reflexivity.
  unfold isDue in E, E'. apply Nat.leb_le in E. apply Nat.leb_gt in E'. lia.
Qed.

(** Every pending timer fires exactly once, when it is due: after [ms]
    milliseconds the function has run once for each timer due by then. *)
Lemma elapse_counts (ms : nat) (st : Loop) :
  orderly st ->
  passes (elapse ms st) =
  (passes st
   + length (List.filter (isDue (now st + ms)) (timers st)))%nat /\
  timers (elapse ms st) =
    List.filter (fun tm => negb (isDue (now st + ms) tm)) (timers st) /\
  now (elapse ms st) = (now st + ms)%nat /\
  vars (elapse ms st) = vars st /\
  orderly (elapse ms st).
Proof.
  revert st. induction ms as [| ms IH]; intros st O.
  - cbn [elapse]. rewrite Nat.add_0_r.
    destruct O as (D & Odue & C).
    assert (E : List.filter (isDue (now st)) (timers st) = []).
    { destruct (List.filter (isDue (now st)) (timers st)) as [| tm r] eqn:F;
        [reflexivity |].
      assert (I : In tm (List.filter (isDue (now st)) (timers st)))
        by (rewrite F; now left).
      apply List.filter_In in I as [I Q]. unfold isDue in Q.
      apply Nat.leb_le in Q. specialize (Odue tm I). lia. }
    rewrite E. cbn [length]. rewrite Nat.add_0_r.
    split; [reflexivity |]. split; [| now repeat split].
    symmetry. apply filter_all. intros tm I. apply negb_true_iff.
    unfold isDue. apply Nat.leb_gt. now apply Odue.
  - cbn [elapse].
    destruct (tick_orderly st O) as (T1 & T2 & T3 & T4 & T5).
    destruct (IH (tick st) T5) as (A1 & A2 & A3 & A4 & A5).
    rewrite T1, T3 in A1, A2. rewrite T1 in A3. rewrite T4 in A1.
    replace (now st + S ms)%nat with (S (now st) + ms)%nat by lia.
    split.
    { rewrite A1, (due_split (S (now st)) (S (now st) + ms) (timers st)); lia. }
    split.
    { rewrite A2. apply not_due_split. lia. }
    split; [exact A3 |]. split; [congruence | exact A5].
Qed.

End Debounce.

Section DebounceBehaviour.

Import EventLoop.

Lemma readVar_writeVar (a b : nat) (v : option nat) (st : Loop) :
  readVar a (writeVar b v st) = if decide (b = a) then v else readVar a st.
Proof.
  unfold readVar, writeVar. cbn [vars]. rewrite lookup_insert.
  now destruct (decide (b = a)).
Qed.

(** What a call of the closure does to the queue: the timer it set
    before is cancelled, a new one is due [wait] ms from now, and the
    variable [timeout] holds the new timer's id. *)
Lemma executedFunction_state (d : Debounced) (st : Loop) :
  let tm :=
    {| tm_id := nextTimer st;
       tm_due := (now st + db_wait d)%nat;
       tm_later := {| lt_timeout := db_timeout d; lt_func := db_func d |} |} in
  timers (executedFunction d st) =
    (match readVar (db_timeout d) st with
     | Some i => List.filter (fun t => negb (Nat.eqb (tm_id t) i)) (timers st)
     | None => timers st
     end ++ [tm])%list /\
  now (executedFunction d st) = now st /\
  passes (executedFunction d st) = passes st /\
  readVar (db_timeout d) (executedFunction d st) = Some (nextTimer st) /\
  (forall a, a <> db_timeout d ->
     readVar a (executedFunction d st) = readVar a st).
Proof.
  cbv zeta. unfold executedFunction.
  destruct (readVar (db_timeout d) st) as [i |] eqn:R;
    cbn [clearTimeout setTimeout]; rewrite !readVar_writeVar;
    cbn [writeVar timers now passes nextTimer];
    (split; [reflexivity |]); (split; [reflexivity |]);
    (split; [reflexivity |]);
    (split;
     [ destruct (decide (db_timeout d = db_timeout d));
       [reflexivity | congruence]
     | intros a N; rewrite readVar_writeVar;
       destruct (decide (db_timeout d = a)); [congruence | reflexivity] ]).
Qed.

Lemma executedFunction_nextTimer (d : Debounced) (st : Loop) :
  nextTimer (executedFunction d st) = S (nextTimer st).
Proof.
  unfold executedFunction.
  now destruct (readVar (db_timeout d) st).
Qed.

(** One pending timer of the closure, due [wait] ms from now, and the
    closure's variable naming it: the state right after a call. *)
Lemma armed_orderly (st : Loop) (tm : Timer) :
  timers st = [tm] ->
  (now st < tm_due tm)%nat ->
  readVar (lt_timeout (tm_later tm)) st = Some (tm_id tm) ->
  orderly st.
Proof.
  intros T D R. unfold orderly, cellsOwn. rewrite T.
  split; [split; [intros ? [] | exact I] |].
  split.
  - intros t [<- | []]. exact D.
  - intros t i [<- | []] Ri. left. congruence.
Qed.

Lemma armed_counts (st : Loop) (tm : Timer) (wait k : nat) :
  timers st = [tm] ->
  tm_due tm = (now st + wait)%nat -> (0 < wait)%nat ->
  readVar (lt_timeout (tm_later tm)) st = Some (tm_id tm) ->
  passes (elapse k st) =
    (if Nat.ltb k wait then passes st else S (passes st)) /\
  timers (elapse k st) = (if Nat.ltb k wait then [tm] else []) /\
  now (elapse k st) = (now st + k)%nat /\
  vars (elapse k st) = vars st.
Proof.
  intros T D W R.
  assert (O : orderly st) by (apply (armed_orderly st tm T); [lia | exact R]).
  destruct (elapse_counts k st O) as (P & Tm & N & V & _).
  rewrite T in P, Tm. cbn [List.filter] in P, Tm.
  unfold isDue in P, Tm. rewrite D in P, Tm.
  destruct (Nat.ltb k wait) eqn:E.
  - apply Nat.ltb_lt in E.
    assert (L : Nat.leb (now st + wait) (now st + k) = false)
      by (apply Nat.leb_gt; lia).
    rewrite L in P, Tm. cbn [length negb] in P, Tm.
    repeat split; try assumption. lia.
  - apply Nat.ltb_ge in E.
    assert (L : Nat.leb (now st + wait) (now st + k) = true)
      by (apply Nat.leb_le; lia).
    rewrite L in P, Tm. cbn [length negb] in P, Tm.
    repeat split; try assumption. lia.
Qed.

Lemma debounce_state (f : Callback) (wait : nat) (st : Loop) :
  let '(d, st1) := debounce f wait st in
  db_func d = f /\ db_wait d = wait /\ db_timeout d = nextVar st /\
  timers st1 = timers st /\ now st1 = now st /\ passes st1 = passes st /\
  nextTimer st1 = nextTimer st /\ nextVar st1 = S (nextVar st) /\
  readVar (nextVar st) st1 = None /\
  (forall a, a <> nextVar st -> readVar a st1 = readVar a st).
Proof.
  unfold debounce, readVar. cbn [vars]. repeat split.
  - now rewrite lookup_insert_eq.
  - intros a N. now rewrite lookup_insert_ne by congruence.
Qed.

(** X21: a call of a debounced closure on an idle event loop runs the
    function exactly once, [wait] milliseconds later and not before
    (trailing edge); afterwards no timer is pending. *)
Theorem debounced_call_runs_once_after_wait (f : Callback) (wait : nat)
    (st : Loop) (k : nat) :
  timers st = [] -> (0 < wait)%nat ->
  let '(d, st1) := debounce f wait st in
  let st2 := executedFunction d st1 in
  passes (elapse k st2) =
    (if Nat.ltb k wait then passes st else S (passes st)) /\
  (wait <= k -> timers (elapse k st2) = [])%nat.
Proof.
  intros T W. pose proof (debounce_state f wait st) as Hd.
  destruct (debounce f wait st) as [d st1].
  destruct Hd as (Hf & Hw & Hc & T1 & N1 & P1 & _ & _ & R1 & _).
  cbv zeta.
  destruct (executedFunction_state d st1) as (T2 & N2 & P2 & R2 & _).
  rewrite Hc, R1, T1, T in T2. cbn [app] in T2.
  destruct (armed_counts (executedFunction d st1) _ wait k T2)
    as (P & Tm & _ & _).
  - cbn [tm_due]. now rewrite N2, Hw.
  - exact W.
  - cbn [tm_later lt_timeout tm_id]. now rewrite Hc in R2.
  - rewrite P, P2, P1. split; [reflexivity |].
    intros L. rewrite Tm.
    assert (E : Nat.ltb k wait = false) by (apply Nat.ltb_ge; lia).
    now rewrite E.
Qed.

(** The state of one closure between the calls of a burst. *)
Lemma burst_step (d : Debounced) (st : Loop) (tm : Timer) (g : nat) :
  timers st = [tm] ->
  tm_due tm = (now st + db_wait d)%nat -> (0 < db_wait d)%nat ->
  lt_timeout (tm_later tm) = db_timeout d ->
  readVar (db_timeout d) st = Some (tm_id tm) ->
  (g < db_wait d)%nat ->
  exists tm',
    timers (executedFunction d (elapse g st)) = [tm'] /\
    tm_due tm' = (now (executedFunction d (elapse g st)) + db_wait d)%nat /\
    lt_timeout (tm_later tm') = db_timeout d /\
    readVar (db_timeout d) (executedFunction d (elapse g st))
      = Some (tm_id tm') /\
    passes (executedFunction d (elapse g st)) = passes st.
Proof.
  intros T D W C R G.
  destruct (armed_counts st tm (db_wait d) g T D W) as (P & Tm & N & V);
    [now rewrite C |].
  assert (E : Nat.ltb g (db_wait d) = true) by now apply Nat.ltb_lt.
  rewrite E in P, Tm.
  destruct (executedFunction_state d (elapse g st)) as (T2 & N2 & P2 & R2 & _).
  rewrite (readVar_vars _ (elapse g st) st V), R, Tm in T2.
  cbn [List.filter] in T2. rewrite Nat.eqb_refl in T2. cbn [negb app] in T2.
  eexists. split; [exact T2 |]. cbn [tm_due tm_later lt_timeout tm_id].
  rewrite N2. split; [reflexivity |]. split; [reflexivity |].
  split; [exact R2 | congruence].
Qed.

(** X22: a burst of calls of one debounced closure, each less than
    [wait] milliseconds after the one before, is coalesced: each call
    cancels the pending timer, and the function runs exactly once, [wait]
    milliseconds after the last call, however many calls there were. *)
Theorem debounced_burst_runs_once (f : Callback) (wait : nat) (st : Loop)
    (gaps : list nat) (k : nat) :
  timers st = [] -> (0 < wait)%nat ->
  Forall (fun g => g < wait)%nat gaps ->
  let '(d, st1) := debounce f wait st in
  let st2 := burst d gaps (executedFunction d st1) in
  passes (elapse k st2) =
    (if Nat.ltb k wait then passes st else S (passes st)).
Proof.
  intros T W G. pose proof (debounce_state f wait st) as Hd.
  destruct (debounce f wait st) as [d st1].
  destruct Hd as (Hf & Hw & Hc & T1 & N1 & P1 & _ & _ & R1 & _).
  cbv zeta.
  destruct (executedFunction_state d st1) as (T2 & N2 & P2 & R2 & _).
  rewrite Hc, R1, T1, T in T2. cbn [app] in T2.
  assert (J : exists tm,
             timers (executedFunction d st1) = [tm] /\
             tm_due tm = (now (executedFunction d st1) + db_wait d)%nat /\
             lt_timeout (tm_later tm) = db_timeout d /\
             readVar (db_timeout d) (executedFunction d st1)
               = Some (tm_id tm) /\
             passes (executedFunction d st1) = passes st).
  { eexists. split; [exact T2 |]. cbn [tm_due tm_later lt_timeout tm_id].
    rewrite N2. split; [reflexivity |]. split; [now rewrite Hc |].
    split; [exact R2 | congruence]. }
  clear T2 N2 P2 R2.
  revert J. generalize (executedFunction d st1) as s.
  induction G as [| g gaps Hg _ IH]; intros s (tm & Ts & Ds & Cs & Rs & Ps).
  - cbn [burst].
    destruct (armed_counts s tm wait k Ts) as (P & _).
    + now rewrite Ds, Hw.
    + exact W.
    + now rewrite Cs.
    + now rewrite P, Ps.
  - cbn [burst]. apply IH.
    destruct (burst_step d s tm g Ts Ds) as (tm' & A1 & A2 & A3 & A4 & A5);
      try assumption; try (rewrite Hw; assumption).
    exists tm'. repeat split; try assumption. congruence.
Qed.

(** X23: closures from separate calls of [debounce] do not know of each
    other: calls of two of them set two timers, neither cancels the
    other, and the function runs once for each, so a listener that makes
    a new closure for every event would not coalesce anything. *)
Theorem separate_closures_do_not_coalesce (f1 f2 : Callback)
    (w1 w2 : nat) (st : Loop) (k : nat) :
  timers st = [] -> (0 < w1)%nat -> (0 < w2)%nat ->
  let '(d1, st1) := debounce f1 w1 st in
  let '(d2, st2) := debounce f2 w2 st1 in
  let st3 := executedFunction d2 (executedFunction d1 st2) in
  passes (elapse k st3) =
    (passes st + (if Nat.ltb k w1 then 0 else 1)
               + (if Nat.ltb k w2 then 0 else 1))%nat.
Proof.
  intros T W1 W2. pose proof (debounce_state f1 w1 st) as Hd1.
  destruct (debounce f1 w1 st) as [d1 st1].
  destruct Hd1 as (_ & Hw1 & Hc1 & T1 & N1 & P1 & _ & V1 & R1 & _).
  pose proof (debounce_state f2 w2 st1) as Hd2.
  destruct (debounce f2 w2 st1) as [d2 st2].
  destruct Hd2 as (_ & Hw2 & Hc2 & T2 & N2 & P2 & _ & _ & R2 & O2).
  cbv zeta.
  assert (Ne : db_timeout d1 <> db_timeout d2) by (rewrite Hc1, Hc2; lia).
  destruct (executedFunction_state d1 st2) as (T3 & N3 & P3 & R3 & O3).
  rewrite Hc1, (O2 (nextVar st)), R1, T2, T1, T in T3 by lia.
  cbn [app] in T3.
  destruct (executedFunction_state d2 (executedFunction d1 st2))
    as (T4 & N4 & P4 & R4 & O4).
  rewrite (O3 (db_timeout d2)) in T4 by congruence.
  rewrite Hc2 in T4 at 1. rewrite R2, T3 in T4. cbn [app] in T4.
  set (st4 := executedFunction d2 (executedFunction d1 st2)) in *.
  assert (O : orderly st4).
  { unfold orderly, cellsOwn. rewrite T4. split; [| split].
    - cbn [distinctIds]. split; [| split; [intros ? [] | exact I]].
      intros t [<- | []]. cbn [tm_id].
      rewrite executedFunction_nextTimer. lia.
    - intros t [<- | [<- | []]]; cbn [tm_due]; rewrite ?N3; lia.
    - intros t i [<- | [<- | []]] R; cbn [tm_later lt_timeout tm_id] in *; left.
      + rewrite <- Hc1 in R.
        rewrite (O4 (db_timeout d1)) in R by congruence. congruence.
      + congruence. }
  destruct (elapse_counts k st4 O) as (P & _).
  rewrite P, T4. cbn [List.filter]. unfold isDue. cbn [tm_due].
  rewrite N4, N3, Hw1, Hw2, P4, P3, P2, P1.
  destruct (Nat.ltb k w1) eqn:E1, (Nat.ltb k w2) eqn:E2;
    repeat match goal with
           | H : Nat.ltb _ _ = true |- _ => apply Nat.ltb_lt in H
           | H : Nat.ltb _ _ = false |- _ => apply Nat.ltb_ge in H
           end;
    repeat match goal with
           | |- context [Nat.leb ?a ?b] =>
               let L := fresh "L" in
               destruct (Nat.leb a b) eqn:L;
               [apply Nat.leb_le in L | apply Nat.leb_gt in L]
           end; cbn [length]; lia.
Qed.

End DebounceBehaviour.

(** ** Concrete instances: registration, set-up, timers *)

Section FurtherInstances.

Import EventLoop.

Lemma pass_only_appends_to_console_witness :
  debugMode (options (Sample.homeSystem Sample.quietOptions)) = false /\
  console
    (pageAfter
       (updateAllMarkers (Sample.homeSystem Sample.quietOptions)
          Sample.homeDocument)
       {| markers := []; console := ["earlier line"] |})
  = ["earlier line"].
Proof.
  split; [reflexivity |].
  destruct (pass_only_appends_to_console
              (Sample.homeSystem Sample.quietOptions) Sample.homeDocument
              {| markers := []; console := ["earlier line"] |})
    as (lines & E & Q & _).
  rewrite E, (Q eq_refl). reflexivity.
Defined.

Lemma registration_round_trip_witness :
  "2 1 home" <> "3 4 sell" /\
  getCurrentPageName Sample.homeDocument <> "3 4 sell" /\
  pageConfigs
    (fst (registerPageConfig (Sample.homeSystem Sample.debugOptions)
            Sample.homeDocument "3 4 sell" [Sample.banner] emptyPage))
    !! "2 1 home"
  = pageConfigs (Sample.homeSystem Sample.debugOptions) !! "2 1 home" /\
  snd (registerPageConfig (Sample.homeSystem Sample.debugOptions)
         Sample.homeDocument "3 4 sell" [Sample.banner] emptyPage)
  = (Normal tt, emptyPage).
Proof.
  assert (N1 : "2 1 home" <> "3 4 sell") by discriminate.
  assert (N2 : getCurrentPageName Sample.homeDocument <> "3 4 sell")
    by (vm_compute; discriminate).
  split; [exact N1 |]. split; [exact N2 |].
  destruct (registration_round_trip (Sample.homeSystem Sample.debugOptions)
              Sample.homeDocument "3 4 sell" [Sample.banner] [] emptyPage)
    as (_ & O & _ & _ & U).
  split; [exact (O "2 1 home" N1) | exact (U N2)].
Defined.

Lemma registered_entries_are_numbered_witness :
  [Fixture.titleSpec; Sample.banner] !! 0%nat = Some Fixture.titleSpec /\
  number Fixture.titleSpec = None /\
  exists stored el' n,
    pageConfigs
      (fst (registerPageConfig (Sample.homeSystem Sample.debugOptions)
              Sample.homeDocument "3 4 sell"
              [Fixture.titleSpec; Sample.banner] emptyPage))
      !! "3 4 sell" = Some stored /\
    stored !! 0%nat = Some el' /\
    number el' = Some n /\ n = 1.
Proof.
  split; [reflexivity |]. split; [reflexivity |].
  destruct (registered_entries_are_numbered
              (Sample.homeSystem Sample.debugOptions) Sample.homeDocument
              "3 4 sell" [Fixture.titleSpec; Sample.banner] emptyPage)
    as (stored & L & _ & H).
  destruct (H 0%nat Fixture.titleSpec eq_refl)
    as (el' & n & S0 & _ & _ & _ & Hn & _ & Hd & _).
  exists stored, el', n.
  split; [exact L |]. split; [exact S0 |]. split; [exact Hn |].
  exact (Hd (or_introl eq_refl)).
Defined.

Lemma setupPage_registers_defaults_witness :
  "2 1 home" <> sellPageName /\ "2 1 home" <> homePageName /\
  let '(this', _, _) :=
    setupPage
      {| ms_system := Sample.homeSystem Sample.debugOptions;
         ms_observers := [] |}
      Fixture.window Sample.homeDocument emptyPage in
  pageConfigs (ms_system this') !! "2 1 home"
  = pageConfigs (Sample.homeSystem Sample.debugOptions) !! "2 1 home".
Proof.
  assert (N1 : "2 1 home" <> sellPageName) by discriminate.
  assert (N2 : "2 1 home" <> homePageName) by discriminate.
  split; [exact N1 |]. split; [exact N2 |].
  pose proof (setupPage_registers_defaults
                {| ms_system := Sample.homeSystem Sample.debugOptions;
                   ms_observers := [] |}
                Fixture.window Sample.homeDocument emptyPage) as H.
  destruct (setupPage _ Fixture.window Sample.homeDocument emptyPage)
    as [[this' window'] [outcome page']].
  destruct H as (_ & _ & _ & O & _).
  exact (O "2 1 home" N1 N2).
Defined.

Lemma setup_then_destroy_restores_observers_witness :
  ~ In (nextObserver Fixture.window) (connected Fixture.window) /\
  let '(this1, window1, (_, page1)) :=
    setupPage (Fixture.fresh Sample.debugOptions) Fixture.window
      Sample.homeDocument emptyPage in
  let '(this2, window2, page2) := destroy this1 window1 page1 in
  connected window2 =
    List.filter
      (fun o => negb (existsb (Nat.eqb o)
                        (ms_observers (Fixture.fresh Sample.debugOptions))))
      (connected Fixture.window) /\
  markers page2 = [] /\
  ms_observers this2 = [].
Proof.
  assert (F : ~ In (nextObserver Fixture.window) (connected Fixture.window))
    by (intros []).
  split; [exact F |].
  exact (setup_then_destroy_restores_observers
           (Fixture.fresh Sample.debugOptions) Fixture.window
           Sample.homeDocument emptyPage F).
Defined.

Lemma debounced_call_runs_once_after_wait_witness :
  timers afterInit = [] /\ (0 < 250)%nat /\
  let '(d, st1) := debounce CallUpdateAllMarkers 250 afterInit in
  let st2 := executedFunction d st1 in
  passes (elapse 300 st2) =
    (if Nat.ltb 300 250 then passes afterInit else S (passes afterInit)) /\
  (250 <= 300 -> timers (elapse 300 st2) = [])%nat.
Proof.
  split; [reflexivity |].
  assert (W : (0 < 250)%nat) by lia.
  split; [exact W |].
  exact (debounced_call_runs_once_after_wait CallUpdateAllMarkers 250
           afterInit 300 eq_refl W).
Defined.

Lemma debounced_burst_runs_once_witness :
  timers afterInit = [] /\ (0 < 250)%nat /\
  Forall (fun g => g < 250)%nat [100; 0; 249]%nat /\
  let '(d, st1) := debounce CallUpdateAllMarkers 250 afterInit in
  let st2 := burst d [100; 0; 249]%nat (executedFunction d st1) in
  passes (elapse 250 st2) =
    (if Nat.ltb 250 250 then passes afterInit else S (passes afterInit)).
Proof.
  split; [reflexivity |].
  assert (W : (0 < 250)%nat) by lia.
  assert (G : Forall (fun g => g < 250)%nat [100; 0; 249]%nat)
    by (repeat constructor; lia).
  split; [exact W |]. split; [exact G |].
  exact (debounced_burst_runs_once CallUpdateAllMarkers 250 afterInit
           [100; 0; 249]%nat 250%nat eq_refl W G).
Defined.

Lemma separate_closures_do_not_coalesce_witness :
  timers afterInit = [] /\ (0 < 250)%nat /\
  let '(d1, st1) := debounce CallUpdateAllMarkers 250 afterInit in
  let '(d2, st2) := debounce CallUpdateAllMarkers 250 st1 in
  let st3 := executedFunction d2 (executedFunction d1 st2) in
  passes (elapse 250 st3) =
    (passes afterInit + (if Nat.ltb 250 250 then 0 else 1)
                      + (if Nat.ltb 250 250 then 0 else 1))%nat.
Proof.
  split; [reflexivity |].
  assert (W : (0 < 250)%nat) by lia.
  split; [exact W |].
  exact (separate_closures_do_not_coalesce CallUpdateAllMarkers
           CallUpdateAllMarkers 250 250 afterInit 250 eq_refl W W).
Defined.

End FurtherInstances.

(** ** The stand-alone script and the class *)

Section LegacyAgreement.

Local Open Scope Q_scope.



End LegacyAgreement.

(** ** The container of a pass *)

Section LeftPanel.

Variable this : System.
Variable document : Document.

(** C10 (as amended): [getLeftPanel] returns the match of the first of
    its candidate selectors that matches, in their order, and
    [document.body] when none matches; it is [null] exactly when no
    candidate matches and [document.body] is [null]. The update pass of a
    registered page takes the 'Left panel not found' branch in exactly
    that case; whenever a candidate matches or the document has a body a
    container is available, and the pass clears the markers and runs its
    loop over it. *)
Theorem left_panel_is_first_match_or_body (page : Page) :
  (forall before s after e,
     leftPanelSelectors = (before ++ s :: after)%list ->
     Forall (fun sel => querySelector document sel = None) before ->
     querySelector document s = Some e ->
     getLeftPanel document = Some e) /\
  (Forall (fun sel => querySelector document sel = None) leftPanelSelectors ->
   getLeftPanel document = body document) /\
  (getLeftPanel document = None <->
   Forall (fun sel => querySelector document sel = None) leftPanelSelectors /\
   body document = None) /\
  (forall config,
     pageConfigs this !! getCurrentPageName document = Some config ->
     match getLeftPanel document with
     | Some p =>
         updateAllMarkers this document page =
         (clearExistingMarkers;;
          forEach config (updateItem this document (Some p))) page
     | None =>
         updateAllMarkers this document page =
         log this "Left panel not found" page
     end).
Proof.
  assert (A : forall l,
             firstMatch document l = None <->
             Forall (fun sel => querySelector document sel = None) l).
  { induction l as [| sel l IH]; cbn [firstMatch].
    - split; [constructor | reflexivity].
    - destruct (querySelector document sel) eqn:E.
      + split; [discriminate |]. intros F. inversion F; congruence.
      + rewrite IH. split; [now constructor |]. intros F. now inversion F. }
  split; [| split; [| split]].
  - intros before s after e L Hb Hs. unfold getLeftPanel. rewrite L.
    rewrite (firstMatch_app_miss document before (s :: after) Hb).
    cbn [firstMatch]. now rewrite Hs.
  - intros F. unfold getLeftPanel. apply A in F. now rewrite F.
  - unfold getLeftPanel. rewrite <- A.
    destruct (firstMatch document leftPanelSelectors); split;
      try intros [? ?]; try split; congruence.
  - intros config H. unfold updateAllMarkers. rewrite H.
    now destruct (getLeftPanel document).
Qed.

End LeftPanel.

Section LeftPanelInstances.

(** On the home page [.left-panel] matches and wins over the body; with
    only a body, the body is the container; in both cases the pass runs
    its loop. *)
Lemma left_panel_is_first_match_or_body_witness :
  (leftPanelSelectors = ([] ++ ".left-panel" :: List.tl leftPanelSelectors)%list /\
   querySelector Sample.homeDocument ".left-panel" = Some Sample.leftPanel /\
   body Sample.homeDocument = Some (Sample.panel 0 0 1200 900) /\
   getLeftPanel Sample.homeDocument = Some Sample.leftPanel) /\
  (Forall (fun sel => querySelector Sample.bodyOnlyDocument sel = None)
     leftPanelSelectors /\
   getLeftPanel Sample.bodyOnlyDocument = Some (Sample.panel 0 0 1200 900)) /\
  (pageConfigs (Sample.homeSystem Sample.debugOptions)
     !! getCurrentPageName Sample.bodyOnlyDocument = Some Sample.homeSpecs /\
   updateAllMarkers (Sample.homeSystem Sample.debugOptions)
     Sample.bodyOnlyDocument emptyPage =
   (clearExistingMarkers;;
    forEach Sample.homeSpecs
      (updateItem (Sample.homeSystem Sample.debugOptions)
         Sample.bodyOnlyDocument (Some (Sample.panel 0 0 1200 900))))
     emptyPage).
Proof.
  split; [| split].
  - split; [reflexivity |]. split; [reflexivity |]. split; [reflexivity |].
    destruct (left_panel_is_first_match_or_body
                (Sample.homeSystem Sample.debugOptions) Sample.homeDocument
                emptyPage) as (F & _).
    exact (F [] ".left-panel" (List.tl leftPanelSelectors) Sample.leftPanel
             eq_refl (List.Forall_nil _) eq_refl).
  - assert (M : Forall (fun sel => querySelector Sample.bodyOnlyDocument sel = None)
                  leftPanelSelectors)
      by (repeat constructor).
    split; [exact M |].
    destruct (left_panel_is_first_match_or_body
                (Sample.homeSystem Sample.debugOptions)
                Sample.bodyOnlyDocument emptyPage) as (_ & B & _).
    exact (B M).
  - assert (H : pageConfigs (Sample.homeSystem Sample.debugOptions)
                  !! getCurrentPageName Sample.bodyOnlyDocument
                = Some Sample.homeSpecs) by (vm_compute; reflexivity).
    split; [exact H |].
    destruct (left_panel_is_first_match_or_body
                (Sample.homeSystem Sample.debugOptions)
                Sample.bodyOnlyDocument emptyPage) as (_ & _ & _ & R).
    exact (R Sample.homeSpecs H).
Defined.

End LeftPanelInstances.

(** ** The resolver in binary64 arithmetic *)

From Stdlib Require Import Qpower.

Section Binary64Rounding.

Local Open Scope Q_scope.
Import Binary64.

Lemma pow2_pos (e : Z) : 0 < 2 ^ e.
Proof. apply Qpower_0_lt. reflexivity. Qed.

Lemma pow2_succ (e : Z) : 2 ^ (e + 1) == 2 * 2 ^ e.
Proof.
  rewrite Qpower_plus by discriminate. rewrite Qpower_1_r. ring.
Qed.

Lemma pow2_of_Z (n : Z) : (0 <= n)%Z -> inject_Z (2 ^ n) == 2 ^ n.
Proof. intros H. now rewrite Zpower_Qpower. Qed.

(** Bounds of a positive integer by powers of two, in [Q]. *)
Lemma log2_bounds (p : Z) :
  (0 < p)%Z ->
  2 ^ Z.log2 p <= inject_Z p /\ inject_Z p < 2 * 2 ^ Z.log2 p.
Proof.
  intros H. destruct (Z.log2_spec p H) as [L U].
  pose proof (Z.log2_nonneg p) as N.
  split.
  - rewrite <- pow2_of_Z by exact N. now rewrite <- Zle_Qle.
  - rewrite <- pow2_succ. rewrite <- pow2_of_Z by lia.
    rewrite <- Zlt_Qlt. replace (Z.log2 p + 1)%Z with (Z.succ (Z.log2 p)) by lia.
    exact U.
Qed.

(** The arithmetic behind [log2floor]: [x = P / D] with [A <= P < 2A],
    [B <= D < 2B] and [t B = A]. *)
Lemma quotient_binade (x P D A B t : Q) :
  x * D == P -> t * B == A -> 0 < t -> 0 < B ->
  A <= P -> P < 2 * A -> B <= D -> D < 2 * B ->
  (t <= x -> x < 2 * t) /\ (x < t -> t <= 2 * x).
Proof.
  intros X T Tp Bp Lp Up Lq Uq. split.
  - intros E.
    destruct (Qlt_le_dec x (2 * t)) as [|G]; [assumption | exfalso].
    assert (2 * t * D <= x * D) by (apply Qmult_le_compat_r; lra).
    assert (t * B <= t * D) by (apply Qmult_le_l; lra).
    lra.
  - intros G.
    destruct (Qlt_le_dec (2 * x) t) as [C|]; [exfalso | assumption].
    assert (2 * x * D <= t * D) by (apply Qmult_le_compat_r; lra).
    assert (t * D < t * (2 * B)) by (apply Qmult_lt_l; lra).
    lra.
Qed.

Lemma log2floor_spec (x : Q) :
  0 < x -> 2 ^ log2floor x <= x /\ x < 2 ^ (log2floor x + 1).
Proof.
  intros Hx. unfold log2floor.
  destruct x as [p q]. cbn [Qnum Qden].
  assert (Hp : (0 < p)%Z).
  { unfold Qlt in Hx. cbn in Hx. lia. }
  destruct (log2_bounds p Hp) as [Lp Up].
  destruct (log2_bounds (Z.pos q) (Pos2Z.is_pos q)) as [Lq Uq].
  set (lp := Z.log2 p) in *. set (lq := Z.log2 (Z.pos q)) in *.
  assert (T : 2 ^ (lp - lq) * 2 ^ lq == 2 ^ lp).
  { rewrite <- Qpower_plus by discriminate.
    now replace (lp - lq + lq)%Z with lp by lia. }
  assert (X : (p # q) * inject_Z (Z.pos q) == inject_Z p).
  { rewrite (Qmake_Qdiv p q). field. discriminate. }
  destruct (quotient_binade _ _ _ _ _ _ X T (pow2_pos _) (pow2_pos _)
              Lp Up Lq Uq) as [Hi Lo].
  destruct (Qle_bool (2 ^ (lp - lq)) (p # q)) eqn:E.
  - apply Qle_bool_iff in E. split; [exact E |].
    rewrite pow2_succ. now apply Hi.
  - assert (G : p # q < 2 ^ (lp - lq)).
    { apply Qnot_le_lt. intros C. apply Qle_bool_iff in C. congruence. }
    replace (lp - lq - 1 + 1)%Z with (lp - lq)%Z by lia.
    split; [| exact G].
    assert (S : 2 * 2 ^ (lp - lq - 1) == 2 ^ (lp - lq)).
    { rewrite <- pow2_succ.
      now replace (lp - lq - 1 + 1)%Z with (lp - lq)%Z by lia. }
    specialize (Lo G). lra.
Qed.

Lemma log2floor_unique (x : Q) (e : Z) :
  2 ^ e <= x -> x < 2 ^ (e + 1) -> log2floor x = e.
Proof.
  intros L U.
  assert (Hx : 0 < x) by (pose proof (pow2_pos e); lra).
  destruct (log2floor_spec x Hx) as [L' U'].
  assert (2 ^ e < 2 ^ (log2floor x + 1)) as A by lra.
  assert (2 ^ log2floor x < 2 ^ (e + 1)) as B by lra.
  apply Qpower_lt_compat_l_inv in A; [| reflexivity].
  apply Qpower_lt_compat_l_inv in B; [| reflexivity].
  lia.
Qed.

Lemma log2floor_proper (x y : Q) :
  0 < x -> x == y -> log2floor x = log2floor y.
Proof.
  intros Hx E. symmetry. 
  destruct (log2floor_spec x Hx) as [L U].
  apply log2floor_unique; lra.
Qed.

Lemma nearestEven_proper (x y : Q) : x == y -> nearestEven x = nearestEven y.
Proof.
  intros E. unfold nearestEven.
  rewrite (Qfloor_comp _ _ E).
  rewrite (Qcompare_comp (x - inject_Z (Qfloor y)) (y - inject_Z (Qfloor y))
             (Qplus_comp _ _ E _ _ (Qeq_refl _)) _ _ (Qeq_refl (1 # 2))).
  reflexivity.
Qed.

Lemma nearestEven_integer (n : Z) : nearestEven (inject_Z n) = n.
Proof.
  unfold nearestEven. rewrite Qfloor_Z.
  destruct (Qcompare (inject_Z n - inject_Z n) (1 # 2)) eqn:C;
    [apply Qeq_alt in C | | apply Qgt_alt in C];
    try reflexivity; exfalso; lra.
Qed.

(** The nearest integer is within one half. *)
Lemma nearestEven_near (y : Q) :
  y - (1 # 2) <= inject_Z (nearestEven y) /\
  inject_Z (nearestEven y) <= y + (1 # 2).
Proof.
  unfold nearestEven.
  pose proof (Qfloor_le y) as L. pose proof (Qlt_floor y) as U.
  set (f := Qfloor y) in *.
  rewrite inject_Z_plus in U. change (inject_Z 1) with 1 in U.
  destruct (Qcompare (y - inject_Z f) (1 # 2)) eqn:C.
  - apply Qeq_alt in C. destruct (Z.even f).
    + lra.
    + rewrite inject_Z_plus. change (inject_Z 1) with 1. lra.
  - apply Qlt_alt in C. lra.
  - apply Qgt_alt in C. rewrite inject_Z_plus. change (inject_Z 1) with 1. lra.
Qed.

(** Rounding to the nearest integer stays between integer bounds. *)
Lemma nearestEven_between (y : Q) (n m : Z) :
  inject_Z n <= y -> y <= inject_Z m ->
  (n <= nearestEven y <= m)%Z.
Proof.
  intros L U. unfold nearestEven.
  pose proof (Qfloor_le y) as Fl. pose proof (Qlt_floor y) as Fu.
  assert (Fn : (n <= Qfloor y)%Z).
  { rewrite <- (Qfloor_Z n). now apply Qfloor_resp_le. }
  assert (Fm : (Qfloor y <= m)%Z).
  { rewrite <- (Qfloor_Z m). now apply Qfloor_resp_le. }
  set (f := Qfloor y) in *.
  assert (G : inject_Z f < y -> (f + 1 <= m)%Z).
  { intros G. assert (inject_Z f < inject_Z m) as K by lra.
    rewrite <- Zlt_Qlt in K. lia. }
  destruct (Qcompare (y - inject_Z f) (1 # 2)) eqn:C.
  - apply Qeq_alt in C. destruct (Z.even f); [lia |].
    split; [lia |]. apply G. lra.
  - lia.
  - apply Qgt_alt in C. split; [lia |]. apply G. lra.
Qed.

(** The scaled significand of a positive number lies in [2^52, 2^53). *)
Lemma significand_range (x : Q) :
  0 < x ->
  let s := (log2floor x - 52)%Z in
  x / 2 ^ s * 2 ^ s == x /\
  inject_Z (2 ^ 52) <= x / 2 ^ s /\ x / 2 ^ s < inject_Z (2 ^ 53).
Proof.
  intros Hx s.
  destruct (log2floor_spec x Hx) as [L U].
  pose proof (pow2_pos s) as Sp.
  assert (Y : x / 2 ^ s * 2 ^ s == x) by (field; lra).
  assert (E1 : inject_Z (2 ^ 52) * 2 ^ s == 2 ^ log2floor x).
  { rewrite pow2_of_Z by lia. rewrite <- Qpower_plus by discriminate.
    unfold s. now replace (52 + (log2floor x - 52))%Z with (log2floor x) by lia. }
  assert (E2 : inject_Z (2 ^ 53) * 2 ^ s == 2 ^ (log2floor x + 1)).
  { rewrite pow2_of_Z by lia. rewrite <- Qpower_plus by discriminate.
    unfold s.
    now replace (53 + (log2floor x - 52))%Z with (log2floor x + 1)%Z by lia. }
  split; [exact Y |]. split.
  - apply (Qmult_le_r _ _ (2 ^ s) Sp). lra.
  - apply (Qmult_lt_r _ _ (2 ^ s) Sp). lra.
Qed.

Lemma roundPositive_significand (x : Q) :
  0 < x ->
  (2 ^ 52 <= nearestEven (x / 2 ^ (log2floor x - 52)) <= 2 ^ 53)%Z.
Proof.
  intros Hx. destruct (significand_range x Hx) as (_ & L & U).
  apply nearestEven_between; lra.
Qed.

Lemma roundPositive_pos (x : Q) : 0 < x -> 0 < roundPositive x.
Proof.
  intros Hx. unfold roundPositive.
  pose proof (roundPositive_significand x Hx) as [L _].
  apply Qmult_lt_0_compat; [| apply pow2_pos].
  change 0 with (inject_Z 0). rewrite <- Zlt_Qlt. lia.
Qed.

Lemma roundPositive_proper (x y : Q) :
  0 < x -> x == y -> roundPositive x == roundPositive y.
Proof.
  intros Hx E. unfold roundPositive.
  rewrite <- (log2floor_proper x y Hx E).
  rewrite (nearestEven_proper (x / 2 ^ (log2floor x - 52))
             (y / 2 ^ (log2floor x - 52))).
  - reflexivity.
  - now apply Qmult_comp.
Qed.

(** A number with a 53-bit significand at its own exponent is kept. *)
Lemma roundPositive_exact (x : Q) (n : Z) :
  0 < x -> x == inject_Z n * 2 ^ (log2floor x - 52) ->
  roundPositive x == x.
Proof.
  intros Hx E. unfold roundPositive.
  pose proof (pow2_pos (log2floor x - 52)) as Sp.
  rewrite (nearestEven_proper _ (inject_Z n)).
  - rewrite nearestEven_integer. symmetry. exact E.
  - apply (Qmult_inj_r _ _ (2 ^ (log2floor x - 52))); [lra |].
    destruct (significand_range x Hx) as (Y & _). cbv zeta in Y. lra.
Qed.

Lemma roundPositive_idempotent (x : Q) :
  0 < x -> roundPositive (roundPositive x) == roundPositive x.
Proof.
  intros Hx.
  pose proof (roundPositive_pos x Hx) as Rp.
  pose proof (roundPositive_significand x Hx) as [L U].
  unfold roundPositive in *.
  set (e := log2floor x) in *.
  set (n := nearestEven (x / 2 ^ (e - 52))) in *.
  pose proof (pow2_pos (e - 52)) as Sp.
  assert (E1 : inject_Z (2 ^ 52) * 2 ^ (e - 52) == 2 ^ e).
  { rewrite pow2_of_Z by lia. rewrite <- Qpower_plus by discriminate.
    now replace (52 + (e - 52))%Z with e by lia. }
  assert (E2 : inject_Z (2 ^ 53) * 2 ^ (e - 52) == 2 ^ (e + 1)).
  { rewrite pow2_of_Z by lia. rewrite <- Qpower_plus by discriminate.
    now replace (53 + (e - 52))%Z with (e + 1)%Z by lia. }
  assert (Ln : inject_Z (2 ^ 52) <= inject_Z n) by (rewrite <- Zle_Qle; lia).
  assert (Lr : 2 ^ e <= inject_Z n * 2 ^ (e - 52)).
  { rewrite <- E1. apply Qmult_le_compat_r; lra. }
  destruct (Z.eq_dec n (2 ^ 53)%Z) as [N | N].
  - assert (R : inject_Z n * 2 ^ (e - 52) == 2 ^ (e + 1)) by (now rewrite N).
    assert (G : log2floor (inject_Z n * 2 ^ (e - 52)) = (e + 1)%Z).
    { apply log2floor_unique; [lra |].
      pose proof (pow2_succ (e + 1)) as S2. pose proof (pow2_pos (e + 1)). lra. }
    fold (roundPositive (inject_Z n * 2 ^ (e - 52))).
    apply (roundPositive_exact _ (2 ^ 52)); [exact Rp |].
    rewrite G. replace (e + 1 - 52)%Z with (e - 52 + 1)%Z by lia.
    rewrite pow2_succ. rewrite R. rewrite <- E2.
    change (2 ^ 53)%Z with (2 * 2 ^ 52)%Z. rewrite inject_Z_mult.
    change (inject_Z 2) with 2. ring.
  - assert (Un : inject_Z n + 1 <= inject_Z (2 ^ 53)).
    { change 1 with (inject_Z 1). rewrite <- inject_Z_plus.
      rewrite <- Zle_Qle. lia. }
    assert (G : log2floor (inject_Z n * 2 ^ (e - 52)) = e).
    { apply log2floor_unique; [lra |]. rewrite <- E2.
      apply Qmult_lt_compat_r; lra. }
    fold (roundPositive (inject_Z n * 2 ^ (e - 52))).
    apply (roundPositive_exact _ n); [exact Rp |].
    now rewrite G.
Qed.

(** The rounding error is at most half a unit in the last place. *)
Lemma roundPositive_error (x : Q) :
  0 < x ->
  let u := 2 ^ (log2floor x - 52) in
  x - u * (1 # 2) <= roundPositive x /\ roundPositive x <= x + u * (1 # 2).
Proof.
  intros Hx u. unfold roundPositive. fold u.
  pose proof (pow2_pos (log2floor x - 52)) as Up. fold u in Up.
  destruct (significand_range x Hx) as (Y & _). cbv zeta in Y. fold u in Y.
  destruct (nearestEven_near (x / u)) as [L U].
  set (n := inject_Z (nearestEven (x / u))) in *. clearbody n.
  assert ((x / u - (1 # 2)) * u <= n * u) by (apply Qmult_le_compat_r; lra).
  assert (n * u <= (x / u + (1 # 2)) * u) by (apply Qmult_le_compat_r; lra).
  set (y := x / u) in *. clearbody y u.
  lra.
Qed.

(** *** [fl] *)

Lemma fl_positive (x : Q) : 0 < x -> fl x = roundPositive x.
Proof.
  intros H. unfold fl.
  destruct (Qcompare x 0) eqn:C;
    [apply Qeq_alt in C | apply Qlt_alt in C |]; try reflexivity; exfalso; lra.
Qed.

Lemma fl_negative (x : Q) : x < 0 -> fl x = - roundPositive (- x).
Proof.
  intros H. unfold fl.
  destruct (Qcompare x 0) eqn:C;
    [apply Qeq_alt in C | | apply Qgt_alt in C]; try reflexivity; exfalso; lra.
Qed.

Lemma fl_zero (x : Q) : x == 0 -> fl x = 0.
Proof.
  intros H. unfold fl.
  destruct (Qcompare x 0) eqn:C;
    [| apply Qlt_alt in C | apply Qgt_alt in C]; try reflexivity; exfalso; lra.
Qed.

Lemma fl_proper (x y : Q) : x == y -> fl x == fl y.
Proof.
  intros E.
  destruct (Q_dec x 0) as [[N | P] | Z].
  - rewrite (fl_negative x N), (fl_negative y) by lra.
    apply Qopp_comp. apply roundPositive_proper; lra.
  - rewrite (fl_positive x P), (fl_positive y) by lra.
    now apply roundPositive_proper.
  - rewrite (fl_zero x Z), (fl_zero y) by lra. reflexivity.
Qed.

(** Every result of [fl] is a binary64 number: rounding it again changes
    nothing. *)
Lemma fl_idempotent (x : Q) : fl (fl x) == fl x.
Proof.
  destruct (Q_dec x 0) as [[N | P] | Z].
  - rewrite (fl_negative x N).
    assert (0 < - x) as P by lra.
    pose proof (roundPositive_pos _ P) as R.
    rewrite fl_negative by lra.
    apply Qopp_comp.
    rewrite (roundPositive_proper (- - roundPositive (- x))
               (roundPositive (- x))); [| lra | ring].
    now apply roundPositive_idempotent.
  - rewrite (fl_positive x P).
    rewrite fl_positive by now apply roundPositive_pos.
    now apply roundPositive_idempotent.
  - rewrite (fl_zero x Z). reflexivity.
Qed.

(** Below 2^52 the spacing of binary64 numbers is at most one half, so
    rounding moves a number by at most a quarter. *)
Lemma fl_error_below_2_52 (x : Q) :
  0 <= x -> x < inject_Z (2 ^ 52) ->
  x - (1 # 4) <= fl x /\ fl x <= x + (1 # 4).
Proof.
  intros L U.
  destruct (Qle_lt_or_eq _ _ L) as [P | Z].
  - rewrite (fl_positive x P).
    destruct (roundPositive_error x P) as [A B]. cbv zeta in A, B.
    destruct (log2floor_spec x P) as [Lx _].
    assert (E : (log2floor x < 52)%Z).
    { apply (Qpower_lt_compat_l_inv 2); [| reflexivity].
      rewrite <- (pow2_of_Z 52) by lia. lra. }
    assert (S : 2 ^ (log2floor x - 52) <= 2 ^ (-1)).
    { apply Qpower_le_compat_l; [lia | discriminate]. }
    change (2 ^ (-1)) with (1 # 2) in S.
    set (u := 2 ^ (log2floor x - 52)) in *. clearbody u. lra.
  - rewrite (fl_zero x) by lra. lra.
Qed.

Lemma log2floor_integer (z : Z) :
  (0 < z)%Z -> log2floor (inject_Z z) = Z.log2 z.
Proof.
  intros H. destruct (log2_bounds z H) as [L U].
  apply log2floor_unique; [exact L |]. now rewrite pow2_succ.
Qed.

(** Integers below 2^53 are binary64 numbers. *)
Lemma fl_integer (z : Z) :
  (0 <= z < 2 ^ 53)%Z -> fl (inject_Z z) == inject_Z z.
Proof.
  intros [L U].
  destruct (Z.eq_dec z 0%Z) as [-> | N]; [reflexivity |].
  assert (P : (0 < z)%Z) by lia.
  assert (Pq : 0 < inject_Z z).
  { change 0 with (inject_Z 0). now rewrite <- Zlt_Qlt. }
  rewrite (fl_positive _ Pq).
  assert (B : (Z.log2 z < 53)%Z) by (apply Z.log2_lt_pow2; lia).
  pose proof (Z.log2_nonneg z) as B0.
  apply (roundPositive_exact _ (z * 2 ^ (52 - Z.log2 z))); [exact Pq |].
  rewrite (log2floor_integer z P).
  rewrite inject_Z_mult, pow2_of_Z by lia.
  rewrite <- Qmult_assoc, <- Qpower_plus by discriminate.
  replace (52 - Z.log2 z + (Z.log2 z - 52))%Z with 0%Z by lia.
  change (2 ^ 0) with 1. ring.
Qed.

End Binary64Rounding.

Section Binary64Resolver.

Local Open Scope Q_scope.

Variable this : Options.

Lemma binary64_unfold (element leftPanel : Element) (config : MarkerSpec) :
  Binary64.calculateOptimalPosition this element leftPanel config =
  let c := Binary64.clampedPosition this element leftPanel config in
  {| pos_top := JsMath.round (Binary64.fl (fst c + scrollTop leftPanel));
     pos_left := JsMath.round (Binary64.fl (snd c + scrollLeft leftPanel)) |}.
Proof.
  unfold Binary64.calculateOptimalPosition.
  now destruct (Binary64.clampedPosition this element leftPanel config).
Qed.

(** The bounds check does not read the scroll offsets. *)
Lemma binary64_clamped_ignores_scroll (element leftPanel : Element)
    (config : MarkerSpec) (top left : Q) :
  Binary64.clampedPosition this element (withScroll leftPanel top left) config =
  Binary64.clampedPosition this element leftPanel config.
Proof. reflexivity. Qed.

(** Both coordinates leave the switch as binary64 numbers. *)
Lemma binary64_adjusted_representable (element leftPanel : Element)
    (config : MarkerSpec) :
  let a := Binary64.adjustedPosition this element leftPanel config in
  Binary64.fl (fst a) == fst a /\ Binary64.fl (snd a) == snd a.
Proof.
  unfold Binary64.adjustedPosition, Binary64.add, Binary64.sub, Binary64.div.
  cbv zeta.
  repeat match goal with
         | |- context [if ?b then _ else _] => destruct b
         end;
    cbn [fst snd]; split; apply fl_idempotent.
Qed.

(** A clamped binary64 number is a binary64 number, and not negative. *)
Lemma binary64_clamp_representable (x hi : Q) :
  Binary64.fl x == x -> Binary64.fl hi == hi ->
  let c := JsMath.max 0 (JsMath.min x hi) in
  0 <= c /\ Binary64.fl c == c.
Proof.
  intros Hx Hh c. split; [apply max_lower |].
  unfold c, JsMath.max, JsMath.min.
  destruct (Qle_bool x hi);
    match goal with |- context [if ?b then _ else _] => destruct b end;
    try assumption; reflexivity.
Qed.

Lemma binary64_clamped_representable (element leftPanel : Element)
    (config : MarkerSpec) :
  let c := Binary64.clampedPosition this element leftPanel config in
  (0 <= fst c /\ Binary64.fl (fst c) == fst c) /\
  (0 <= snd c /\ Binary64.fl (snd c) == snd c).
Proof.
  unfold Binary64.clampedPosition.
  destruct (binary64_adjusted_representable element leftPanel config)
    as [T L]. cbv zeta in T, L.
  destruct (Binary64.adjustedPosition this element leftPanel config)
    as [t l]. cbn [fst snd] in *.
  split; apply binary64_clamp_representable; try assumption;
    apply fl_idempotent.
Qed.

(** Rounding a number moved by at most a quarter changes the result by
    at most one. *)
Lemma round_near (x y : Q) :
  x - (1 # 4) <= y -> y <= x + (1 # 4) ->
  (JsMath.round x - 1 <= JsMath.round y <= JsMath.round x + 1)%Z.
Proof.
  intros L U.
  pose proof (round_shift x (-1)) as S1.
  pose proof (round_shift x 1) as S2.
  assert (A : (JsMath.round (x + inject_Z (-1)) <= JsMath.round y)%Z).
  { apply round_monotone. change (inject_Z (-1)) with (-1). lra. }
  assert (B : (JsMath.round y <= JsMath.round (x + inject_Z 1))%Z).
  { apply round_monotone. change (inject_Z 1) with 1. lra. }
  lia.
Qed.

(** C3 (as amended): in binary64 arithmetic the scroll offset is added to
    the clamped coordinate, the sum is rounded to a binary64 number and
    then to an integer, and no bound is checked again. With
    containerScroll {top: 50, left: 0} the left coordinate is the one of
    the unscrolled case; the top coordinate is exactly 50 greater
    whenever the binary64 sum of the clamped coordinate and 50 is exact,
    as it is when the clamped coordinate is an integer below 2^53 - 50,
    and in any case within one unit of that while the sum stays below
    2^52. *)
Theorem scroll_shift_in_binary64 (element leftPanel : Element)
    (config : MarkerSpec) :
  let c := Binary64.clampedPosition this element leftPanel config in
  let unscrolled :=
    Binary64.calculateOptimalPosition this element
      (withScroll leftPanel 0 0) config in
  let scrolled :=
    Binary64.calculateOptimalPosition this element
      (withScroll leftPanel 50 0) config in
  pos_left scrolled = pos_left unscrolled /\
  pos_top unscrolled = JsMath.round (fst c) /\
  pos_top scrolled = JsMath.round (Binary64.fl (fst c + 50)) /\
  (Binary64.fl (fst c + 50) == fst c + 50 ->
   pos_top scrolled = (pos_top unscrolled + 50)%Z) /\
  (forall k : Z,
     fst c == inject_Z k -> (k + 50 < 2 ^ 53)%Z ->
     pos_top scrolled = (pos_top unscrolled + 50)%Z) /\
  (fst c + 50 < inject_Z (2 ^ 52) ->
   (pos_top unscrolled + 49 <= pos_top scrolled <= pos_top unscrolled + 51)%Z).
Proof.
  intros c unscrolled scrolled.
  destruct (binary64_clamped_representable element leftPanel config)
    as [[Pos Rep] _]. fold c in Pos, Rep.
  assert (E0 : pos_top unscrolled = JsMath.round (fst c)).
  { unfold unscrolled. rewrite binary64_unfold. cbv zeta.
    rewrite binary64_clamped_ignores_scroll. fold c. cbn [pos_top scrollTop withScroll].
    apply round_proper. rewrite <- Rep at 2. apply fl_proper. ring. }
  assert (E1 : pos_top scrolled = JsMath.round (Binary64.fl (fst c + 50))).
  { unfold scrolled. rewrite binary64_unfold. cbv zeta.
    rewrite binary64_clamped_ignores_scroll. reflexivity. }
  split.
  { unfold scrolled, unscrolled. rewrite !binary64_unfold. reflexivity. }
  assert (Ex : Binary64.fl (fst c + 50) == fst c + 50 ->
               pos_top scrolled = (pos_top unscrolled + 50)%Z).
  { intros Exact. rewrite E1, E0.
    rewrite (round_proper _ _ Exact). apply (round_shift (fst c) 50). }
  split; [exact E0 |]. split; [exact E1 |]. split; [exact Ex |]. split.
  - intros k Hk Hb. apply Ex.
    assert (K : (0 <= k)%Z).
    { rewrite Zle_Qle. change (inject_Z 0) with 0. now rewrite <- Hk. }
    assert (S : fst c + 50 == inject_Z (k + 50)).
    { rewrite inject_Z_plus, Hk. reflexivity. }
    rewrite (fl_proper _ _ S), S. apply fl_integer. lia.
  - intros Small. rewrite E1, E0.
    destruct (fl_error_below_2_52 (fst c + 50)) as [L U]; [lra | exact Small |].
    pose proof (round_near (fst c + 50) _ L U) as N.
    pose proof (round_shift (fst c) 50) as S.
    change (inject_Z 50) with 50 in S. rewrite S in N. lia.
Qed.

End Binary64Resolver.

(** C3, refuted as stated: an anchor whose top is the binary64 number
    16.4, in a panel whose top is the binary64 number 0.9, with offset 8.
    The clamped top is 7.499999999999998, rounded to 7 without scroll;
    the binary64 sum with 50 is 57.5, rounded to 58, which is 51 more. *)
Lemma scroll_shift_binary64_counterexample :
  let config := Sample.spec (Some "top-left") in
  let unscrolled :=
    Binary64.calculateOptimalPosition Sample.debugOptions Binary64.anchor
      (withScroll Binary64.panel 0 0) config in
  let scrolled :=
    Binary64.calculateOptimalPosition Sample.debugOptions Binary64.anchor
      (withScroll Binary64.panel 50 0) config in
  unscrolled = {| pos_top := 7; pos_left := 12 |} /\
  scrolled = {| pos_top := 58; pos_left := 12 |} /\
  pos_top scrolled <> (pos_top unscrolled + 50)%Z.
Proof. vm_compute. repeat split; discriminate. Qed.

(** The scrolled sum is not checked against the bounds in binary64
    either. *)
Lemma binary64_scroll_not_reclamped_example :
  pos_top
    (Binary64.calculateOptimalPosition Sample.debugOptions
       (Sample.box 790 20 100 40) (withScroll Sample.leftPanel 50 0)
       (Sample.spec (Some "top-left"%string))) = (800 - 24 + 50)%Z.
Proof. vm_compute. reflexivity. Qed.

Lemma scroll_shift_in_binary64_witness :
  let config := Sample.spec (Some "center") in
  (pos_top (Binary64.calculateOptimalPosition Sample.debugOptions Sample.button
              (withScroll Sample.leftPanel 50 0) config) =
   pos_top (Binary64.calculateOptimalPosition Sample.debugOptions Sample.button
              (withScroll Sample.leftPanel 0 0) config) + 50)%Z /\
  (pos_top (Binary64.calculateOptimalPosition Sample.debugOptions Binary64.anchor
              (withScroll Binary64.panel 0 0) config) + 49 <=
   pos_top (Binary64.calculateOptimalPosition Sample.debugOptions Binary64.anchor
              (withScroll Binary64.panel 50 0) config) <=
   pos_top (Binary64.calculateOptimalPosition Sample.debugOptions Binary64.anchor
              (withScroll Binary64.panel 0 0) config) + 51)%Z.
Proof.
  split.
  - apply (scroll_shift_in_binary64 Sample.debugOptions Sample.button
             Sample.leftPanel (Sample.spec (Some "center"))).
    vm_compute. reflexivity.
  - apply (scroll_shift_in_binary64 Sample.debugOptions Binary64.anchor
             Binary64.panel (Sample.spec (Some "center"))).
    vm_compute. reflexivity.
Defined.

(** ** The live document *)

Section LivePass.

Variable this : System.
Variable document : Live.LiveDocument.

Lemma live_bind_run {A B} (m : Live.LM A) (k : A -> Live.LM B)
    (page : Live.LivePage) :
  (m ≫= k) page =
  match m page with
  | (Normal a, page') => k a page'
  | (Throw e, page') => (Throw e, page')
  end.
Proof. reflexivity. Qed.

(** Queries read the document and change nothing; what they find is
    what a static query finds in the document with the markers of the
    moment. *)
Lemma live_firstMatch_run (l : list string) (page : Live.LivePage) :
  exists r,
    Live.firstMatch document l page = (Normal r, page) /\
    option_map Live.node_element r =
    firstMatch (Live.snapshotAt document (Live.attached page)) l.
Proof.
  induction l as [| sel rest IH].
  - exists None. now split.
  - cbn [Live.firstMatch firstMatch]. rewrite live_bind_run.
    unfold Live.querySelector at 1.
    cbn [Live.snapshotAt querySelector].
    destruct (Live.live_querySelector document (Live.attached page) sel)
      as [n |].
    + exists (Some n). now split.
    + exact IH.
Qed.

Lemma live_findElement_run (sel : Selector) (page : Live.LivePage) :
  exists r,
    Live.findElement document sel page = (Normal r, page) /\
    option_map Live.node_element r =
    findElement (Live.snapshotAt document (Live.attached page)) sel.
Proof.
  destruct sel as [s | l |].
  - exists (Live.live_querySelector document (Live.attached page) s).
    split; [reflexivity |]. cbn [findElement Live.snapshotAt querySelector].
    now destruct (Live.live_querySelector document (Live.attached page) s).
  - apply live_firstMatch_run.
  - exists None. now split.
Qed.

Lemma live_getLeftPanel_run (page : Live.LivePage) :
  exists r,
    Live.getLeftPanel document page = (Normal r, page) /\
    option_map Live.node_element r =
    getLeftPanel (Live.snapshotAt document (Live.attached page)).
Proof.
  unfold Live.getLeftPanel, getLeftPanel. rewrite live_bind_run.
  destruct (live_firstMatch_run leftPanelSelectors page) as (r & Hr & Er).
  rewrite Hr, <- Er. destruct r as [n |].
  - exists (Some n). now split.
  - exists (Live.bodyNode document). split; [reflexivity |].
    cbn [option_map Live.snapshotAt body]. unfold Live.bodyNode.
    now destruct (Live.live_body document).
Qed.

Lemma live_log_run (message : string) (page : Live.LivePage) :
  exists page',
    Live.log this message page = (Normal tt, page') /\
    Live.attached page' = Live.attached page /\
    Live.detached page' = Live.detached page /\
    Live.created page' = Live.created page /\
    Live.passes page' = Live.passes page /\
    Live.live_console page' = (Live.live_console page ++ logLine this message)%list.
Proof.
  unfold Live.log, logLine. destruct (debugMode (options this)).
  - eexists. split; [reflexivity |]. now repeat split.
  - exists page. rewrite app_nil_r. now repeat split.
Qed.

(** One entry of the registry, with a container at hand: no exception,
    and the pass counter stays. *)
Lemma live_updateItem_completes (p : Live.Node) (item : MarkerSpec)
    (page : Live.LivePage) :
  exists page',
    Live.updateItem this document (Some p) item page = (Normal tt, page') /\
    Live.passes page' = Live.passes page.
Proof.
  unfold Live.updateItem. rewrite live_bind_run.
  destruct (live_findElement_run (selector item) page) as (r & Hr & _).
  rewrite Hr. destruct r as [e |].
  - cbn [Live.invokeCalculateOptimalPosition]. rewrite live_bind_run.
    cbn [Live.ret]. unfold Live.createMarker. rewrite live_bind_run.
    cbn [Live.createElement]. rewrite live_bind_run.
    cbn [Live.appendChild].
    match goal with
    | |- context [Live.inDocument ?pg ?r] => destruct (Live.inDocument pg r)
    end;
      match goal with
      | |- context [Live.log this ?msg ?pg] =>
          destruct (live_log_run msg pg) as (page' & Hl & _ & _ & _ & Hp & _)
      end;
      rewrite Hl; exists page'; split; try reflexivity; exact Hp.
  - destruct (live_log_run
                ("Element not found: " +:+ showSelector (selector item)) page)
      as (page' & Hl & _ & _ & _ & Hp & _).
    exists page'. now split.
Qed.

Lemma live_forEach_completes (p : Live.Node) (config : list MarkerSpec)
    (page : Live.LivePage) :
  exists page',
    Live.forEach config (Live.updateItem this document (Some p)) page =
    (Normal tt, page') /\
    Live.passes page' = Live.passes page.
Proof.
  revert page. induction config as [| item rest IH]; intros page.
  - exists page. now split.
  - cbn [Live.forEach]. rewrite live_bind_run.
    destruct (live_updateItem_completes p item page) as (page1 & H1 & P1).
    rewrite H1. destruct (IH page1) as (page2 & H2 & P2).
    exists page2. split; [exact H2 | congruence].
Qed.

(** A pass never raises an exception, and it is counted once. *)
Lemma live_pass_completes (page : Live.LivePage) :
  fst (Live.updateAllMarkers this document page) = Normal tt /\
  Live.passes (snd (Live.updateAllMarkers this document page)) =
  S (Live.passes page).
Proof.
  unfold Live.updateAllMarkers. rewrite live_bind_run.
  cbn [Live.countPass].
  set (page0 := {| Live.attached := Live.attached page;
                   Live.detached := Live.detached page;
                   Live.created := Live.created page;
                   Live.live_console := Live.live_console page;
                   Live.passes := S (Live.passes page) |}).
  change (S (Live.passes page)) with (Live.passes page0).
  destruct (pageConfigs this !! Live.currentPageName document) as [config |].
  - rewrite live_bind_run.
    destruct (live_getLeftPanel_run page0) as (r & Hr & _). rewrite Hr.
    destruct r as [p |].
    + rewrite live_bind_run. cbn [Live.clearExistingMarkers].
      match goal with
      | |- context [Live.forEach config ?f ?pg] =>
          destruct (live_forEach_completes p config pg) as (page' & H & P)
      end.
      rewrite H. now split.
    + destruct (live_log_run "Left panel not found" page0)
        as (page' & Hl & _ & _ & _ & Hp & _).
      rewrite Hl. now split.
  - match goal with
    | |- context [Live.log this ?msg ?pg] =>
        destruct (live_log_run msg pg) as (page' & Hl & _ & _ & _ & Hp & _)
    end.
    rewrite Hl. now split.
Qed.

(** The branch a pass takes on a registered page is decided by what
    [getLeftPanel] finds in the document that still holds the markers of
    the pass before. *)
Lemma live_pass_branches (config : list MarkerSpec) (page : Live.LivePage) :
  pageConfigs this !! Live.currentPageName document = Some config ->
  let counted := snd (Live.countPass page) in
  match getLeftPanel (Live.snapshotAt document (Live.attached page)) with
  | Some _ =>
      exists p,
        Live.getLeftPanel document counted = (Normal (Some p), counted) /\
        Live.updateAllMarkers this document page =
        (Live.clearExistingMarkers;;
         Live.forEach config (Live.updateItem this document (Some p)))
          counted
  | None =>
      Live.updateAllMarkers this document page =
      Live.log this "Left panel not found" counted
  end.
Proof.
  intros H counted. unfold Live.updateAllMarkers.
  rewrite live_bind_run. cbn [Live.countPass]. rewrite H.
  rewrite live_bind_run.
  destruct (live_getLeftPanel_run counted) as (r & Hr & Er).
  change (Live.attached counted) with (Live.attached page) in Er.
  fold counted. rewrite <- Er. unfold counted in Hr |- *.
  cbn [Live.countPass snd] in Hr |- *. rewrite Hr.
  destruct r as [p |]; cbn [option_map]; [| reflexivity].
  exists p. now split.
Qed.

End LivePass.

(** *** Pages on which no marker is in the way of the selectors *)

Section LiveSimulation.

Variable this : System.
Variable document : Live.LiveDocument.

Lemma unaffected_incl (sels sels' : list string) :
  (forall s, In s sels' -> In s sels) ->
  Live.unaffected document sels -> Live.unaffected document sels'.
Proof. intros Hi Hu s Hs. apply Hu, Hi, Hs. Qed.

Lemma snapshot_firstMatch (l : list string) (ms : list Live.LiveMarker) :
  Live.unaffected document l ->
  firstMatch (Live.snapshotAt document ms) l = firstMatch (Live.snapshotAt document []) l.
Proof.
  induction l as [| sel rest IH]; intros Hu; [reflexivity |].
  cbn [firstMatch Live.snapshotAt querySelector].
  rewrite (proj1 (Hu sel (or_introl eq_refl)) ms).
  destruct (Live.live_querySelector document [] sel); [reflexivity |].
  apply IH. apply (unaffected_incl (sel :: rest)); [| exact Hu].
  intros s Hs. now right.
Qed.

Lemma snapshot_findElement (sel : Selector) (ms : list Live.LiveMarker) :
  Live.unaffected document (Live.selectorStrings sel) ->
  findElement (Live.snapshotAt document ms) sel = findElement (Live.snapshotAt document []) sel.
Proof.
  destruct sel as [s | l |]; intros Hu; [| now apply snapshot_firstMatch |
                                         reflexivity].
  cbn [findElement Live.snapshotAt querySelector].
  now rewrite (proj1 (Hu s (or_introl eq_refl)) ms).
Qed.

Lemma snapshot_getLeftPanel (ms : list Live.LiveMarker) :
  Live.unaffected document leftPanelSelectors ->
  getLeftPanel (Live.snapshotAt document ms) = getLeftPanel (Live.snapshotAt document []).
Proof.
  intros Hu. unfold getLeftPanel. now rewrite (snapshot_firstMatch _ ms Hu).
Qed.

(** What such selectors find is a node of the loaded page. *)
Lemma live_firstMatch_static (l : list string) (page : Live.LivePage)
    (n : Live.Node) :
  Live.unaffected document l ->
  fst (Live.firstMatch document l page) = Normal (Some n) ->
  exists id, Live.node_ref n = Live.StaticNode id.
Proof.
  induction l as [| sel rest IH]; intros Hu H; [discriminate |].
  cbn [Live.firstMatch] in H. rewrite live_bind_run in H.
  unfold Live.querySelector at 1 in H.
  destruct (Hu sel (or_introl eq_refl)) as [Hq Hs].
  destruct (Live.live_querySelector document (Live.attached page) sel)
    as [e |] eqn:E.
  - cbn in H. injection H as <-. apply Hs.
    now rewrite <- (Hq (Live.attached page)).
  - apply IH; [| exact H].
    apply (unaffected_incl (sel :: rest)); [| exact Hu].
    intros s Hs'. now right.
Qed.

Lemma live_getLeftPanel_static (page : Live.LivePage) (n : Live.Node) :
  Live.unaffected document leftPanelSelectors ->
  fst (Live.getLeftPanel document page) = Normal (Some n) ->
  exists id, Live.node_ref n = Live.StaticNode id.
Proof.
  intros Hu H. unfold Live.getLeftPanel in H. rewrite live_bind_run in H.
  destruct (live_firstMatch_run document leftPanelSelectors page)
    as (r & Hr & _).
  pose proof (live_firstMatch_static leftPanelSelectors page) as S.
  rewrite Hr in H, S. destruct r as [e |].
  - cbn in H. injection H as <-. now apply S.
  - cbn in H. unfold Live.bodyNode in H.
    destruct (Live.live_body document) as [b |]; [| discriminate].
    injection H as <-. now exists (el_id b).
Qed.

Lemma live_log_simulation (message : string) (page : Live.LivePage) :
  Live.observe (Live.log this message page) =
  log this message (Live.project page).
Proof.
  unfold Live.observe, Live.log, log.
  now destruct (debugMode (options this)).
Qed.

(** One entry, appended to a node of the loaded page. *)
Lemma live_updateItem_simulation (p : Live.Node) (id : nat)
    (item : MarkerSpec) (page : Live.LivePage) :
  Live.node_ref p = Live.StaticNode id ->
  Live.unaffected document (Live.selectorStrings (selector item)) ->
  Live.observe (Live.updateItem this document (Some p) item page) =
  updateItem this (Live.snapshotAt document []) (Some (Live.node_element p)) item
    (Live.project page) /\
  (forall m, In m (Live.attached
                     (snd (Live.updateItem this document (Some p) item page))) ->
             In m (Live.attached page) \/ Live.lm_parent m = Live.node_ref p).
Proof.
  intros Hp Hu. unfold Live.updateItem, updateItem.
  rewrite live_bind_run.
  destruct (live_findElement_run document (selector item) page)
    as (r & Hr & Er).
  rewrite Hr. rewrite (snapshot_findElement (selector item) (Live.attached page) Hu) in Er. rewrite <- Er.
  destruct r as [e |]; cbn [option_map truthy].
  - unfold Live.observe, Live.createMarker, createMarker, Live.log, log,
      Live.project.
    cbv [mbind Live.LM_bind Live.bind M_bind bind Live.createElement
         Live.appendChild appendChild Live.invokeCalculateOptimalPosition
         invokeCalculateOptimalPosition Live.ret ret].
    rewrite Hp. cbn [Live.inDocument].
    destruct (debugMode (options this));
      cbn [fst snd Live.attached Live.live_console markers console];
      rewrite map_app; (split; [reflexivity |]);
      intros m Hm; apply in_app_or in Hm; destruct Hm as [Hm | [<- | []]];
      auto.
  - split; [apply live_log_simulation |].
    intros m Hm. left.
    destruct (live_log_run this
                ("Element not found: " +:+ showSelector (selector item)) page)
      as (page' & Hl & Ha & _).
    rewrite Hl in Hm. cbn [snd] in Hm. now rewrite Ha in Hm.
Qed.

Lemma live_forEach_simulation (p : Live.Node) (id : nat)
    (config : list MarkerSpec) (page : Live.LivePage) :
  Live.node_ref p = Live.StaticNode id ->
  Live.unaffected document
    (flat_map (fun item => Live.selectorStrings (selector item)) config) ->
  Live.observe
    (Live.forEach config (Live.updateItem this document (Some p)) page) =
  forEach config (updateItem this (Live.snapshotAt document []) (Some (Live.node_element p)))
    (Live.project page) /\
  (forall m,
     In m (Live.attached
             (snd (Live.forEach config
                     (Live.updateItem this document (Some p)) page))) ->
     In m (Live.attached page) \/ Live.lm_parent m = Live.node_ref p).
Proof.
  intros Hp. revert page.
  induction config as [| item rest IH]; intros page Hu.
  - split; [reflexivity | auto].
  - cbn [Live.forEach forEach]. rewrite live_bind_run, bind_run.
    assert (Hi : Live.unaffected document
                   (Live.selectorStrings (selector item))).
    { apply (unaffected_incl _ _ (fun s Hs => in_or_app _ _ s (or_introl Hs))
               Hu). }
    assert (Hr : Live.unaffected document
                   (flat_map (fun item => Live.selectorStrings (selector item))
                      rest)).
    { apply (unaffected_incl _ _ (fun s Hs => in_or_app _ _ s (or_intror Hs))
               Hu). }
    destruct (live_updateItem_simulation p id item page Hp Hi) as [S1 P1].
    destruct (live_updateItem_completes this document p item page)
      as (page1 & H1 & _).
    rewrite H1 in S1, P1 |- *. unfold Live.observe in S1. cbn [fst snd] in S1, P1.
    rewrite <- S1.
    destruct (IH page1 Hr) as [S2 P2].
    split; [exact S2 |].
    intros m Hm. destruct (P2 m Hm) as [Hm' | Hm']; [| now right].
    now apply P1.
Qed.

(** On such a page the live pass and the pass over the unchanging
    snapshot agree on the markers in the document, on the console and on
    the outcome; the markers hang in a node of the loaded page. *)
Lemma live_pass_simulation (page : Live.LivePage) :
  (forall config,
     pageConfigs this !! Live.currentPageName document = Some config ->
     Live.unaffected document (Live.queried config)) ->
  Live.observe (Live.updateAllMarkers this document page) =
  updateAllMarkers this (Live.snapshotAt document []) (Live.project page).
Proof.
  intros Hu. unfold Live.updateAllMarkers, updateAllMarkers.
  rewrite live_bind_run. cbn [Live.countPass].
  set (page0 := {| Live.attached := Live.attached page;
                   Live.detached := Live.detached page;
                   Live.created := Live.created page;
                   Live.live_console := Live.live_console page;
                   Live.passes := S (Live.passes page) |}).
  change (Live.project page) with (Live.project page0).
  change (getCurrentPageName (Live.snapshotAt document [])) with (Live.currentPageName document).
  destruct (pageConfigs this !! Live.currentPageName document)
    as [config |] eqn:H; [| apply live_log_simulation].
  specialize (Hu config eq_refl).
  assert (Hl : Live.unaffected document leftPanelSelectors).
  { apply (unaffected_incl _ _ (fun s Hs => in_or_app _ _ s (or_introl Hs))
             Hu). }
  assert (Hc : Live.unaffected document
                 (flat_map (fun item => Live.selectorStrings (selector item))
                    config)).
  { apply (unaffected_incl _ _ (fun s Hs => in_or_app _ _ s (or_intror Hs))
             Hu). }
  rewrite live_bind_run.
  destruct (live_getLeftPanel_run document page0) as (r & Hr & Er).
  pose proof (live_getLeftPanel_static page0) as St.
  rewrite Hr in St |- *. rewrite (snapshot_getLeftPanel (Live.attached page0) Hl) in Er.
  rewrite <- Er. destruct r as [p |]; cbn [option_map truthy negb].
  - destruct (St p Hl eq_refl) as [id Hp].
    rewrite live_bind_run, bind_run.
    cbn [Live.clearExistingMarkers clearExistingMarkers].
    match goal with
    | |- Live.observe (Live.forEach config _ ?pg) = _ =>
        destruct (live_forEach_simulation p id config pg Hp Hc) as [S _]
    end.
    exact S.
  - apply live_log_simulation.
Qed.

End LiveSimulation.

Section LiveRendering.

Variable this : System.
Variable document : Live.LiveDocument.

Lemma live_pass_project (page : Live.LivePage) :
  (forall config,
     pageConfigs this !! Live.currentPageName document = Some config ->
     Live.unaffected document (Live.queried config)) ->
  Live.project (Live.pageAfter (Live.updateAllMarkers this document) page) =
  pageAfter (updateAllMarkers this (Live.snapshotAt document []))
    (Live.project page).
Proof.
  intros Hu. pose proof (live_pass_simulation this document page Hu) as S.
  apply (f_equal snd) in S. exact S.
Qed.


(** The markers of such a pass hang in a node of the loaded page. *)
Lemma live_pass_parents (config : list MarkerSpec) (p : Element)
    (page : Live.LivePage) :
  pageConfigs this !! Live.currentPageName document = Some config ->
  Live.unaffected document (Live.queried config) ->
  getLeftPanel (Live.snapshotAt document []) = Some p ->
  Forall (fun m => exists id, Live.lm_parent m = Live.StaticNode id)
    (Live.attached
       (Live.pageAfter (Live.updateAllMarkers this document) page)).
Proof.
  intros H Hu Hp. unfold Live.pageAfter, Live.updateAllMarkers.
  rewrite live_bind_run. cbn [Live.countPass]. rewrite H.
  set (page0 := {| Live.attached := Live.attached page;
                   Live.detached := Live.detached page;
                   Live.created := Live.created page;
                   Live.live_console := Live.live_console page;
                   Live.passes := S (Live.passes page) |}).
  assert (Hl : Live.unaffected document leftPanelSelectors).
  { apply (unaffected_incl document _ _
             (fun s Hs => in_or_app _ _ s (or_introl Hs)) Hu). }
  assert (Hc : Live.unaffected document
                 (flat_map (fun item => Live.selectorStrings (selector item))
                    config)).
  { apply (unaffected_incl document _ _
             (fun s Hs => in_or_app _ _ s (or_intror Hs)) Hu). }
  rewrite live_bind_run.
  destruct (live_getLeftPanel_run document page0) as (r & Hr & Er).
  pose proof (live_getLeftPanel_static document page0) as St.
  rewrite Hr in St |- *.
  rewrite (snapshot_getLeftPanel document (Live.attached page0) Hl), Hp in Er.
  destruct r as [n |]; [| discriminate].
  destruct (St n Hl eq_refl) as [id Hn].
  rewrite live_bind_run. cbn [Live.clearExistingMarkers].
  match goal with
  | |- context [Live.forEach config _ ?pg] =>
      destruct (live_forEach_simulation this document n id config pg Hn Hc)
        as [_ P]
  end.
  apply List.Forall_forall. intros m Hm.
  destruct (P m Hm) as [[] | Hm']. exists id. congruence.
Qed.

(** The markers such a pass leaves in the document are those of the pass
    over the snapshot. *)
Lemma live_pass_markers (config : list MarkerSpec) (p : Element)
    (page : Live.LivePage) :
  pageConfigs this !! Live.currentPageName document = Some config ->
  Live.unaffected document (Live.queried config) ->
  getLeftPanel (Live.snapshotAt document []) = Some p ->
  map Live.lm_marker
    (Live.attached
       (Live.pageAfter (Live.updateAllMarkers this document) page)) =
  flat_map (itemMarkers this (Live.snapshotAt document []) p) config.
Proof.
  intros H Hu Hp.
  assert (Hu' : forall config',
             pageConfigs this !! Live.currentPageName document = Some config' ->
             Live.unaffected document (Live.queried config')).
  { intros config' H'. rewrite H in H'. now injection H' as <-. }
  pose proof (live_pass_project page Hu') as S.
  apply (f_equal markers) in S. cbn [Live.project markers] in S.
  now rewrite (update_pass_recreates this (Live.snapshotAt document [])
                 config p (Live.project page) H Hp) in S.
Qed.

Lemma live_pass_texts (config : list MarkerSpec) (p : Element)
    (page : Live.LivePage) :
  pageConfigs this !! Live.currentPageName document = Some config ->
  Live.unaffected document (Live.queried config) ->
  getLeftPanel (Live.snapshotAt document []) = Some p ->
  map (fun m => mk_textContent (Live.lm_marker m))
    (Live.attached
       (Live.pageAfter (Live.updateAllMarkers this document) page)) =
  map number
    (List.filter (anchored (Live.snapshotAt document [])) config).
Proof.
  intros H Hu Hp.
  destruct (rendered_shape this (Live.snapshotAt document []) p config)
    as [Ht _].
  rewrite <- (live_pass_markers config p page H Hu Hp) in Ht.
  rewrite <- Ht. now rewrite map_map.
Qed.

(** X9: on a registered page with a container, where no marker is in
    the way of the selectors the pass queries, a pass leaves in the
    document exactly one marker for each entry whose anchor is in the
    document, in registry order and labelled with the entry's number,
    and none for the others, whatever markers were in the document
    before; each marker is a child of a node of the loaded page, sits in
    the container and has the configured size, and there are never more
    markers than entries. *)
Theorem live_pass_renders_one_marker_per_anchor (config : list MarkerSpec)
    (p : Element) (page : Live.LivePage) :
  pageConfigs this !! Live.currentPageName document = Some config ->
  Live.unaffected document (Live.queried config) ->
  getLeftPanel (Live.snapshotAt document []) = Some p ->
  let after := Live.pageAfter (Live.updateAllMarkers this document) page in
  map (fun m => mk_textContent (Live.lm_marker m)) (Live.attached after) =
    map number
      (List.filter (anchored (Live.snapshotAt document [])) config) /\
  Forall (fun m => mk_container (Live.lm_marker m) = p /\
                   mk_size (Live.lm_marker m) = markerSize (options this) /\
                   exists id, Live.lm_parent m = Live.StaticNode id)
    (Live.attached after) /\
  (length (Live.attached after) <= length config)%nat.
Proof.
  intros H Hu Hp after.
  pose proof (live_pass_markers config p page H Hu Hp) as S. fold after in S.
  pose proof (live_pass_texts config p page H Hu Hp) as T. fold after in T.
  destruct (rendered_shape this (Live.snapshotAt document []) p config)
    as [_ Hf].
  rewrite <- S in Hf.
  split; [exact T |]. split.
  - pose proof (live_pass_parents config p page H Hu Hp) as Pa.
    fold after in Pa. rewrite List.Forall_forall in Pa, Hf |- *.
    intros m Hm. destruct (Hf (Live.lm_marker m) (in_map _ _ _ Hm)) as [A B].
    split; [exact A |]. split; [exact B |]. now apply Pa.
  - rewrite <- (length_map (fun m => mk_textContent (Live.lm_marker m))), T.
    rewrite length_map. apply List.filter_length_le.
Qed.

End LiveRendering.

(** *** The export *)

Section LiveExport.

Variable this : System.
Variable document : Live.LiveDocument.

(** The export appends and removes nothing: it is the export over the
    document with the markers that are in it at the call. *)
Lemma live_exportLoop_run (leftPanel : option Live.Node)
    (config : list MarkerSpec) (positions : list ExportEntry)
    (page : Live.LivePage) :
  Live.exportLoop this document leftPanel config positions page =
  (fst (exportLoop this (Live.snapshotAt document (Live.attached page))
          (option_map Live.node_element leftPanel) config positions
          (Live.project page)),
   page).
Proof.
  revert positions. induction config as [| item rest IH]; intros positions;
    [reflexivity |].
  cbn [Live.exportLoop exportLoop]. rewrite live_bind_run.
  destruct (live_findElement_run document (selector item) page)
    as (r & Hr & Er).
  rewrite Hr, <- Er. destruct r as [e |]; cbn [option_map truthy];
    [| apply IH].
  destruct leftPanel as [p |];
    cbn [option_map Live.invokeCalculateOptimalPosition
         invokeCalculateOptimalPosition];
    rewrite live_bind_run, bind_run; cbn [Live.ret ret Live.throw throw];
    [apply IH | reflexivity].
Qed.

Lemma live_export_run (page : Live.LivePage) :
  Live.exportCurrentPositions this document page =
  (fst (exportCurrentPositions this
          (Live.snapshotAt document (Live.attached page))
          (Live.project page)),
   page).
Proof.
  unfold Live.exportCurrentPositions, exportCurrentPositions.
  change (getCurrentPageName (Live.snapshotAt document (Live.attached page)))
    with (Live.currentPageName document).
  destruct (pageConfigs this !! Live.currentPageName document) as [config |];
    [| reflexivity].
  rewrite live_bind_run, bind_run.
  destruct (live_getLeftPanel_run document page) as (r & Hr & Er).
  rewrite Hr, <- Er. rewrite live_bind_run, live_exportLoop_run.
  destruct (exportLoop this (Live.snapshotAt document (Live.attached page))
              (option_map Live.node_element r) config [] (Live.project page))
    as [[positions | e] page'] eqn:E; reflexivity.
Qed.

Lemma exportLoop_snapshot (leftPanel : option Element)
    (config : list MarkerSpec) (positions : list ExportEntry)
    (ms : list Live.LiveMarker) (page : Page) :
  Live.unaffected document
    (flat_map (fun item => Live.selectorStrings (selector item)) config) ->
  exportLoop this (Live.snapshotAt document ms) leftPanel config positions
    page =
  exportLoop this (Live.snapshotAt document []) leftPanel config positions
    page.
Proof.
  revert positions page. induction config as [| item rest IH];
    intros positions page Hu; [reflexivity |].
  assert (Hi : Live.unaffected document
                 (Live.selectorStrings (selector item))).
  { apply (unaffected_incl document _ _
             (fun s Hs => in_or_app _ _ s (or_introl Hs)) Hu). }
  assert (Hr : Live.unaffected document
                 (flat_map (fun item => Live.selectorStrings (selector item))
                    rest)).
  { apply (unaffected_incl document _ _
             (fun s Hs => in_or_app _ _ s (or_intror Hs)) Hu). }
  cbn [exportLoop].
  rewrite (snapshot_findElement document (selector item) ms Hi).
  destruct (findElement (Live.snapshotAt document []) (selector item));
    cbn [truthy]; [| now apply IH].
  rewrite !bind_run.
  destruct (invokeCalculateOptimalPosition this (Some e) leftPanel item page)
    as [[position | ex] page']; [now apply IH | reflexivity].
Qed.

Lemma export_snapshot (ms : list Live.LiveMarker) (page : Page) :
  (forall config,
     pageConfigs this !! Live.currentPageName document = Some config ->
     Live.unaffected document (Live.queried config)) ->
  exportCurrentPositions this (Live.snapshotAt document ms) page =
  exportCurrentPositions this (Live.snapshotAt document []) page.
Proof.
  intros Hu. unfold exportCurrentPositions.
  change (getCurrentPageName (Live.snapshotAt document ms))
    with (Live.currentPageName document).
  change (getCurrentPageName (Live.snapshotAt document []))
    with (Live.currentPageName document).
  destruct (pageConfigs this !! Live.currentPageName document)
    as [config |] eqn:H; [| reflexivity].
  specialize (Hu config eq_refl).
  rewrite (snapshot_getLeftPanel document ms).
  - rewrite !bind_run. rewrite exportLoop_snapshot; [reflexivity |].
    apply (unaffected_incl document _ _
             (fun s Hs => in_or_app _ _ s (or_intror Hs)) Hu).
  - apply (unaffected_incl document _ _
             (fun s Hs => in_or_app _ _ s (or_introl Hs)) Hu).
Qed.

Lemma itemExport_text (p : Element) (item : MarkerSpec) (d : Document) :
  map ex_description (itemExport this d p item) =
    (if anchored d item then [description item] else []) /\
  Forall (fun e =>
            ex_pythonConfig e =
            "{'selector': '" +:+ showSelector (ex_selector e) +:+
            "', 'offset': {'top': " +:+ pretty (pos_top (ex_position e)) +:+
            ", 'left': " +:+ pretty (pos_left (ex_position e)) +:+
            "}, 'desc': '" +:+ showText (ex_description e) +:+ "'}")
    (itemExport this d p item).
Proof.
  unfold itemExport, anchored.
  destruct (findElement d (selector item)); cbn [truthy map].
  - split; [reflexivity |]. constructor; [reflexivity | constructor].
  - split; [reflexivity | constructor].
Qed.

Lemma export_text (p : Element) (config : list MarkerSpec) (d : Document) :
  map ex_description (flat_map (itemExport this d p) config) =
    map description (List.filter (anchored d) config) /\
  Forall (fun e =>
            ex_pythonConfig e =
            "{'selector': '" +:+ showSelector (ex_selector e) +:+
            "', 'offset': {'top': " +:+ pretty (pos_top (ex_position e)) +:+
            ", 'left': " +:+ pretty (pos_left (ex_position e)) +:+
            "}, 'desc': '" +:+ showText (ex_description e) +:+ "'}")
    (flat_map (itemExport this d p) config).
Proof.
  induction config as [| item rest [IHd IHf]];
    [split; [reflexivity | constructor] |].
  destruct (itemExport_text p item d) as [Hd Hf].
  cbn [flat_map List.filter]. rewrite map_app, Hd, IHd. split.
  - now destruct (anchored d item).
  - apply Forall_app. now split.
Qed.

(** X19: on a registered page with a container, where no marker is in
    the way of the selectors, the export taken after a pass lists, under
    the current page name and in registry order, exactly the positions at
    which the pass rendered the markers that are in the document, with
    the selectors and descriptions of the anchored entries; each entry's
    [pythonConfig] is the Python dictionary text built from its selector,
    position and description, and [pythonCode] lists these texts, one per
    line, under the quoted page name. The export completes without an
    exception and leaves the page as it is. *)
Theorem live_export_matches_rendering (config : list MarkerSpec)
    (p : Element) (page : Live.LivePage) :
  pageConfigs this !! Live.currentPageName document = Some config ->
  Live.unaffected document (Live.queried config) ->
  getLeftPanel (Live.snapshotAt document []) = Some p ->
  let after := Live.pageAfter (Live.updateAllMarkers this document) page in
  exists data,
    Live.exportCurrentPositions this document after =
      (Normal (Some data), after) /\
    ex_pageName data = Live.currentPageName document /\
    map ex_position (ex_positions data) =
      map (fun m => {| pos_top := mk_top (Live.lm_marker m);
                       pos_left := mk_left (Live.lm_marker m) |})
        (Live.attached after) /\
    map ex_selector (ex_positions data) =
      map selector
        (List.filter (anchored (Live.snapshotAt document [])) config) /\
    map ex_description (ex_positions data) =
      map description
        (List.filter (anchored (Live.snapshotAt document [])) config) /\
    Forall (fun e =>
              ex_pythonConfig e =
              "{'selector': '" +:+ showSelector (ex_selector e) +:+
              "', 'offset': {'top': " +:+ pretty (pos_top (ex_position e)) +:+
              ", 'left': " +:+ pretty (pos_left (ex_position e)) +:+
              "}, 'desc': '" +:+ showText (ex_description e) +:+ "'}")
      (ex_positions data) /\
    ex_pythonCode data =
      "    '" +:+ Live.currentPageName document +:+ "': [" +:+ nl +:+
      join ("," +:+ nl)
        (map (fun e => "        " +:+ ex_pythonConfig e)
           (ex_positions data)) +:+
      nl +:+ "    ]".
Proof.
  intros H Hu Hp after.
  assert (Hu' : forall config',
             pageConfigs this !! Live.currentPageName document = Some config' ->
             Live.unaffected document (Live.queried config')).
  { intros config' H'. rewrite H in H'. now injection H' as <-. }
  rewrite live_export_run, (export_snapshot _ _ Hu').
  unfold exportCurrentPositions.
  change (getCurrentPageName (Live.snapshotAt document []))
    with (Live.currentPageName document).
  rewrite H, Hp. rewrite bind_run, exportLoop_panel. cbn [app ret fst].
  eexists. split; [reflexivity |].
  cbn [ex_pageName ex_positions ex_pythonCode].
  split; [reflexivity |].
  pose proof (live_pass_markers this document config p page H Hu Hp) as S.
  fold after in S.
  destruct (export_positions this (Live.snapshotAt document []) p config)
    as [E1 E2].
  destruct (export_text p config (Live.snapshotAt document [])) as [E3 E4].
  split.
  { rewrite E1, <- S. now rewrite map_map. }
  split; [exact E2 |]. split; [exact E3 |]. split; [exact E4 | reflexivity].
Qed.

End LiveExport.

(** *** Registration and set-up *)

Section LiveSetup.

Lemma live_registerPageConfig_run (this : System)
    (document : Live.LiveDocument) (pageName : string)
    (elements : list MarkerSpec) (page : Live.LivePage) :
  let this' :=
    {| options := options this;
       pageConfigs :=
         <[pageName := imap numberOrIndex elements]> (pageConfigs this) |} in
  Live.registerPageConfig this document pageName elements page =
  (this',
   (Normal tt,
    if String.eqb (Live.currentPageName document) pageName
    then Live.pageAfter (Live.updateAllMarkers this' document) page
    else page)).
Proof.
  cbv zeta. unfold Live.registerPageConfig, Live.pageAfter.
  destruct (String.eqb (Live.currentPageName document) pageName);
    [| reflexivity].
  f_equal.
  rewrite (surjective_pairing (Live.updateAllMarkers _ document page)) at 1.
  now rewrite (proj1 (live_pass_completes _ document page)).
Qed.








End LiveSetup.

Section LiveRegistration.

Variable this : System.
Variable document : Live.LiveDocument.

(** X14: registering entries for the current page, when a container
    exists and no marker is in the way of the selectors, runs one pass
    at once and without an exception; the markers in the document are
    then one per anchored entry, in order, and each carries a non-zero
    number as its text: the entry's own number, or its position in the
    list where that number is missing or zero. *)
Theorem live_registration_renders_numbered_markers
    (elements : list MarkerSpec) (p : Element) (page : Live.LivePage) :
  Live.unaffected document (Live.queried (imap numberOrIndex elements)) ->
  getLeftPanel (Live.snapshotAt document []) = Some p ->
  let '(this', (outcome, page')) :=
    Live.registerPageConfig this document (Live.currentPageName document)
      elements page in
  outcome = Normal tt /\
  pageConfigs this' !! Live.currentPageName document =
    Some (imap numberOrIndex elements) /\
  Live.passes page' = S (Live.passes page) /\
  map (fun m => mk_textContent (Live.lm_marker m)) (Live.attached page') =
    map number
      (List.filter (anchored (Live.snapshotAt document []))
         (imap numberOrIndex elements)) /\
  Forall (fun m => exists n,
            mk_textContent (Live.lm_marker m) = Some n /\ n <> 0)
    (Live.attached page').
Proof.
  intros Hu Hp. rewrite live_registerPageConfig_run. cbv zeta.
  rewrite String.eqb_refl.
  set (this' := {| options := options this;
                   pageConfigs := <[Live.currentPageName document :=
                     imap numberOrIndex elements]> (pageConfigs this) |}).
  assert (H : pageConfigs this' !! Live.currentPageName document
              = Some (imap numberOrIndex elements))
    by apply lookup_insert_eq.
  split; [reflexivity |]. split; [exact H |].
  split; [apply (live_pass_completes this' document page) |].
  pose proof (live_pass_texts this' document
                (imap numberOrIndex elements) p page H Hu Hp) as T.
  split; [exact T |].
  apply Forall_map with (f := fun m => mk_textContent (Live.lm_marker m))
                        (P := fun t => exists n, t = Some n /\ n <> 0).
  rewrite T. apply Forall_map. apply filter_Forall.
  apply Forall_lookup. intros i el' Hi.
  rewrite list_lookup_imap in Hi.
  destruct (elements !! i) as [el |]; [| discriminate].
  cbn in Hi. injection Hi as <-.
  destruct (numberOrIndex_number i el) as (n & Hn & N0 & _).
  now exists n.
Qed.

End LiveRegistration.

(** *** Concrete live documents *)

Section LiveInstances.

(** On the home page of [LiveFixture.home] the markers are in the way of
    [.number-marker] only. *)
Lemma home_unaffected (view : Live.LiveMarker -> Element)
    (sels : list string) :
  ~ In ".number-marker" sels ->
  Live.unaffected (LiveFixture.home view) sels.
Proof.
  intros N sel Hs.
  assert (E : String.eqb sel ".number-marker" = false).
  { apply String.eqb_neq. intros ->. contradiction. }
  unfold LiveFixture.home. cbn [Live.live_querySelector]. rewrite E.
  split; [reflexivity |].
  intros n Hn.
  destruct (querySelector Sample.homeDocument sel) as [e |];
    [| discriminate].
  injection Hn as <-. now exists (el_id e).
Qed.


Lemma live_pass_renders_one_marker_per_anchor_witness :
  pageConfigs (Sample.homeSystem Sample.debugOptions)
    !! Live.currentPageName (LiveFixture.home LiveFixture.flatView)
    = Some Sample.homeSpecs /\
  getLeftPanel (Live.snapshotAt (LiveFixture.home LiveFixture.flatView) [])
    = Some Sample.leftPanel /\
  map (fun m => mk_textContent (Live.lm_marker m))
    (Live.attached
       (Live.pageAfter
          (Live.updateAllMarkers (Sample.homeSystem Sample.debugOptions)
             (LiveFixture.home LiveFixture.flatView))
          LiveFixture.stalePage))
    = [Some 1; Some 3].
Proof.
  assert (H : pageConfigs (Sample.homeSystem Sample.debugOptions)
                !! Live.currentPageName (LiveFixture.home LiveFixture.flatView)
              = Some Sample.homeSpecs) by (vm_compute; reflexivity).
  assert (U : Live.unaffected (LiveFixture.home LiveFixture.flatView)
                (Live.queried Sample.homeSpecs)).
  { apply home_unaffected. vm_compute. intuition discriminate. }
  split; [exact H |]. split; [reflexivity |].
  rewrite (proj1 (live_pass_renders_one_marker_per_anchor
                    (Sample.homeSystem Sample.debugOptions)
                    (LiveFixture.home LiveFixture.flatView)
                    Sample.homeSpecs Sample.leftPanel
                    LiveFixture.stalePage H U eq_refl)).
  reflexivity.
Defined.

Lemma live_export_matches_rendering_witness :
  pageConfigs (Sample.homeSystem Sample.debugOptions)
    !! Live.currentPageName (LiveFixture.home LiveFixture.flatView)
    = Some Sample.homeSpecs /\
  getLeftPanel (Live.snapshotAt (LiveFixture.home LiveFixture.flatView) [])
    = Some Sample.leftPanel /\
  exists data,
    fst (Live.exportCurrentPositions (Sample.homeSystem Sample.debugOptions)
           (LiveFixture.home LiveFixture.flatView)
           (Live.pageAfter
              (Live.updateAllMarkers (Sample.homeSystem Sample.debugOptions)
                 (LiveFixture.home LiveFixture.flatView))
              LiveFixture.stalePage))
    = Normal (Some data) /\
    map ex_selector (ex_positions data) =
      [ SelString "button.p-2:last-of-type";
        SelArray [".my-clubs"; ".bg-gradient-to-br"] ].
Proof.
  assert (H : pageConfigs (Sample.homeSystem Sample.debugOptions)
                !! Live.currentPageName (LiveFixture.home LiveFixture.flatView)
              = Some Sample.homeSpecs) by (vm_compute; reflexivity).
  assert (U : Live.unaffected (LiveFixture.home LiveFixture.flatView)
                (Live.queried Sample.homeSpecs)).
  { apply home_unaffected. vm_compute. intuition discriminate. }
  split; [exact H |]. split; [reflexivity |].
  destruct (live_export_matches_rendering
              (Sample.homeSystem Sample.debugOptions)
              (LiveFixture.home LiveFixture.flatView)
              Sample.homeSpecs Sample.leftPanel LiveFixture.stalePage
              H U eq_refl) as (data & E & _ & _ & S & _).
  exists data. split; [now rewrite E |]. rewrite S. reflexivity.
Defined.

Lemma live_registration_renders_numbered_markers_witness :
  getLeftPanel (Live.snapshotAt (LiveFixture.home LiveFixture.flatView) [])
    = Some Sample.leftPanel /\
  let '(_, (outcome, page')) :=
    Live.registerPageConfig (Sample.system Sample.debugOptions "3 4 sell" [])
      (LiveFixture.home LiveFixture.flatView)
      (Live.currentPageName (LiveFixture.home LiveFixture.flatView))
      [Fixture.titleSpec; Sample.spec None] LiveFixture.stalePage in
  outcome = Normal tt /\
  Forall (fun m => exists n,
            mk_textContent (Live.lm_marker m) = Some n /\ n <> 0)
    (Live.attached page').
Proof.
  split; [reflexivity |].
  assert (U : Live.unaffected (LiveFixture.home LiveFixture.flatView)
                (Live.queried
                   (imap numberOrIndex [Fixture.titleSpec; Sample.spec None]))).
  { apply home_unaffected. vm_compute. intuition discriminate. }
  pose proof (live_registration_renders_numbered_markers
                (Sample.system Sample.debugOptions "3 4 sell" [])
                (LiveFixture.home LiveFixture.flatView)
                [Fixture.titleSpec; Sample.spec None]
                Sample.leftPanel LiveFixture.stalePage U eq_refl) as W.
  destruct (Live.registerPageConfig _ _ _ _ _) as [this' [outcome page']].
  destruct W as (O & _ & _ & _ & F). now split.
Defined.


End LiveInstances.
